(** * ospd_openvas.wrapper: the scan orchestration bridge, embedded in Rocq

    A shallow embedding of [src/ospd_openvas/wrapper.py].  Python values
    are a small tagged union, dictionaries are insertion-ordered
    association lists, raised exceptions are an explicit [Raise] result,
    and the calls the daemon makes on the shared store, on the outer
    service layer and on the engine process are recorded as a trace of
    events.  Definitions come first, the theorems follow. *)

From Stdlib Require Import String Ascii List ZArith Lia Bool DecimalString.
From Stdlib Require Import SpecFloat.
Import ListNotations.
Open Scope string_scope.

(* ================================================================= *)
(** ** Python values, exceptions, strings *)

Inductive pyval : Type :=
| VNone
| VBool (b : bool)
| VInt (z : Z)
| VStr (s : string).

Inductive exn : Type :=
| KeyError (key : string)
| NameError (name : string)
| ValueError
| TypeError
| AttributeError
| IndexError
| ZeroDivisionError
| NoSuchProcess.

Inductive result (A : Type) : Type :=
| Ok (a : A)
| Raise (e : exn).
Arguments Ok {A} a.
Arguments Raise {A} e.

Definition string_of_Z (z : Z) : string :=
  NilZero.string_of_int (Z.to_int z).

(** [str(v)] and ['{0}'.format(v)]. *)
Definition py_str (v : pyval) : string :=
  match v with
  | VNone => "None"
  | VBool true => "True"
  | VBool false => "False"
  | VInt z => string_of_Z z
  | VStr s => s
  end.

(** [isinstance(v, str)]. *)
Definition is_str (v : pyval) : bool :=
  match v with VStr _ => true | _ => false end.

(** [v == s] for a string literal [s]. *)
Definition eq_str (v : pyval) (s : string) : bool :=
  match v with VStr t => String.eqb t s | _ => false end.

(** Truth value of a Python object. *)
Definition truthy (v : pyval) : bool :=
  match v with
  | VNone => false
  | VBool b => b
  | VInt z => negb (Z.eqb z 0)
  | VStr s => negb (String.eqb s "")
  end.

(** [sub in s]: some suffix of [s] starts with [sub]. *)
Fixpoint contains (sub s : string) : bool :=
  String.prefix sub s ||
  match s with
  | EmptyString => false
  | String _ s' => contains sub s'
  end.

Definition cons_head (a : ascii) (l : list string) : list string :=
  match l with
  | h :: t => String a h :: t
  | [] => [String a EmptyString]
  end.

(** [s.split(sep)] for a non-empty separator: [skip] counts the
    characters of a separator that has just been matched. *)
Fixpoint split_from (sep : string) (skip : nat) (s : string) : list string :=
  match s with
  | EmptyString => [EmptyString]
  | String a s' =>
      match skip with
      | S k => split_from sep k s'
      | O =>
          if String.prefix sep s
          then EmptyString :: split_from sep (String.length sep - 1) s'
          else cons_head a (split_from sep 0 s')
      end
  end.

Definition split (sep s : string) : list string := split_from sep 0 s.

(** *** [int(v)]

    Integers and booleans convert, [None] is a [TypeError], a string of
    ASCII characters has the blanks of C's [isspace] removed at both
    ends (tab, line feed, vertical tab, form feed, carriage return and
    space) and is read as an optionally signed decimal numeral whose
    digits may be grouped by single underscores; anything else is a
    [ValueError].  The separators [0x1c] to [0x1f] are blanks for
    [str.strip] but not for [int]: [int('\x1c5')] is a [ValueError].
    Characters outside ASCII are not modelled ([int] reads the decimal
    digits and the blanks of other scripts as well). *)

(** The blanks of [str.strip] among the ASCII characters. *)
Definition is_space (a : ascii) : bool :=
  let n := nat_of_ascii a in
  ((9 <=? n) && (n <=? 13) || (28 <=? n) && (n <=? 32))%nat.

(** The blanks [int] skips around a numeral. *)
Definition is_int_space (a : ascii) : bool :=
  let n := nat_of_ascii a in
  ((9 <=? n) && (n <=? 13) || (n =? 32))%nat.

Definition digit_of (a : ascii) : option Z :=
  let n := nat_of_ascii a in
  if ((48 <=? n) && (n <=? 57))%nat then Some (Z.of_nat (n - 48)) else None.

Fixpoint lstrip (l : list ascii) : list ascii :=
  match l with
  | a :: r => if is_space a then lstrip r else l
  | [] => []
  end.

Definition strip (l : list ascii) : list ascii :=
  rev (lstrip (rev (lstrip l))).

Fixpoint int_lstrip (l : list ascii) : list ascii :=
  match l with
  | a :: r => if is_int_space a then int_lstrip r else l
  | [] => []
  end.

Definition int_strip (l : list ascii) : list ascii :=
  rev (int_lstrip (rev (int_lstrip l))).

Fixpoint digits_val (acc : Z) (after_digit : bool) (l : list ascii)
  : option Z :=
  match l with
  | [] => if after_digit then Some acc else None
  | a :: r =>
      match digit_of a with
      | Some d => digits_val (10 * acc + d) true r
      | None =>
          if Ascii.eqb a "_" && after_digit then digits_val acc false r
          else None
      end
  end.

Definition int_of_string (s : string) : option Z :=
  match int_strip (list_ascii_of_string s) with
  | "-"%char :: r => option_map Z.opp (digits_val 0 false r)
  | "+"%char :: r => digits_val 0 false r
  | l => digits_val 0 false l
  end.

Definition py_int (v : pyval) : result Z :=
  match v with
  | VNone => Raise TypeError
  | VBool b => Ok (if b then 1 else 0)%Z
  | VInt z => Ok z
  | VStr s =>
      match int_of_string s with
      | Some z => Ok z
      | None => Raise ValueError
      end
  end.

(* ================================================================= *)
(** ** Dictionaries

    A [dict] keeps its items in insertion order; a key is looked up at
    its first item. *)

Definition dict (V : Type) : Type := list (string * V).

Fixpoint get {V} (d : dict V) (k : string) : option V :=
  match d with
  | [] => None
  | (k', v) :: r => if String.eqb k' k then Some v else get r k
  end.

Definition mem {V} (d : dict V) (k : string) : bool :=
  match get d k with Some _ => true | None => false end.

(** [d.get(k, default)]. *)
Definition get_default {V} (d : dict V) (k : string) (default : V) : V :=
  match get d k with Some v => v | None => default end.

Fixpoint remove {V} (d : dict V) (k : string) : dict V :=
  match d with
  | [] => []
  | (k', v) :: r =>
      if String.eqb k' k then remove r k else (k', v) :: remove r k
  end.

(** [d.pop(k)]: the value and the dictionary without the key. *)
Definition pop {V} (d : dict V) (k : string) : result (V * dict V) :=
  match get d k with
  | Some v => Ok (v, remove d k)
  | None => Raise (KeyError k)
  end.

Definition keys {V} (d : dict V) : list string := map fst d.

(** [d[k] = v]: an existing key keeps its place. *)
Fixpoint setitem {V} (d : dict V) (k : string) (v : V) : dict V :=
  match d with
  | [] => [(k, v)]
  | (k', v') :: r =>
      if String.eqb k' k then (k', v) :: r else (k', v') :: setitem r k v
  end.

(** [dict(pairs)]. *)
Definition dict_of_pairs {V} (pairs : list (string * V)) : dict V :=
  fold_left (fun d kv => setitem d (fst kv) (snd kv)) pairs [].

(** [if k in d: x = d.pop(k)], with [x] initialised to [None]. *)
Definition pop_if_present {V} (d : dict V) (k : string)
  : option V * dict V :=
  match get d k with
  | Some v => (Some v, remove d k)
  | None => (None, d)
  end.

(* ================================================================= *)
(** ** The daemon, the world around it, and the monad of its methods *)

(** One declared parameter of a VT: [{type, name, default}]. *)
Record vt_param : Type := mk_vt_param {
  param_type_of : string;
  param_name : string;
  param_default : string
}.

(** A VT entry of [self.vts], with the fields [load_vts] hands to
    [add_vt]. *)
Record vt : Type := mk_vt {
  name : string;
  vt_params : dict vt_param;
  vt_refs : dict (list string);
  custom : dict string;
  vt_creation_time : string;
  vt_modification_time : string;
  vt_dependencies : list (option string);
  summary : option string;
  impact : option string;
  affected : option string;
  insight : option string;
  solution : option string;
  solution_t : option string;
  detection : option string;
  qod_t : option string;
  qod_v : option string;
  severities : dict string
}.

(** The attributes of the daemon the modelled methods read and write.
    [pending_feed] is [None], [True] or [False]; [scan_processes] maps a
    scan id to what [is_alive()] answers for its process. *)
Record daemon : Type := mk_daemon {
  vts : dict vt;
  vts_version : option string;
  pending_feed : option bool;
  main_kbindex : option Z;
  scan_processes : dict bool
}.

(** What the daemon does to its collaborators: the logger, the outer
    service layer (scan errors, logs and progress), the shared store and
    the engine process.  [SetPendingFeed] records an assignment to
    [self.pending_feed]. *)
Inductive event : Type :=
| LogDebug (msg : string)
| LogInfo (msg : string)
| SetPendingFeed (b : bool)
| AddScanError (scan_id name host value : string)
| AddScanLog (scan_id host name value : string)
| KbNew (index : Z)
| KbConnect (index : Z)
| SelectKb (index : Z) (set_global : bool)
| AddSingleItem (key : string) (values : list pyval)
| SetSingleItem (key : string) (values : list pyval)
| RemoveListItem (key : string) (index : Z)
| ReleaseDb (index : Z)
| Popen (cmd : list string) (pid : option Z)
| SendSignal (pid : Z) (signal : string)
| Sleep (seconds : nat)
| PullHost (index : Z)
| SetScanTargetProgress (scan_id target : string) (progress : spec_float).

Definition world : Type := daemon * list event.

Definition M (A : Type) : Type := world -> result A * world.

Definition ret {A} (a : A) : M A := fun w => (Ok a, w).

Definition bind {A B} (m : M A) (f : A -> M B) : M B :=
  fun w =>
    match m w with
    | (Ok a, w') => f a w'
    | (Raise e, w') => (Raise e, w')
    end.

Definition raise {A} (e : exn) : M A := fun w => (Raise e, w).

Definition lift {A} (r : result A) : M A := fun w => (r, w).

Definition emit (e : event) : M unit :=
  fun w => (Ok tt, (fst w, (snd w ++ [e])%list)).

Definition gets {A} (f : daemon -> A) : M A := fun w => (Ok (f (fst w)), w).

Definition modify (f : daemon -> daemon) : M unit :=
  fun w => (Ok tt, (f (fst w), snd w)).

Declare Scope py_scope.
Delimit Scope py_scope with py.
Notation "x <- c1 ;; c2" := (bind c1 (fun x => c2))
  (at level 61, c1 at next level, right associativity) : py_scope.
Notation "' pat <- c1 ;; c2" := (bind c1 (fun x => match x with pat => c2 end))
  (at level 61, pat pattern, c1 at next level, right associativity) : py_scope.
Notation "c1 ;; c2" := (bind c1 (fun _ => c2))
  (at level 61, right associativity) : py_scope.
Open Scope py_scope.

Definition set_vts (d : dict vt) : M unit :=
  modify (fun s => mk_daemon d (vts_version s) (pending_feed s)
                     (main_kbindex s) (scan_processes s)).

Definition set_vts_version (v : option string) : M unit :=
  modify (fun s => mk_daemon (vts s) v (pending_feed s)
                     (main_kbindex s) (scan_processes s)).

Definition set_pending_feed (b : bool) : M unit :=
  modify (fun s => mk_daemon (vts s) (vts_version s) (Some b)
                     (main_kbindex s) (scan_processes s)) ;;
  emit (SetPendingFeed b).

Definition set_main_kbindex (i : Z) : M unit :=
  modify (fun s => mk_daemon (vts s) (vts_version s) (pending_feed s)
                     (Some i) (scan_processes s)).

Definition set_scan_processes (p : dict bool) : M unit :=
  modify (fun s => mk_daemon (vts s) (vts_version s) (pending_feed s)
                     (main_kbindex s) p).

Definition option_string_eqb (a b : option string) : bool :=
  match a, b with
  | Some x, Some y => String.eqb x y
  | None, None => true
  | _, _ => false
  end.

(** Truth value of [self.pending_feed]. *)
Definition flag_set (f : option bool) : bool :=
  match f with Some true => true | _ => false end.

(* ================================================================= *)
(** ** VT Metadata Cache: [load_vts] and [check_feed] *)

(** The NVTI cache over the shared store ([self.nvti]), as the daemon
    uses it: the [(filename, OID)] pairs, and per OID the declared
    parameters, the references and the metadata map; the feed version of
    the store. *)
Record nvticache : Type := mk_nvticache {
  get_oids : list (string * string);
  get_nvt_params : string -> dict vt_param;
  get_nvt_refs : string -> dict (list string);
  get_nvt_metadata : string -> dict string;
  get_feed_version : option string
}.

(** Modelled from the spec: [add_vt] of the outer daemon framework, which
    the sources only call.  A malformed OID ([-2]) or a duplicate OID
    ([-1]) is rejected and the table stays as it is; otherwise the entry
    is stored and the size of the table returned.  [valid_oid] stands for
    the framework's OID pattern. *)
Definition add_vt (valid_oid : string -> bool) (table : dict vt)
  (vt_id : string) (entry : vt) : Z * dict vt :=
  if String.eqb vt_id "" || negb (valid_oid vt_id) then ((-2)%Z, table)
  else if mem table vt_id then ((-1)%Z, table)
  else (Z.of_nat (S (length table)), (table ++ [(vt_id, entry)])%list).

(** The first part of the body of the loop of [load_vts], for one
    [(filename, vt_id)]: the entry handed to [add_vt], read from the
    cache.  The branch taken when ['severity_type'] is in [_custom]
    reads the name [custom], which is bound nowhere. *)
Definition read_vt (nvti : nvticache) (oids : dict string) (vt_id : string)
  : M vt :=
  let _vt_params := get_nvt_params nvti vt_id in
  let _vt_refs := get_nvt_refs nvti vt_id in
  let _custom := get_nvt_metadata nvti vt_id in
  '(_name, _custom) <- lift (pop _custom "name") ;;
  '(_vt_creation_time, _custom) <- lift (pop _custom "creation_date") ;;
  '(_vt_modification_time, _custom) <-
     lift (pop _custom "last_modification") ;;
  let '(_summary, _custom) := pop_if_present _custom "summary" in
  let '(_impact, _custom) := pop_if_present _custom "impact" in
  let '(_affected, _custom) := pop_if_present _custom "affected" in
  let '(_insight, _custom) := pop_if_present _custom "insight" in
  let '(_solution, _custom) := pop_if_present _custom "solution" in
  let '(_solution_t, _custom) :=
    match _solution with
    | Some _ => pop_if_present _custom "solution_type"
    | None => (None, _custom)
    end in
  let '(_vuldetect, _custom) := pop_if_present _custom "vuldetect" in
  let '(_qod_t, _custom) := pop_if_present _custom "qod_type" in
  let '(_qod_v, _custom) :=
    match _qod_t with
    | Some _ => (None, _custom)
    | None => pop_if_present _custom "qod"
    end in
  '(_severity_vector, _custom) <-
     lift (if mem _custom "severity_base_vector"
           then pop _custom "severity_base_vector"
           else pop _custom "cvss_base_vector") ;;
  let _severity := [("severity_base_vector", _severity_vector)] in
  _severity_type <-
    (if mem _custom "severity_type" then raise (NameError "custom")
     else ret "cvss_base_v2") ;;
  let _severity := setitem _severity "severity_type" _severity_type in
  let '(_severity_origin, _custom) :=
    pop_if_present _custom "severity_origin" in
  let _severity :=
    match _severity_origin with
    | Some origin => setitem _severity "severity_origin" origin
    | None => _severity
    end in
  let '(_deps, _custom) := pop_if_present _custom "dependencies" in
  let _vt_dependencies :=
    match _deps with
    | Some deps => map (fun dep => get oids ("filename:" ++ dep))
                       (split ", " deps)
    | None => []
    end in
  ret (mk_vt _name _vt_params _vt_refs _custom _vt_creation_time
         _vt_modification_time _vt_dependencies _summary _impact _affected
         _insight _solution _solution_t _vuldetect _qod_t _qod_v _severity).

(** The body of the loop: read the entry, [add_vt] it, log a rejected
    OID. *)
Definition load_vt (valid_oid : string -> bool) (nvti : nvticache)
  (oids : dict string) (vt_id : string) : M unit :=
  entry <- read_vt nvti oids vt_id ;;
  table <- gets vts ;;
  let '(code, table) := add_vt valid_oid table vt_id entry in
  set_vts table ;;
  (if Z.eqb code (-1)
   then emit (LogInfo ("Dupplicated VT with OID: " ++ vt_id))
   else ret tt) ;;
  (if Z.eqb code (-2)
   then emit (LogInfo (vt_id ++ ": Invalid OID."))
   else ret tt).

(** [for filename, vt_id in oids.items()]. *)
Fixpoint load_loop (valid_oid : string -> bool) (nvti : nvticache)
  (oids : dict string) (items : list (string * string)) : M unit :=
  match items with
  | [] => ret tt
  | (filename, vt_id) :: rest =>
      load_vt valid_oid nvti oids vt_id ;;
      load_loop valid_oid nvti oids rest
  end.

Definition load_vts (valid_oid : string -> bool) (nvti : nvticache)
  : M unit :=
  emit (LogDebug "Loading vts in memory.") ;;
  let oids := dict_of_pairs (get_oids nvti) in
  load_loop valid_oid nvti oids oids ;;
  let _feed_version := get_feed_version nvti in
  set_vts_version _feed_version ;;
  set_pending_feed false ;;
  emit (LogDebug "Finish loading up vts.").

(** [for scan_id in self.scan_processes: if ...is_alive(): ...]. *)
Fixpoint any_alive (processes : dict bool) (_running_scan : bool) : bool :=
  match processes with
  | [] => _running_scan
  | (scan_id, alive) :: rest =>
      any_alive rest (if alive then true else _running_scan)
  end.

Definition check_feed (valid_oid : string -> bool) (nvti : nvticache)
  : M unit :=
  processes <- gets scan_processes ;;
  let _running_scan := any_alive processes false in
  flag <- gets pending_feed ;;
  _pending_feed <-
    (if flag_set flag then ret true
     else version <- gets vts_version ;;
          ret (negb (option_string_eqb version (get_feed_version nvti)))) ;;
  if _running_scan && _pending_feed then
    flag <- gets pending_feed ;;
    if negb (flag_set flag) then
      set_pending_feed true ;;
      emit (LogDebug ("There is a running scan. Therefore the feed "
                        ++ "update will be performed later."))
    else ret tt
  else if negb _running_scan && _pending_feed then
    set_vts [] ;;
    load_vts valid_oid nvti
  else ret tt.

(** [scheduler], called periodically. *)
Definition scheduler (valid_oid : string -> bool) (nvti : nvticache)
  : M unit :=
  check_feed valid_oid nvti.

(** A run of scheduler ticks: before each tick the liveness of the scan
    processes and the cache over the store are as observed then. *)
Fixpoint scheduler_ticks (valid_oid : string -> bool)
  (observed : list (dict bool * nvticache)) : M unit :=
  match observed with
  | [] => ret tt
  | (processes, nvti) :: rest =>
      set_scan_processes processes ;;
      scheduler valid_oid nvti ;;
      scheduler_ticks valid_oid rest
  end.

(* ================================================================= *)
(** ** Scan Preference Encoder: VT selection *)

(** [families]: family (or [None]) to the OIDs of that family. *)
Definition families_t : Type := list (option string * list string).

Fixpoint families_get (families : families_t) (family : option string)
  : option (list string) :=
  match families with
  | [] => None
  | (f, oids) :: r =>
      if option_string_eqb f family then Some oids else families_get r family
  end.

(** [if family not in families: families[family] = list()] followed by
    [families[family].append(oid)]. *)
Fixpoint families_append (families : families_t) (family : option string)
  (oid : string) : families_t :=
  match families with
  | [] => [(family, [oid])]
  | (f, oids) :: r =>
      if option_string_eqb f family then (f, (oids ++ [oid])%list) :: r
      else (f, oids) :: families_append r family oid
  end.

(** First loop of [get_vts_in_groups]: [for oid in self.vts]. *)
Fixpoint group_by_family (table : dict vt) (oids : list string)
  (families : families_t) : result families_t :=
  match oids with
  | [] => Ok families
  | oid :: rest =>
      match get table oid with
      | None => Raise (KeyError oid)
      | Some v =>
          let family := get (custom v) "family" in
          group_by_family table rest (families_append families family oid)
      end
  end.

(** Second loop: [key, value = elem.split('=')] needs exactly two
    parts. *)
Fixpoint filters_loop (families : families_t) (filters : list string)
  (vts_list : list string) : result (list string) :=
  match filters with
  | [] => Ok vts_list
  | elem :: rest =>
      match split "=" elem with
      | [key; value] =>
          match families_get families (Some value) with
          | Some oids =>
              if String.eqb key "family"
              then filters_loop families rest (vts_list ++ oids)
              else filters_loop families rest vts_list
          | None => filters_loop families rest vts_list
          end
      | _ => Raise ValueError
      end
  end.

Definition get_vts_in_groups (filters : list string) : M (list string) :=
  table <- gets vts ;;
  families <- lift (group_by_family table (keys table) []) ;;
  lift (filters_loop families filters []).

(** The declared type of a parameter, or [False] ([None] here). *)
Definition get_vt_param_type (vtid vt_param_id : string)
  : M (option string) :=
  table <- gets vts ;;
  match get table vtid with
  | None => raise (KeyError vtid)
  | Some v =>
      match get (vt_params v) vt_param_id with
      | Some p => ret (Some (param_type_of p))
      | None => ret None
      end
  end.

Definition string_like_types : list string :=
  ["entry"; "file"; "password"; "radio"; "sshlogin"].

(** [check_param_type]: [None] ([Ok None]) when the value matches the
    type, [1] when it does not; only [ValueError] is caught around
    [int(vt_param_value)]. *)
Definition check_param_type (vt_param_value : pyval) (param_type : string)
  : result (option Z) :=
  if existsb (String.eqb param_type) string_like_types
     && is_str vt_param_value
  then Ok None
  else if String.eqb param_type "checkbox"
          && (eq_str vt_param_value "yes" || eq_str vt_param_value "no")
  then Ok None
  else if String.eqb param_type "integer" then
    match py_int vt_param_value with
    | Ok _ => Ok None
    | Raise ValueError => Ok (Some 1%Z)
    | Raise e => Raise e
    end
  else Ok (Some 1%Z).

(** The VT selection of a scan: the filters under ['vt_groups'] (absent
    when the key is) and, per selected OID, its parameter values. *)
Record vt_selection : Type := mk_vt_selection {
  vt_groups : option (list string);
  vt_single : dict (dict pyval)
}.

(** The type [process_vts] checks a value against. *)
Definition type_aux_of (vt_param_id param_type : string) : string :=
  if String.eqb vt_param_id "timeout" then "integer" else param_type.

(** The record appended for a parameter. *)
Definition param_record (nvt_name param_type vt_param_id : string)
  (vt_param_value : pyval) : string * string :=
  (nvt_name ++ "[" ++ param_type ++ "]:" ++ vt_param_id,
   py_str vt_param_value).

Definition type_mismatch_message (type_aux : string) (v : pyval) : string :=
  "Expected " ++ type_aux ++ " type for parameter value " ++ py_str v.

(** Inner loop of [process_vts]: [for vt_param_id, vt_param_value in
    vt_params.items()].  [if not param_type] holds for [False] and for
    the empty string. *)
Fixpoint params_loop (vtid nvt_name : string) (items : list (string * pyval))
  (vts_params : list (string * string)) : M (list (string * string)) :=
  match items with
  | [] => ret vts_params
  | (vt_param_id, vt_param_value) :: rest =>
      param_type <- get_vt_param_type vtid vt_param_id ;;
      match param_type with
      | None | Some EmptyString =>
          emit (LogDebug ("The vt parameter " ++ vt_param_id ++ " for "
                            ++ vtid ++ " could not be loaded.")) ;;
          params_loop vtid nvt_name rest vts_params
      | Some param_type =>
          let type_aux := type_aux_of vt_param_id param_type in
          failed <- lift (check_param_type vt_param_value type_aux) ;;
          match failed with
          | Some _ =>
              emit (LogDebug (type_mismatch_message type_aux vt_param_value))
          | None => ret tt
          end ;;
          params_loop vtid nvt_name rest
            (vts_params
               ++ [param_record nvt_name param_type vt_param_id
                     vt_param_value])
      end
  end.

(** Outer loop: [for vtid, vt_params in vts.items()]. *)
Fixpoint vts_loop (items : list (string * dict pyval))
  (vts_list : list string) (vts_params : list (string * string))
  : M (list string * list (string * string)) :=
  match items with
  | [] => ret (vts_list, vts_params)
  | (vtid, vt_params) :: rest =>
      let vts_list := (vts_list ++ [vtid])%list in
      table <- gets vts ;;
      match get table vtid with
      | None => raise (KeyError vtid)
      | Some v =>
          vts_params <- params_loop vtid (name v) vt_params vts_params ;;
          vts_loop rest vts_list vts_params
      end
  end.

Definition process_vts (sel : vt_selection)
  : M (list string * list (string * string)) :=
  match vt_groups sel with
  | None => raise (KeyError "vt_groups")
  | Some vtgroups =>
      vts_list <- match vtgroups with
                  | [] => ret []
                  | _ => get_vts_in_groups vtgroups
                  end ;;
      vts_loop (vt_single sel) vts_list []
  end.

(* ================================================================= *)
(** ** Credential Preference Builder: [build_credentials_as_prefs] *)

Definition known_service (service : string) : bool :=
  String.eqb service "ssh" || String.eqb service "smb" ||
  String.eqb service "esxi" || String.eqb service "snmp".

(** The records appended by one iteration of the loop over
    [credentials.items()]. *)
Definition credential_prefs (service : string) (cred_params : dict pyval)
  : list string :=
  let cred_type := get_default cred_params "type" (VStr "") in
  let username := get_default cred_params "username" (VStr "") in
  let password := get_default cred_params "password" (VStr "") in
  (if String.eqb service "ssh" then
     let port := get_default cred_params "port" (VStr "") in
     [ "auth_port_ssh|||" ++ py_str port;
       "SSH Authorization[entry]:SSH login " ++ "name:|||" ++ py_str username ]
     ++ (if eq_str cred_type "up" then
           [ "SSH Authorization[password]:" ++ "SSH password (unsafe!):|||"
               ++ py_str password ]
         else
           let private := get_default cred_params "private" (VStr "") in
           [ "SSH Authorization[password]:" ++ "SSH key passphrase:|||"
               ++ py_str password;
             "SSH Authorization[file]:" ++ "SSH private key:|||"
               ++ py_str private ])
   else [])
  ++ (if String.eqb service "smb" then
        [ "SMB Authorization[entry]:SMB login:" ++ "|||" ++ py_str username;
          "SMB Authorization[password]:" ++ "SMB password :|||"
            ++ py_str password ]
      else [])
  ++ (if String.eqb service "esxi" then
        [ "ESXi Authorization[entry]:ESXi login " ++ "name:|||"
            ++ py_str username;
          "ESXi Authorization[password]:" ++ "ESXi login password:|||"
            ++ py_str password ]
      else [])
  ++ (if String.eqb service "snmp" then
        let community := get_default cred_params "community" (VStr "") in
        let auth_algorithm :=
          get_default cred_params "auth_algorithm" (VStr "") in
        let privacy_password :=
          get_default cred_params "privacy_password" (VStr "") in
        let privacy_algorithm :=
          get_default cred_params "privacy_algorithm" (VStr "") in
        [ "SNMP Authorization[password]:" ++ "SNMP Community:"
            ++ py_str community;
          "SNMP Authorization[entry]:" ++ "SNMPv3 Username:"
            ++ py_str username;
          "SNMP Authorization[password]:" ++ "SNMPv3 Password:"
            ++ py_str password;
          "SNMP Authorization[radio]:" ++ "SNMPv3 Authentication Algorithm:"
            ++ py_str auth_algorithm;
          "SNMP Authorization[password]:" ++ "SNMPv3 Privacy Password:"
            ++ py_str privacy_password;
          "SNMP Authorization[radio]:" ++ "SNMPv3 Privacy Algorithm:"
            ++ py_str privacy_algorithm ]
      else []).

(** The loop: [service] is the key of the item, [cred_params] is read
    back with [credentials.get(service)]; calling [.get] on a missing
    value ([None]) would be an [AttributeError]. *)
Fixpoint credentials_loop (credentials : dict (dict pyval))
  (items : list (string * dict pyval)) (cred_prefs_list : list string)
  : result (list string) :=
  match items with
  | [] => Ok cred_prefs_list
  | (service, _) :: rest =>
      match get credentials service with
      | None => Raise AttributeError
      | Some cred_params =>
          credentials_loop credentials rest
            (cred_prefs_list ++ credential_prefs service cred_params)
      end
  end.

Definition build_credentials_as_prefs (credentials : dict (dict pyval))
  : result (list string) :=
  credentials_loop credentials credentials [].

(** A preference record is [name|||value]. *)
Definition is_pref_record (s : string) : bool := contains "|||" s.

(* ================================================================= *)
(** ** Scan Execution Controller: [exec_scan] *)

(** The ['type'] column of [OSPD_PARAMS]. *)
Definition OSPD_PARAMS : dict string :=
  [ ("auto_enable_dependencies", "boolean"); ("cgi_path", "string");
    ("checks_read_timeout", "integer"); ("drop_privileges", "boolean");
    ("network_scan", "boolean"); ("non_simult_ports", "string");
    ("open_sock_max_attempts", "integer"); ("timeout_retry", "integer");
    ("optimize_test", "integer"); ("plugins_timeout", "integer");
    ("report_host_details", "boolean"); ("safe_checks", "boolean");
    ("scanner_plugins_timeout", "integer");
    ("time_between_request", "integer"); ("unscanned_closed", "boolean");
    ("unscanned_closed_udp", "boolean"); ("use_mac_addr", "boolean");
    ("vhosts", "string"); ("vhosts_ip", "string") ].

(** [value == 1]. *)
Definition eq_one (v : pyval) : bool :=
  match v with
  | VInt z => Z.eqb z 1
  | VBool b => b
  | _ => false
  end.

Definition _from_bool_to_str (value : pyval) : string :=
  if eq_one value then "yes" else "no".

(** One scan option as a preference record. *)
Definition option_pref (kv : string * pyval) : string :=
  let '(key, value) := kv in
  let item_type := get_default OSPD_PARAMS key "" in
  let val := if String.eqb item_type "boolean" then _from_bool_to_str value
             else py_str value in
  key ++ "|||" ++ val.

(** What [get_scan_vts] hands back: the empty string, or a selection. *)
Inductive scan_vts : Type :=
| EmptyStr
| Selected (sel : vt_selection).

(** What one sweep of the polling loop finds in a KB listed under
    [internal/dbindex]: its index, its [internal/scan_id], whether
    forwarding its timestamps, results and status raises, and whether its
    scan is marked finished. *)
Record kb_view : Type := mk_kb_view {
  kb_index : Z;
  kb_scan_id : option string;
  kb_pull_error : option exn;
  kb_finished : bool
}.

(** One iteration of the polling loop: whether the stop marker is read,
    and the KBs in use. *)
Record tick : Type := mk_tick {
  stop_all : bool;
  dbs : list kb_view
}.

(** What a run of [exec_scan] reads from its collaborators.  [spawn] is
    the pid of the engine process or [None] when [Popen] raises
    [OSError]; [still_new] is how often the readiness loop reads ['new']
    ([None]: for ever); [ticks] are the iterations of the polling loop
    that the run is given. *)
Record scan_env : Type := mk_scan_env {
  scan_ports : pyval;
  scan_options : dict pyval;
  scan_credentials : dict (dict pyval);
  get_scan_vts : scan_vts;
  db_index : Z;
  db_address : string;
  uuid4 : string;
  spawn : option Z;
  still_new : option nat;
  ticks : list tick
}.

(** The [return] statements of [exec_scan]. *)
Inductive exit : Type :=
| PendingFeedUpdate
| NoPortList
| NoVtsToRun
| SpawnFailed
| Stopped
| Finished.

(** The value returned at each of them. *)
Definition return_value (x : exit) : pyval :=
  match x with
  | PendingFeedUpdate | NoPortList | NoVtsToRun => VInt 2
  | SpawnFailed => VBool false
  | Stopped | Finished => VInt 1
  end.

Definition scanprefs (openvas_scan_id : string) : string :=
  "internal/" ++ openvas_scan_id ++ "/scanprefs".

(** [self.main_kbindex], read as a number. *)
Definition self_main_kbindex : M Z :=
  index <- gets main_kbindex ;;
  match index with
  | Some i => ret i
  | None => raise TypeError
  end.

(** [for elem in nvts_params]. *)
Fixpoint add_params (openvas_scan_id : string)
  (nvts_params : list (string * string)) : M unit :=
  match nvts_params with
  | [] => ret tt
  | elem :: rest =>
      emit (AddSingleItem (scanprefs openvas_scan_id)
              [VStr (fst elem ++ "|||" ++ snd elem)]) ;;
      add_params openvas_scan_id rest
  end.

(** [get_openvas_timestamp_scan_host], [get_openvas_result] and
    [get_openvas_status] on the selected KB: they forward records to the
    outer service layer and touch no index; an exception they raise is
    not caught. *)
Definition pull_host (view : kb_view) : M unit :=
  emit (PullHost (kb_index view)) ;;
  match kb_pull_error view with
  | Some e => raise e
  | None => ret tt
  end.

(** [for i in list(dbs)]: the value of [no_id_found] after the sweep. *)
Fixpoint sweep (openvas_scan_id : string) (views : list kb_view)
  (no_id_found : bool) : M bool :=
  match views with
  | [] => ret no_id_found
  | view :: rest =>
      let i := kb_index view in
      main <- self_main_kbindex ;;
      if Z.eqb i main then sweep openvas_scan_id rest no_id_found
      else
        emit (SelectKb i true) ;;
        match kb_scan_id view with
        | None | Some EmptyString => sweep openvas_scan_id rest no_id_found
        | Some id_aux =>
            if String.eqb id_aux openvas_scan_id then
              pull_host view ;;
              (if kb_finished view then
                 emit (SelectKb main false) ;;
                 emit (RemoveListItem "internal/dbindex" i) ;;
                 emit (ReleaseDb i)
               else ret tt) ;;
              sweep openvas_scan_id rest false
            else sweep openvas_scan_id rest no_id_found
        end
  end.

(** [while True], one iteration per given tick, up to the [return] in
    the loop or the release after its [break]; [None] when the ticks run
    out and the loop is still going. *)
Fixpoint poll (openvas_scan_id : string) (given : list tick)
  (no_id_found : bool) : M (option exit) :=
  match given with
  | [] => ret None
  | t :: rest =>
      emit (Sleep 3) ;;
      main <- self_main_kbindex ;;
      emit (KbConnect main) ;;
      if stop_all t then ret (Some Stopped)
      else
        emit (KbConnect main) ;;
        no_id_found <- sweep openvas_scan_id (dbs t) no_id_found ;;
        if no_id_found then
          main <- self_main_kbindex ;;
          emit (ReleaseDb main) ;;
          ret (Some Finished)
        else poll openvas_scan_id rest true
  end.

(** [while ... == 'new': time.sleep(1)]. *)
Fixpoint wait_while_new (n : nat) : M unit :=
  match n with
  | O => ret tt
  | S k => emit (Sleep 1) ;; wait_while_new k
  end.

(** What [stop_scan] reads in one KB: the engine scan id stored under
    [internal/<global_scan_id>/globalscanid], the item [internal/ovas_pid]
    and, when a process of that pid exists, how it prints. *)
Record stop_view : Type := mk_stop_view {
  globalscanid : option string;
  ovas_pid : pyval;
  process : option string
}.

(** [for current_kbi in range(0, self.openvas_db.max_dbindex)], one view
    per KB. *)
Fixpoint stop_loop (current_kbi : Z) (views : list stop_view) : M unit :=
  match views with
  | [] => ret tt
  | view :: rest =>
      emit (SelectKb current_kbi true) ;;
      match globalscanid view with
      | None | Some EmptyString => stop_loop (current_kbi + 1) rest
      | Some scan_id =>
          emit (SetSingleItem ("internal/" ++ scan_id) [VStr "stop_all"]) ;;
          pid <- lift (py_int (ovas_pid view)) ;;
          parent <- match process view with
                    | Some parent => ret parent
                    | None => raise NoSuchProcess
                    end ;;
          emit (ReleaseDb current_kbi) ;;
          emit (SendSignal pid "SIGUSR2") ;;
          emit (LogDebug ("Stopping process: " ++ parent)) ;;
          stop_loop (current_kbi + 1) rest
      end
  end.

(** [stop_scan]: the KB that holds the scan is marked, released, and its
    engine process signalled. *)
Definition stop_scan (views : list stop_view) : M unit :=
  stop_loop 0 views.

(** ['%s' % v] for a string or [None]. *)
Definition format_option (v : option string) : string :=
  match v with Some s => s | None => "None" end.

Definition pending_feed_message : string :=
  "It was not possible to start the scan,"
  ++ "because a pending feed update. Please try later".

Definition exec_scan (env : scan_env) (nvti : nvticache)
  (scan_id target : string) : M (option exit) :=
  flag <- gets pending_feed ;;
  if flag_set flag then
    emit (LogInfo (scan_id ++ ": There is a pending feed update. "
                     ++ "The scan can not be started.")) ;;
    emit (AddScanError scan_id "" target pending_feed_message) ;;
    ret (Some PendingFeedUpdate)
  else
  let ports := scan_ports env in
  if negb (truthy ports) then
    emit (AddScanError scan_id "" target "No port list defined.") ;;
    ret (Some NoPortList)
  else
  (* Get scan options *)
  let options := scan_options env in
  emit (KbNew (db_index env)) ;;
  set_main_kbindex (db_index env) ;;
  let openvas_scan_id := uuid4 env in
  emit (AddSingleItem ("internal/" ++ openvas_scan_id) [VStr "new"]) ;;
  emit (AddSingleItem ("internal/" ++ scan_id ++ "/globalscanid")
          [VStr openvas_scan_id]) ;;
  (* Set scan preferences *)
  let prefs_val := map option_pref options in
  emit (AddSingleItem (scanprefs openvas_scan_id) (map VStr prefs_val)) ;;
  (* Store main_kbindex as global preference *)
  main <- self_main_kbindex ;;
  emit (AddSingleItem (scanprefs openvas_scan_id)
          [VStr ("ov_maindbid|||" ++ string_of_Z main)]) ;;
  (* Set target *)
  emit (AddSingleItem (scanprefs openvas_scan_id)
          [VStr ("TARGET|||" ++ target)]) ;;
  (* Set port range *)
  emit (AddSingleItem (scanprefs openvas_scan_id)
          [VStr ("port_range|||" ++ py_str ports)]) ;;
  (* Set credentials *)
  let credentials := scan_credentials env in
  match credentials with
  | [] => ret tt
  | _ =>
      cred_prefs <- lift (build_credentials_as_prefs credentials) ;;
      emit (AddSingleItem (scanprefs openvas_scan_id) (map VStr cred_prefs))
  end ;;
  (* Set plugins to run *)
  match get_scan_vts env with
  | EmptyStr =>
      main <- self_main_kbindex ;;
      emit (ReleaseDb main) ;;
      emit (AddScanError scan_id "" target "No VTS to run.") ;;
      ret (Some NoVtsToRun)
  | Selected nvts =>
      '(nvts_list, nvts_params) <- process_vts nvts ;;
      emit (AddSingleItem (scanprefs openvas_scan_id)
              [VStr ("plugin_set|||" ++ String.concat ";" nvts_list)]) ;;
      add_params openvas_scan_id nvts_params ;;
      emit (AddScanLog scan_id target "OpenVAS summary"
              ("An OpenVAS Scanner was started for " ++ target ++ ".")) ;;
      emit (AddScanLog scan_id target "KB location Found"
              ("KB location path was found: " ++ db_address env ++ ".")) ;;
      emit (AddScanLog scan_id target "Feed Update"
              ("Feed version: " ++ format_option (get_feed_version nvti)
                 ++ ".")) ;;
      let cmd := ["openvassd"; "--scan-start"; openvas_scan_id] in
      emit (Popen cmd (spawn env)) ;;
      match spawn env with
      | None => ret (Some SpawnFailed)
      | Some ovas_pid =>
          emit (LogDebug ("pid = " ++ string_of_Z ovas_pid)) ;;
          emit (AddSingleItem "internal/ovas_pid" [VInt ovas_pid]) ;;
          (* Wait until the scanner starts and loads all the preferences. *)
          match still_new env with
          | None => ret None
          | Some n =>
              wait_while_new n ;;
              poll openvas_scan_id (ticks env) false
          end
      end
  end.

(** The number of times an index is released in a trace. *)
Definition is_release (index : Z) (e : event) : bool :=
  match e with ReleaseDb i => Z.eqb i index | _ => false end.

Definition releases (index : Z) (trace : list event) : nat :=
  length (filter (is_release index) trace).

Definition is_popen (e : event) : bool :=
  match e with Popen _ _ => true | _ => false end.

Definition is_kb_new (e : event) : bool :=
  match e with KbNew _ => true | _ => false end.

Definition is_scan_error (e : event) : bool :=
  match e with AddScanError _ _ _ _ => true | _ => false end.

Definition is_set_pending (e : event) : bool :=
  match e with SetPendingFeed true => true | _ => false end.

(** A daemon before any scan, with a given table and flag. *)
Definition idle_daemon (table : dict vt) (flag : option bool) : daemon :=
  mk_daemon table None flag None [].

(* ================================================================= *)
(** ** Notions used in the statements and proofs *)

(** [w'] is [w] after some more events, all of them satisfying [Q], and
    no change of the daemon. *)
Definition emits_only (Q : event -> bool) (w w' : world) : Prop :=
  fst w' = fst w /\
  exists l, snd w' = (snd w ++ l)%list /\ forallb Q l = true.

Definition not_release (index : Z) (e : event) : bool :=
  negb (is_release index e).

Definition is_log_debug (e : event) : bool :=
  match e with LogDebug _ => true | _ => false end.

(** [m], run from a daemon satisfying [P], leaves the daemon as it is
    and emits only events satisfying [Q]. *)
Definition quiet (Q : event -> bool) (P : daemon -> Prop) {A} (m : M A)
  : Prop :=
  forall w r w', P (fst w) -> m w = (r, w') -> emits_only Q w w'.

Definition has_main (main : Z) (d : daemon) : Prop :=
  main_kbindex d = Some main.

(** [d] is [md] for the keys that were not popped. *)
Definition tracks {V} (md d : dict V) (popped : list string) : Prop :=
  forall k, existsb (String.eqb k) popped = false -> mem d k = mem md k.

(** [load_vts] did not get to its last lines: the cached feed version
    and the pending flag are as before. *)
Definition same_feed_state (w w' : world) : Prop :=
  vts_version (fst w') = vts_version (fst w) /\
  pending_feed (fst w') = pending_feed (fst w).

(** No event at all. *)
Definition silent (e : event) : bool := false.

(** The fields [load_vts] pops without a test. *)
Definition well_formed (md : dict string) : Prop :=
  mem md "name" = true /\
  mem md "creation_date" = true /\
  mem md "last_modification" = true /\
  (mem md "severity_base_vector" = true \/ mem md "cvss_base_vector" = true).

(* ================================================================= *)
(** ** Concrete inputs used by the examples *)

Definition snmp_credentials : dict (dict pyval) :=
  [ ("snmp", [ ("type", VStr "snmp"); ("username", VStr "monitor");
               ("password", VStr "secret"); ("community", VStr "public");
               ("auth_algorithm", VStr "sha1");
               ("privacy_password", VStr "hidden");
               ("privacy_algorithm", VStr "aes") ]) ].

Definition ssh_up_credentials : dict (dict pyval) :=
  [ ("ssh", [ ("type", VStr "up"); ("username", VStr "root");
              ("password", VStr "x") ]) ].

Definition unknown_credentials : dict (dict pyval) :=
  [ ("ftp", [ ("type", VStr "up"); ("username", VStr "anonymous") ]);
    ("telnet", [ ("password", VStr "guest") ]) ].

Definition mixed_credentials : dict (dict pyval) :=
  ("ftp", [ ("type", VStr "up"); ("username", VStr "anonymous") ])
  :: ssh_up_credentials ++ [ ("telnet", [ ("password", VStr "guest") ]) ].

Definition example_oid : string := "1.3.6.1.4.1.25623.1.0.100315".

Definition example_vt : vt :=
  mk_vt "Ping Host"
    [ ("1", mk_vt_param "checkbox" "Use nmap" "yes");
      ("timeout", mk_vt_param "entry" "Timeout" "320") ]
    [] [ ("family", "Port scanners") ] "1257430740" "1541066564" []
    (Some "Checks whether the host answers.") None None None None None
    None (Some "remote_banner") None
    [ ("severity_base_vector", "AV:N/AC:L/Au:N/C:N/I:N/A:N");
      ("severity_type", "cvss_base_v2") ].

Definition example_table : dict vt := [ (example_oid, example_vt) ].

Definition example_uuid : string := "5f1d0c1e-7a41-4a7e-9d0b-2f6c1f0a9b11".

(** A cache whose store holds no VT. *)
Definition empty_nvti (version : option string) : nvticache :=
  mk_nvticache [] (fun _ => []) (fun _ => []) (fun _ => []) version.

(** A scan of one host with ports, one option, no credentials; KB 1 is
    handed out and the engine leaves ['new'] after one second. *)
Definition example_env (selection : scan_vts) (pid : option Z)
  (given : list tick) : scan_env :=
  mk_scan_env (VStr "80,443") [ ("safe_checks", VInt 1) ] [] selection
    1 "/run/redis/redis.sock" example_uuid pid (Some 1%nat) given.

Definition select_example_oid : scan_vts :=
  Selected (mk_vt_selection (Some []) [ (example_oid, []) ]).

(** A group filter for a family no cached VT belongs to. *)
Definition select_unmatched_family : scan_vts :=
  Selected (mk_vt_selection (Some [ "family=Windows" ]) []).

(** A sweep that finds the main KB and one KB of this scan, finished. *)
Definition busy_tick : tick :=
  mk_tick false
    [ mk_kb_view 1 None None false;
      mk_kb_view 2 (Some example_uuid) None true ].

Definition idle_tick : tick := mk_tick false [].

Definition stop_tick : tick := mk_tick true [].

Definition broken_oid : string := "1.3.6.1.4.1.25623.1.0.10267".

Definition example_metadata (oid : string) : dict string :=
  if String.eqb oid example_oid then
    [ ("name", "Ping Host"); ("creation_date", "1257430740");
      ("last_modification", "1541066564"); ("family", "Port scanners");
      ("summary", "Checks whether the host answers.");
      ("qod_type", "remote_banner");
      ("cvss_base_vector", "AV:N/AC:L/Au:N/C:N/I:N/A:N") ]
  else if String.eqb oid broken_oid then
    [ ("name", "SSH Server type and version"); ("creation_date", "1257430740");
      ("last_modification", "1541066564"); ("family", "Service detection");
      ("severity_base_vector", "AV:N/AC:L/Au:N/C:N/I:N/A:N");
      ("severity_type", "cvss_base_v2");
      ("dependencies", "find_service.nasl, ping_host.nasl") ]
  else [].

(** An OID pattern for the examples. *)
Definition openvas_oid (oid : string) : bool :=
  String.prefix "1.3.6.1.4.1.25623." oid.

(** A feed of one VT that loads. *)
Definition sound_nvti : nvticache :=
  mk_nvticache [ ("filename:ping_host.nasl", example_oid) ]
    (fun _ => []) (fun _ => []) example_metadata (Some "201811011500").

(** A feed of two VTs, the second with a ['severity_type'] field. *)
Definition broken_nvti : nvticache :=
  mk_nvticache
    [ ("filename:ping_host.nasl", example_oid);
      ("filename:ssh_detect.nasl", broken_oid) ]
    (fun _ => []) (fun _ => []) example_metadata (Some "201811011500").

(** A feed of one VT whose metadata has ['severity_type'] and no
    ['name']. *)
Definition nameless_nvti : nvticache :=
  mk_nvticache [ ("filename:ssh_detect.nasl", broken_oid) ]
    (fun _ => []) (fun _ => [])
    (fun _ => [ ("creation_date", "1257430740");
                ("last_modification", "1541066564");
                ("severity_base_vector", "AV:N/AC:L/Au:N/C:N/I:N/A:N");
                ("severity_type", "cvss_base_v2") ])
    (Some "201811011500").

(** A daemon with one finished and one running scan process and a
    table loaded from an older feed. *)
Definition running_daemon : daemon :=
  mk_daemon example_table (Some "201810010800") None None
    [ ("scan-0", false); ("scan-1", true) ].

(** The example VT selected with a [timeout] that is no number. *)
Definition timeout_selection : vt_selection :=
  mk_vt_selection (Some []) [ (example_oid, [ ("timeout", VStr "soon") ]) ].

(** The example VT selected through its family and by OID, with a
    checkbox parameter that is neither ["yes"] nor ["no"]. *)
Definition checkbox_selection : vt_selection :=
  mk_vt_selection (Some [ "family=Port scanners" ])
    [ (example_oid, [ ("1", VStr "maybe") ]) ].

(* ================================================================= *)
(** ** Progress reporting: [update_progress] *)

(** *** Python floats

    A Python [float] is an IEEE 754 binary64 number: 53 bits of
    precision, exponents below 1024, operations rounded to nearest,
    ties to even.  The operations are those of the standard library's
    specification of floating-point arithmetic. *)

Definition float_prec : Z := 53.

Definition float_emax : Z := 1024.

(** The float of an integer, as in [x * 100] or [x / n] where [x] is a
    float: the nearest float.  Python raises [OverflowError] where the
    nearest float would be infinite, from [2 ** 1024 - 2 ** 970] on;
    nothing below converts an integer of that size. *)
Definition float_of_int (z : Z) : spec_float :=
  binary_normalize float_prec float_emax z 0 false.

(** [x == 0] for a float [x]. *)
Definition float_is_zero (x : spec_float) : bool :=
  SFeqb x (float_of_int 0).

(** [x / y]: a zero divisor raises. *)
Definition float_truediv (x y : spec_float) : result spec_float :=
  if float_is_zero y then Raise ZeroDivisionError
  else Ok (SFdiv float_prec float_emax x y).

(** [x * y]. *)
Definition float_mul (x y : spec_float) : spec_float :=
  SFmul float_prec float_emax x y.

(** [sum(values)] for floats: the additions start from the integer
    [0]. *)
Definition py_sum (values : list spec_float) : spec_float :=
  fold_left (SFadd float_prec float_emax) values (float_of_int 0).



(** [d.values()]. *)
Definition dict_values {V} (d : dict V) : list V := map snd d.

(** [len(v)] where [v] is a list or [None]. *)
Definition len {A} (v : option (list A)) : result Z :=
  match v with
  | Some l => Ok (Z.of_nat (length l))
  | None => Raise TypeError
  end.

Section UpdateProgress.

(** [float(s)] for a string [s]: the float it denotes, or the error
    raised. *)
Variable float : string -> result spec_float.

(** [ospd.misc.target_str_to_list]: the hosts of a target string, or
    [None] when the string is no valid target. *)
Variable target_str_to_list : string -> option (list string).

(** [update_progress(scan_id, target, msg)].  A message that does not
    split in two at ['/'] is dropped (the [ValueError] of the unpacking
    is caught), and so is one whose total is zero; the dictionary of
    host progress is local to the call. *)
Definition update_progress (scan_id target msg : string) : M unit :=
  let host_progress_dict : dict spec_float := [] in
  match split "/" msg with
  | [launched; total] =>
      zero_total <- lift (float total) ;;
      if float_is_zero zero_total then ret tt
      else
        numerator <- lift (float launched) ;;
        denominator <- lift (float total) ;;
        ratio <- lift (float_truediv numerator denominator) ;;
        let host_prog := float_mul ratio (float_of_int 100) in
        let host_progress_dict := setitem host_progress_dict target host_prog in
        total_host <- lift (len (target_str_to_list target)) ;;
        target_progress <-
          lift (float_truediv (py_sum (dict_values host_progress_dict))
                  (float_of_int total_host)) ;;
        emit (SetScanTargetProgress scan_id target target_progress)
  | _ => ret tt
  end.

End UpdateProgress.

(** [float(s)] on an unsigned decimal numeral of ASCII digits, the form
    of a count of plugins: the nearest float of the integer.  The other
    strings [float] reads (signs, fractions, exponents, [inf], [nan])
    are not read here; this instance serves the examples only. *)
Definition float_of_count (s : string) : result spec_float :=
  match digits_val 0 false (int_strip (list_ascii_of_string s)) with
  | Some z => Ok (float_of_int z)
  | None => Raise ValueError
  end.

(** The hosts of a target that is a list of host names separated by
    commas; an instance for the examples. *)
Definition hosts_by_comma (target : string) : option (list string) :=
  Some (split "," target).

(* ================================================================= *)
(** ** Scan Execution Controller: the anatomy of a run *)

(** The events of [exec_scan] from the allocation of the KB to the
    credentials. *)
Definition allocation_events (env : scan_env) (scan_id target : string)
  : list event :=
  [ KbNew (db_index env);
    AddSingleItem ("internal/" ++ uuid4 env) [VStr "new"];
    AddSingleItem ("internal/" ++ scan_id ++ "/globalscanid")
      [VStr (uuid4 env)];
    AddSingleItem (scanprefs (uuid4 env))
      (map VStr (map option_pref (scan_options env)));
    AddSingleItem (scanprefs (uuid4 env))
      [VStr ("ov_maindbid|||" ++ string_of_Z (db_index env))];
    AddSingleItem (scanprefs (uuid4 env)) [VStr ("TARGET|||" ++ target)];
    AddSingleItem (scanprefs (uuid4 env))
      [VStr ("port_range|||" ++ py_str (scan_ports env))] ]
  ++ match scan_credentials env with
     | [] => []
     | _ :: _ =>
         match build_credentials_as_prefs (scan_credentials env) with
         | Ok cred_prefs =>
             [AddSingleItem (scanprefs (uuid4 env)) (map VStr cred_prefs)]
         | Raise _ => []
         end
     end.

(** The events from the list of plugins to the last log before the
    spawn. *)
Definition plugin_events (env : scan_env) (nvti : nvticache)
  (scan_id target : string) (nvts_list : list string)
  (nvts_params : list (string * string)) : list event :=
  AddSingleItem (scanprefs (uuid4 env))
    [VStr ("plugin_set|||" ++ String.concat ";" nvts_list)]
  :: map (fun elem => AddSingleItem (scanprefs (uuid4 env))
                        [VStr (fst elem ++ "|||" ++ snd elem)]) nvts_params
  ++ [ AddScanLog scan_id target "OpenVAS summary"
         ("An OpenVAS Scanner was started for " ++ target ++ ".");
       AddScanLog scan_id target "KB location Found"
         ("KB location path was found: " ++ db_address env ++ ".");
       AddScanLog scan_id target "Feed Update"
         ("Feed version: " ++ format_option (get_feed_version nvti) ++ ".") ].

(** The events of the launch: the plugin preferences, the logs and the
    spawn of the engine. *)
Definition launch_events (env : scan_env) (nvti : nvticache)
  (scan_id target : string) (nvts_list : list string)
  (nvts_params : list (string * string)) : list event :=
  plugin_events env nvti scan_id target nvts_list nvts_params
  ++ [ Popen ["openvassd"; "--scan-start"; uuid4 env] (spawn env) ].

(** The daemon after [self.main_kbindex = i]. *)
Definition with_main (d : daemon) (i : Z) : daemon :=
  mk_daemon (vts d) (vts_version d) (pending_feed d) (Some i)
    (scan_processes d).

(** [r] is the normal finish. *)
Definition is_finished (r : result (option exit)) : bool :=
  match r with Ok (Some Finished) => true | _ => false end.

(** Some view shows KB [i] attached to the scan [id] and finished. *)
Definition own_finished (id : string) (views : list kb_view) (i : Z) : bool :=
  existsb (fun view => Z.eqb (kb_index view) i
                       && option_string_eqb (kb_scan_id view) (Some id)
                       && kb_finished view) views.

(** Some view shows KB [i] attached to the scan [id]. *)
Definition own_attached (id : string) (views : list kb_view) (i : Z) : bool :=
  existsb (fun view => Z.eqb (kb_index view) i
                       && option_string_eqb (kb_scan_id view) (Some id))
    views.

(** The events of a sweep. *)
Definition sweep_event (main : Z) (id : string) (views : list kb_view)
  (e : event) : bool :=
  match e with
  | SelectKb _ _ | RemoveListItem _ _ => true
  | PullHost i => negb (Z.eqb i main) && own_attached id views i
  | ReleaseDb i => negb (Z.eqb i main) && own_finished id views i
  | _ => false
  end.

(** The events of the polling loop. *)
Definition poll_event (main : Z) (id : string) (given : list tick)
  (e : event) : bool :=
  match e with
  | Sleep _ | KbConnect _ | SelectKb _ _ | RemoveListItem _ _ => true
  | PullHost i =>
      negb (Z.eqb i main)
      && existsb (fun t => negb (stop_all t) && own_attached id (dbs t) i)
           given
  | ReleaseDb i =>
      Z.eqb i main
      || existsb (fun t => negb (stop_all t) && own_finished id (dbs t) i)
           given
  | _ => false
  end.

(** A KB is released. *)
Definition is_any_release (e : event) : bool :=
  match e with ReleaseDb _ => true | _ => false end.

(** [time.sleep(3)], the interval of the polling loop. *)
Definition is_poll_sleep (e : event) : bool :=
  match e with Sleep 3 => true | _ => false end.

(** The polling intervals slept in a trace. *)
Definition poll_sleeps (trace : list event) : nat :=
  length (filter is_poll_sleep trace).

(** Results are pulled from a KB. *)
Definition is_pull (e : event) : bool :=
  match e with PullHost _ => true | _ => false end.

(* ================================================================= *)
(** ** Scan Preference Encoder: selection in closed form *)

(** The family a cached VT is filed under: [self.vts[oid]['custom']
    .get('family')]. *)
Definition family_of (table : dict vt) (oid : string) : option string :=
  match get table oid with
  | Some v => get (custom v) "family"
  | None => None
  end.

(** A filter that unpacks into [key, value]. *)
Definition is_key_value (elem : string) : bool :=
  match split "=" elem with
  | [_; _] => true
  | _ => false
  end.

(** What one filter selects: for [family=value], the OIDs of the table,
    in the order of the table, whose family is [value]. *)
Definition group_of (table : dict vt) (elem : string) : list string :=
  match split "=" elem with
  | [key; value] =>
      if String.eqb key "family"
      then filter (fun oid => option_string_eqb (family_of table oid)
                                (Some value)) (keys table)
      else []
  | _ => []
  end.

(** The records [process_vts] is to append for one value given to a
    parameter of [vtid]. *)
Definition declared_record (table : dict vt) (vtid : string)
  (pv : string * pyval) : list (string * string) :=
  match get table vtid with
  | Some entry =>
      match get (vt_params entry) (fst pv) with
      | Some decl =>
          if String.eqb (param_type_of decl) "" then []
          else [param_record (name entry) (param_type_of decl)
                  (fst pv) (snd pv)]
      | None => []
      end
  | None => []
  end.

(** The records for the values given to the parameters of one selected
    VT. *)
Definition declared_records (table : dict vt) (s : string * dict pyval)
  : list (string * string) :=
  flat_map (declared_record table (fst s)) (snd s).

(** The values [check_param_type] cannot check: [None] given for a
    declared parameter that is checked as an integer. *)
Definition unchecked_value (table : dict vt) (vtid : string)
  (pv : string * pyval) : bool :=
  match get table vtid with
  | Some entry =>
      match get (vt_params entry) (fst pv) with
      | Some decl =>
          negb (String.eqb (param_type_of decl) "")
          && String.eqb (type_aux_of (fst pv) (param_type_of decl)) "integer"
          && match snd pv with VNone => true | _ => false end
      | None => false
      end
  | None => false
  end.

(** The first error of the loop over the selected VTs, if any. *)
Fixpoint vts_failure (table : dict vt) (items : list (string * dict pyval))
  : option exn :=
  match items with
  | [] => None
  | (vtid, ps) :: rest =>
      match get table vtid with
      | None => Some (KeyError vtid)
      | Some _ =>
          if existsb (unchecked_value table vtid) ps then Some TypeError
          else vts_failure table rest
      end
  end.

(* ================================================================= *)
(** ** Scan Execution Controller: preferences and spawn *)

(** A scan with credentials, of the example VT selected through its
    family and by OID. *)
Definition credentialed_env : scan_env :=
  mk_scan_env (VStr "80,443") [ ("safe_checks", VInt 1) ] ssh_up_credentials
    (Selected checkbox_selection) 1 "/run/redis/redis.sock" example_uuid
    (Some 4711%Z) (Some 1%nat) [busy_tick; idle_tick].

(* ================================================================= *)
(** ** VT Metadata Cache: the stored entry *)

(** [md] without the items whose key is in [popped]. *)
Definition kept {V} (md : dict V) (popped : list string) : dict V :=
  filter (fun kv => negb (existsb (String.eqb (fst kv)) popped)) md.

(** The metadata fields that [load_vts] takes out of [_custom], for the
    metadata [md] of a VT. *)
Definition extracted_keys (md : dict string) : list string :=
  ["name"; "creation_date"; "last_modification"; "summary"; "impact";
   "affected"; "insight"; "solution"]
  ++ (if mem md "solution" then ["solution_type"] else [])
  ++ ["vuldetect"; "qod_type"]
  ++ (if mem md "qod_type" then [] else ["qod"])
  ++ (if mem md "severity_base_vector" then ["severity_base_vector"]
      else ["cvss_base_vector"])
  ++ ["severity_origin"; "dependencies"].

(** The vector [load_vts] takes for the severity. *)
Definition severity_vector_of (md : dict string) : option string :=
  if mem md "severity_base_vector" then get md "severity_base_vector"
  else get md "cvss_base_vector".

(** The entry that [load_vts] hands to [add_vt] for [vt_id], in terms of
    the metadata [md] of the VT in the cache: the fields it takes out,
    the severities it builds, the dependencies it resolves, and the rest
    of the metadata, which stays in [custom] in the order of the cache. *)
Definition stored_entry (nvti : nvticache) (oids : dict string)
  (vt_id : string) (entry : vt) : Prop :=
  let md := get_nvt_metadata nvti vt_id in
  (get md "name" = Some (name entry) /\
   get md "creation_date" = Some (vt_creation_time entry) /\
   get md "last_modification" = Some (vt_modification_time entry) /\
   vt_params entry = get_nvt_params nvti vt_id /\
   vt_refs entry = get_nvt_refs nvti vt_id) /\
  (summary entry = get md "summary" /\
   impact entry = get md "impact" /\
   affected entry = get md "affected" /\
   insight entry = get md "insight" /\
   solution entry = get md "solution" /\
   detection entry = get md "vuldetect" /\
   qod_t entry = get md "qod_type") /\
  solution_t entry
  = (if mem md "solution" then get md "solution_type" else None) /\
  qod_v entry = (if mem md "qod_type" then None else get md "qod") /\
  (exists vector,
     severity_vector_of md = Some vector /\
     severities entry =
     ([("severity_base_vector", vector); ("severity_type", "cvss_base_v2")]
      ++ match get md "severity_origin" with
         | Some origin => [("severity_origin", origin)]
         | None => []
         end)%list) /\
  vt_dependencies entry
  = match get md "dependencies" with
    | Some deps => map (fun dep => get oids ("filename:" ++ dep))
                       (split ", " deps)
    | None => []
    end /\
  mem md "severity_type" = false /\
  custom entry = kept md (extracted_keys md).

(* ================================================================= *)
(** ** VT Metadata Cache: [check_feed] *)

(** The daemon after [self.vts = dict()]. *)
Definition without_vts (d : daemon) : daemon :=
  mk_daemon [] (vts_version d) (pending_feed d) (main_kbindex d)
    (scan_processes d).

(** A feed update is due: the flag is set or the cached version is not
    the version of the feed. *)
Definition update_due (nvti : nvticache) (d : daemon) : bool :=
  flag_set (pending_feed d)
  || negb (option_string_eqb (vts_version d) (get_feed_version nvti)).

(* ================================================================= *)
(** ** Scan Execution Controller: [stop_scan] *)

(** The KB holds the scan: [if scan_id] in [stop_scan]. *)
Definition holds_scan (view : stop_view) : bool :=
  match globalscanid view with
  | Some (String _ _) => true
  | _ => false
  end.

(** A signal is sent. *)
Definition is_signal (e : event) : bool :=
  match e with SendSignal _ _ => true | _ => false end.

(** A KB is selected. *)
Definition is_select (e : event) : bool :=
  match e with SelectKb _ _ => true | _ => false end.

(** An item is set. *)
Definition is_set_item (e : event) : bool :=
  match e with SetSingleItem _ _ => true | _ => false end.

(** The stop marker [stop_scan] writes in a KB that holds the scan:
    [set_single_item('internal/%s' % scan_id, ['stop_all', ])]. *)
Definition stop_marker (view : stop_view) : event :=
  SetSingleItem
    ("internal/" ++ match globalscanid view with Some id => id | None => "" end)
    [VStr "stop_all"].

(** What one pass of the loop of [stop_scan] does in KB [current_kbi]
    when it completes: the KB is selected and, if it holds the scan, the
    marker is written, the KB released, the engine process signalled and
    the signal logged, in the order of the source. *)
Definition stop_events (current_kbi : Z) (view : stop_view) : list event :=
  SelectKb current_kbi true ::
  (if holds_scan view then
     [stop_marker view;
      ReleaseDb current_kbi;
      SendSignal match py_int (ovas_pid view) with Ok pid => pid | Raise _ => 0%Z end
        "SIGUSR2";
      LogDebug ("Stopping process: "
                  ++ match process view with Some parent => parent | None => "" end)]
   else []).

(** The passes over the KBs from [current_kbi] on. *)
Fixpoint stop_trace (current_kbi : Z) (views : list stop_view) : list event :=
  match views with
  | [] => []
  | view :: rest =>
      (stop_events current_kbi view ++ stop_trace (current_kbi + 1) rest)%list
  end.

(** The view at KB [j] when the views start at KB [k]. *)
Definition view_at (k : Z) (views : list stop_view) (j : Z)
  : option stop_view :=
  if (j <? k)%Z then None else nth_error views (Z.to_nat (j - k)).

(** A KB that holds the scan, with its engine process. *)
Definition holder_view : stop_view :=
  mk_stop_view (Some example_uuid) (VStr "4711")
    (Some "psutil.Process(pid=4711, name='openvassd')").

(** A KB that holds the scan, whose engine process is gone. *)
Definition orphan_view : stop_view :=
  mk_stop_view (Some example_uuid) (VStr "4711") None.

(** A KB of something else. *)
Definition other_view : stop_view := mk_stop_view None VNone None.

(* ================================================================= *)
(** ** Scanner parameters: [parse_param] *)

(** An entry of [OSPD_PARAMS] with the two columns the daemon reads and
    writes; the other columns are never touched. *)
Record ospd_param : Type := mk_ospd_param {
  ospd_type : string;
  ospd_default : pyval
}.

(** [OSPD_PARAMS] as the module defines it. *)
Definition OSPD_PARAMS_initial : dict ospd_param :=
  [ ("auto_enable_dependencies", mk_ospd_param "boolean" (VInt 1));
    ("cgi_path", mk_ospd_param "string" (VStr "/cgi-bin:/scripts"));
    ("checks_read_timeout", mk_ospd_param "integer" (VInt 5));
    ("drop_privileges", mk_ospd_param "boolean" (VInt 0));
    ("network_scan", mk_ospd_param "boolean" (VInt 0));
    ("non_simult_ports",
     mk_ospd_param "string" (VStr "139, 445, 3389, Services/irc"));
    ("open_sock_max_attempts", mk_ospd_param "integer" (VInt 5));
    ("timeout_retry", mk_ospd_param "integer" (VInt 5));
    ("optimize_test", mk_ospd_param "integer" (VInt 5));
    ("plugins_timeout", mk_ospd_param "integer" (VInt 5));
    ("report_host_details", mk_ospd_param "boolean" (VInt 1));
    ("safe_checks", mk_ospd_param "boolean" (VInt 1));
    ("scanner_plugins_timeout", mk_ospd_param "integer" (VInt 36000));
    ("time_between_request", mk_ospd_param "integer" (VInt 0));
    ("unscanned_closed", mk_ospd_param "boolean" (VInt 1));
    ("unscanned_closed_udp", mk_ospd_param "boolean" (VInt 1));
    ("use_mac_addr", mk_ospd_param "boolean" (VInt 0));
    ("vhosts", mk_ospd_param "string" (VStr ""));
    ("vhosts_ip", mk_ospd_param "string" (VStr "")) ].

(** [str.strip(s)]. *)
Definition strip_str (s : string) : string :=
  string_of_list_ascii (strip (list_ascii_of_string s)).

(** [bool_dict] of [parse_param]. *)
Definition bool_dict : dict pyval := [ ("no", VInt 0); ("yes", VInt 1) ].

(** The value a configuration line assigns: the text after the [=],
    stripped, and replaced by [1] or [0] when it is [yes] or [no]. *)
Definition conf_value (text : string) : pyval :=
  let value := strip_str text in
  match get bool_dict value with
  | Some b => b
  | None => VStr value
  end.

(** [elem = conf.split('=')] and [if len(elem) == 2]: the assignment a
    line makes, if any. *)
Definition conf_assignment (conf : string) : option (string * pyval) :=
  match split "=" conf with
  | [name; text] => Some (strip_str name, conf_value text)
  | _ => None
  end.

(** [for conf in result.split('\n')]. *)
Fixpoint conf_loop (confs : list string) (param_list : dict pyval)
  : dict pyval :=
  match confs with
  | [] => param_list
  | conf :: rest =>
      match conf_assignment conf with
      | Some (name, value) => conf_loop rest (setitem param_list name value)
      | None => conf_loop rest param_list
      end
  end.

(** [for elem in OSPD_PARAMS: if elem in param_list: ...]. *)
Definition update_defaults (param_list : dict pyval)
  (params : dict ospd_param) : dict ospd_param :=
  map (fun item =>
         (fst item,
          match get param_list (fst item) with
          | Some value => mk_ospd_param (ospd_type (snd item)) value
          | None => snd item
          end)) params.

(** The line feed. *)
Definition newline : string := String (ascii_of_nat 10) EmptyString.

(** [result.decode('ascii')] succeeds. *)
Definition is_ascii (s : string) : bool :=
  forallb (fun a => (nat_of_ascii a <? 128)%nat) (list_ascii_of_string s).

(** [parse_param] on the output [result] of [openvassd -s]: the new
    [OSPD_PARAMS], or [None] for the [UnicodeDecodeError] of
    [decode('ascii')]. *)
Definition parse_param (result : string) (params : dict ospd_param)
  : option (dict ospd_param) :=
  if is_ascii result
  then Some (update_defaults (conf_loop (split newline result) []) params)
  else None.

(** The line assigns to [name]. *)
Definition assigns (name : string) (conf : string) : bool :=
  match conf_assignment conf with
  | Some (k, _) => String.eqb k name
  | None => false
  end.

(** The value of the last line of [confs] that assigns to [name]. *)
Definition last_assigned (confs : list string) (name : string)
  : option pyval :=
  match find (assigns name) (rev confs) with
  | Some conf => option_map snd (conf_assignment conf)
  | None => None
  end.

(** An output of [openvassd -s]: a setting given twice, a value with an
    [=] in it, and a setting [OSPD_PARAMS] does not have. *)
Definition example_settings : string :=
  "safe_checks = no" ++ newline ++
  "cgi_path = /cgi-bin" ++ newline ++
  "vhosts = a=b" ++ newline ++
  "max_hosts = 30" ++ newline ++
  "cgi_path = /scripts" ++ newline.

(* ================================================================= *)
(** ** Result forwarding: [get_openvas_result] *)

(** Truth value of [d.get(k)] for a string value. *)
Definition nonempty (o : option string) : bool :=
  match o with
  | Some (String _ _) => true
  | _ => false
  end.

(** [get_severity_score]; [cvss] stands for [CVSS.cvss_base_v2_value]
    of the outer framework. *)
Definition get_severity_score {severity : Type} (cvss : string -> severity)
  (table : dict vt) (oid : string) : result (option severity) :=
  match get table oid with
  | None => Raise (KeyError oid)
  | Some v =>
      let severity_type := get (severities v) "severity_type" in
      let severity_vector := get (severities v) "severity_base_vector" in
      if option_string_eqb severity_type (Some "cvss_base_v2")
         && nonempty severity_vector
      then match severity_vector with
           | Some vector => Ok (Some (cvss vector))
           | None => Ok None
           end
      else Ok None
  end.

(** What [get_openvas_result] hands to the outer service layer:
    [add_scan_error], [add_scan_log] with and without port, QoD and test
    id, and [add_scan_alarm]. *)
Inductive report (severity : Type) : Type :=
| ReportError (scan_id host name value port : string)
| ReportLog (scan_id host name value port qod test_id : string)
| ReportHostDetail (scan_id host name value : string)
| ReportAlarm (scan_id host name value port test_id : string)
    (rseverity : option severity) (qod : string).
Arguments ReportError {severity}.
Arguments ReportLog {severity}.
Arguments ReportHostDetail {severity}.
Arguments ReportAlarm {severity}.

(** [msg[i]]. *)
Definition field (msg : list string) (i : nat) : result string :=
  match nth_error msg i with
  | Some s => Ok s
  | None => Raise IndexError
  end.

(** The QoD of the results of a VT; [qod_types] stands for the table
    [QoD_TYPES] of the cache module. *)
Definition result_qod (qod_types : dict string) (v : vt) : result string :=
  if nonempty (qod_t v) then
    match qod_t v with
    | Some t =>
        match get qod_types t with
        | Some q => Ok q
        | None => Raise (KeyError t)
        end
    | None => Ok ""
    end
  else if nonempty (qod_v v) then
    match qod_v v with Some q => Ok q | None => Ok "" end
  else Ok "".

(** Sequencing of computations that may raise. *)
Definition and_then {A B} (r : result A) (f : A -> result B) : result B :=
  match r with
  | Ok a => f a
  | Raise e => Raise e
  end.

(** [self.vts[roid]]. *)
Definition lookup_vt (table : dict vt) (roid : string) : result vt :=
  match get table roid with
  | Some v => Ok v
  | None => Raise (KeyError roid)
  end.

(** The body of the loop of [get_openvas_result] for one result [res]:
    the reports it adds.  The QoD is computed before the tag is looked
    at; the arguments of a report are evaluated in the order written.
    [host_aux] stands for the item [internal/ip], which the loop reads
    and does not write. *)
Definition forward_result {severity : Type} (cvss : string -> severity)
  (qod_types : dict string) (table : dict vt) (scan_id host_aux : string)
  (res : string) : result (list (report severity)) :=
  let msg := split "|||" res in
  and_then (field msg 3) (fun roid =>
  and_then (lookup_vt table roid) (fun v =>
  and_then (result_qod qod_types v) (fun rqod =>
  let rname := name v in
  and_then (field msg 0) (fun tag =>
  and_then
    (if String.eqb tag "ERRMSG" then
       and_then (field msg 4) (fun value =>
       and_then (field msg 2) (fun port =>
       Ok [ReportError scan_id host_aux rname value port]))
     else Ok [])
    (fun errors =>
  and_then
    (if String.eqb tag "LOG" then
       and_then (field msg 4) (fun value =>
       and_then (field msg 2) (fun port =>
       Ok [ReportLog scan_id host_aux rname value port rqod roid]))
     else Ok [])
    (fun logs =>
  and_then
    (if String.eqb tag "HOST_DETAIL" then
       and_then (field msg 4) (fun value =>
       Ok [ReportHostDetail scan_id host_aux rname value])
     else Ok [])
    (fun details =>
  and_then
    (if String.eqb tag "ALARM" then
       and_then (get_severity_score cvss table roid) (fun rseverity =>
       and_then (field msg 4) (fun value =>
       and_then (field msg 2) (fun port =>
       Ok [ReportAlarm scan_id host_aux rname value port roid rseverity
             rqod])))
     else Ok [])
    (fun alarms => Ok (errors ++ logs ++ details ++ alarms)%list)))))))).

(** [res = get_result(); while res: ...; res = get_result()] over the
    results queued in the KB: the outcome, the reports added, and the
    results left in the queue.  A result that is read is taken from the
    queue. *)
Fixpoint get_openvas_result {severity : Type} (cvss : string -> severity)
  (qod_types : dict string) (table : dict vt) (scan_id host_aux : string)
  (queue : list string) (reports : list (report severity))
  : result unit * list (report severity) * list string :=
  match queue with
  | [] => (Ok tt, reports, [])
  | EmptyString :: rest => (Ok tt, reports, rest)
  | res :: rest =>
      match forward_result cvss qod_types table scan_id host_aux res with
      | Ok new =>
          get_openvas_result cvss qod_types table scan_id host_aux rest
            (reports ++ new)
      | Raise e => (Raise e, reports, rest)
      end
  end.

(** A result with one of the four tags that are forwarded. *)
Definition is_forwarded (res : string) : bool :=
  match split "|||" res with
  | tag :: _ =>
      String.eqb tag "ERRMSG" || String.eqb tag "LOG"
      || String.eqb tag "HOST_DETAIL" || String.eqb tag "ALARM"
  | [] => false
  end.

(** The QoD type of the VT, if it has one, is in the QoD table. *)
Definition qod_known (qod_types : dict string) (v : vt) : bool :=
  match qod_t v with
  | Some (String a t) => mem qod_types (String a t)
  | _ => true
  end.

(** A result that [get_openvas_result] can forward or drop: not empty,
    with at least four fields, the fourth the OID of a VT of the table
    whose QoD type is known, and with a fifth field when its tag is one
    of the four that are forwarded. *)
Definition forwardable (qod_types : dict string) (table : dict vt)
  (res : string) : bool :=
  negb (String.eqb res "") &&
  match split "|||" res with
  | tag :: _ :: _ :: roid :: rest =>
      match get table roid with
      | Some v =>
          qod_known qod_types v
          && (negb (is_forwarded res)
              || match rest with [] => false | _ :: _ => true end)
      | None => false
      end
  | _ => false
  end.

(** The QoD table of the examples. *)
Definition example_qod_types : dict string := [ ("remote_banner", "80") ].

(** Results of the example VT: a log, an alarm and a result with a tag
    that is not forwarded. *)
Definition example_results : list string :=
  [ "LOG|||general|||80/tcp|||" ++ example_oid ++ "|||Host is up";
    "ALARM|||general|||443/tcp|||" ++ example_oid ++ "|||Weak cipher";
    "DEBUG|||general|||443/tcp|||" ++ example_oid ++ "|||Nothing" ].

(** A result of a VT that the table does not have. *)
Definition stray_result : string :=
  "HOST_DETAIL|||general|||general/tcp|||" ++ broken_oid ++ "|||OS: Linux".

(* ================================================================= *)
(** ** The XML of a VT *)

(** An element as [lxml] builds it: tag, attributes, text, children.  The
    functions below return the element that the method serialises with
    [tostring]; [lower] stands for [str.lower]. *)
#[warnings="-register-all"] Inductive element : Type :=
| Element (tag : string) (attrib : dict string) (text : option string)
    (children : list element).

(** [e.attrib]. *)
Definition attrib_of (e : element) : dict string :=
  match e with Element _ a _ _ => a end.

(** The children of [e]. *)
Definition children_of (e : element) : list element :=
  match e with Element _ _ _ c => c end.

(** [e.set(k, v)]. *)
Definition set_attr (e : element) (k v : string) : element :=
  match e with Element t a x c => Element t (setitem a k v) x c end.

(** [e.text = v]. *)
Definition set_text (e : element) (v : string) : element :=
  match e with Element t a _ c => Element t a (Some v) c end.

(** [parent.append(child)]. *)
Definition append_child (parent child : element) : element :=
  match parent with Element t a x c => Element t a x (c ++ [child]) end.

(** [xref.split(':', 1)] unpacked into two names: [None] is the
    [ValueError] of a string without a colon. *)
Fixpoint split_once (s : string) : option (string * string) :=
  match s with
  | EmptyString => None
  | String a s' =>
      if Ascii.eqb a ":" then Some (EmptyString, s')
      else match split_once s' with
           | Some (x, y) => Some (String a x, y)
           | None => None
           end
  end.

(** [for xref in value.split(', ')], on the one [vt_ref] of the value. *)
Fixpoint xref_loop (lower : string -> string) (vt_id : string)
  (xrefs : list string) (vt_ref : element) (errors : list string)
  : element * list string :=
  match xrefs with
  | [] => (vt_ref, errors)
  | xref :: rest =>
      match split_once xref with
      | None =>
          xref_loop lower vt_id rest vt_ref
            (errors ++ ["Not possible to parse xref " ++ xref ++ " for vt "
                          ++ vt_id])
      | Some (_type, _id) =>
          xref_loop lower vt_id rest
            (set_attr (set_attr vt_ref "type" (lower _type)) "id" _id) errors
      end
  end.

(** [for value in ref_values]. *)
Fixpoint values_loop (lower : string -> string) (vt_id ref_type : string)
  (ref_values : list string) (vt_refs_xml : element) (errors : list string)
  : element * list string :=
  match ref_values with
  | [] => (vt_refs_xml, errors)
  | value :: rest =>
      let vt_ref := Element "ref" [] None [] in
      if String.eqb ref_type "xref" && negb (String.eqb value "") then
        let '(vt_ref, errors) :=
          xref_loop lower vt_id (split ", " value) vt_ref errors in
        values_loop lower vt_id ref_type rest
          (append_child vt_refs_xml vt_ref) errors
      else if negb (String.eqb value "") then
        let vt_ref :=
          set_attr (set_attr vt_ref "type" (lower ref_type)) "id" value in
        values_loop lower vt_id ref_type rest
          (append_child vt_refs_xml vt_ref) errors
      else values_loop lower vt_id ref_type rest vt_refs_xml errors
  end.

(** [for ref_type, ref_values in vt_refs.items()]. *)
Fixpoint refs_loop (lower : string -> string) (vt_id : string)
  (items : list (string * list string)) (vt_refs_xml : element)
  (errors : list string) : element * list string :=
  match items with
  | [] => (vt_refs_xml, errors)
  | (ref_type, ref_values) :: rest =>
      let '(vt_refs_xml, errors) :=
        values_loop lower vt_id ref_type ref_values vt_refs_xml errors in
      refs_loop lower vt_id rest vt_refs_xml errors
  end.

(** The element of [get_refs_vt_as_xml_str] and the errors it logs. *)
Definition get_refs_vt_as_xml (lower : string -> string) (vt_id : string)
  (vt_refs : dict (list string)) : element * list string :=
  refs_loop lower vt_id vt_refs (Element "vt_refs" [] None []) [].

(** [get_refs_vt_as_xml_str]: the element, serialised. *)
Definition get_refs_vt_as_xml_str (tostring : element -> string)
  (lower : string -> string) (vt_id : string) (vt_refs : dict (list string))
  : string :=
  tostring (fst (get_refs_vt_as_xml lower vt_id vt_refs)).

(** [for dep in dep_list]: [set('vt_id', None)] is the [TypeError] that
    is caught. *)
Fixpoint deps_loop (vt_id : string) (dep_list : list (option string))
  (vt_deps_xml : element) (errors : list string) : element * list string :=
  match dep_list with
  | [] => (vt_deps_xml, errors)
  | dep :: rest =>
      let _vt_dep := Element "dependency" [] None [] in
      match dep with
      | None =>
          deps_loop vt_id rest vt_deps_xml
            (errors ++ ["Not possible to add dependency None for vt "
                          ++ vt_id])
      | Some d =>
          deps_loop vt_id rest
            (append_child vt_deps_xml (set_attr _vt_dep "vt_id" d)) errors
      end
  end.

(** The element of [get_dependencies_vt_as_xml_str] and the errors it
    logs. *)
Definition get_dependencies_vt_as_xml (vt_id : string)
  (dep_list : list (option string)) : element * list string :=
  deps_loop vt_id dep_list (Element "dependencies" [] None []) [].

(** [get_dependencies_vt_as_xml_str]: the element, serialised. *)
Definition get_dependencies_vt_as_xml_str (tostring : element -> string)
  (vt_id : string) (dep_list : list (option string)) : string :=
  tostring (fst (get_dependencies_vt_as_xml vt_id dep_list)).

(** The element of [get_severities_vt_as_xml_str]. *)
Definition get_severities_vt_as_xml (vt_id : string)
  (severities : dict string) : element :=
  let _severity := Element "severity" [] None [] in
  let _severity :=
    match get severities "severity_base_vector" with
    | Some v => set_text _severity v
    | None => _severity
    end in
  let _severity :=
    match get severities "severity_origin" with
    | Some v => set_attr _severity "origin" v
    | None => _severity
    end in
  let _severity :=
    match get severities "severity_type" with
    | Some v => set_attr _severity "type" v
    | None => _severity
    end in
  Element "severities" [] None [_severity].

(** [get_severities_vt_as_xml_str]: the element, serialised. *)
Definition get_severities_vt_as_xml_str (tostring : element -> string)
  (vt_id : string) (severities : dict string) : string :=
  tostring (get_severities_vt_as_xml vt_id severities).

(** [for key, val in custom.items()]: one child per item, named by the
    key, with the value as text. *)
Fixpoint custom_loop (items : list (string * string)) (_custom : element)
  : element :=
  match items with
  | [] => _custom
  | (key, val) :: rest =>
      custom_loop rest
        (append_child _custom (set_text (Element key [] None []) val))
  end.

(** The element of [get_custom_vt_as_xml_str]. *)
Definition get_custom_vt_as_xml (vt_id : string) (custom : dict string)
  : element :=
  custom_loop custom (Element "custom" [] None []).

(** [get_custom_vt_as_xml_str]: the element, serialised. *)
Definition get_custom_vt_as_xml_str (tostring : element -> string)
  (vt_id : string) (custom : dict string) : string :=
  tostring (get_custom_vt_as_xml vt_id custom).

(** The part of an [xref] value that its [ref] element shows: the last
    one with a colon. *)
Definition shown_xref (value : string) : option string :=
  find (fun xref => match split_once xref with
                    | Some _ => true
                    | None => false
                    end) (rev (split ", " value)).

(** The attributes of the [ref] element of a value. *)
Definition ref_attrib (lower : string -> string) (ref_type value : string)
  : dict string :=
  if String.eqb ref_type "xref" then
    match shown_xref value with
    | Some xref =>
        match split_once xref with
        | Some (_type, _id) => [("type", lower _type); ("id", _id)]
        | None => []
        end
    | None => []
    end
  else [("type", lower ref_type); ("id", value)].

(** The [ref] elements of the values of one reference type. *)
Definition ref_elements (lower : string -> string)
  (item : string * list string) : list element :=
  flat_map (fun value =>
              if String.eqb value "" then []
              else [Element "ref" (ref_attrib lower (fst item) value) None []])
    (snd item).

(** The dependencies that the cache can resolve. *)
Definition resolved_dependencies (oids : dict string) (md : dict string)
  : list string :=
  match get md "dependencies" with
  | Some deps =>
      flat_map (fun dep => match get oids ("filename:" ++ dep) with
                           | Some oid => [oid]
                           | None => []
                           end) (split ", " deps)
  | None => []
  end.

(** The OID of a VT with dependencies. *)
Definition dependent_oid : string := "1.3.6.1.4.1.25623.1.0.10330".

(** A feed of two VTs that load; the second depends on the first and on
    a file that the cache does not enumerate, and has a solution type
    without a solution. *)
Definition dependent_nvti : nvticache :=
  mk_nvticache
    [ ("filename:ping_host.nasl", example_oid);
      ("filename:find_service2.nasl", dependent_oid) ]
    (fun _ => []) (fun _ => [])
    (fun oid =>
       if String.eqb oid dependent_oid then
         [ ("name", "Services"); ("creation_date", "1257430740");
           ("last_modification", "1541066564");
           ("family", "Service detection");
           ("solution_type", "VendorFix");
           ("cvss_base_vector", "AV:N/AC:L/Au:N/C:N/I:N/A:N");
           ("severity_origin", "NIST");
           ("dependencies", "find_service.nasl, ping_host.nasl") ]
       else example_metadata oid)
    (Some "201811011500").

(* ================================================================= *)
(** * Properties *)
(* ================================================================= *)

(** ** Strings *)

Lemma prefix_append (p s : string) : String.prefix p (p ++ s) = true.
Proof.
  induction p as [|a p IH]; simpl.
  - destruct s; reflexivity.
  - destruct (ascii_dec a a) as [_|N]; [exact IH | now elim N].
Qed.

Lemma contains_prefix (sub s : string) :
  String.prefix sub s = true -> contains sub s = true.
Proof. intros H. destruct s; cbn [contains]; rewrite H; reflexivity. Qed.

Lemma contains_here (sub s : string) : contains sub (sub ++ s) = true.
Proof. apply contains_prefix, prefix_append. Qed.

Lemma contains_append (sub a s : string) :
  contains sub s = true -> contains sub (a ++ s) = true.
Proof.
  intros H. induction a as [|c a IH]; simpl; [exact H|].
  rewrite IH. apply orb_true_r.
Qed.

Lemma contains_infix (sub a s : string) : contains sub (a ++ sub ++ s) = true.
Proof. apply contains_append, contains_here. Qed.

(* ================================================================= *)
(** ** Credential Preference Builder *)

Lemma get_In {V} (d : dict V) (k : string) (v : V) :
  In (k, v) d -> exists v', get d k = Some v'.
Proof.
  induction d as [|[k' w] d IH]; simpl; [tauto|].
  intros [E|H].
  - inversion E; subst. rewrite String.eqb_refl. eauto.
  - destruct (String.eqb k' k); eauto.
Qed.

Lemma credential_prefs_unknown (service : string) (p : dict pyval) :
  known_service service = false -> credential_prefs service p = [].
Proof.
  unfold known_service, credential_prefs. intros H.
  repeat (apply orb_false_iff in H; destruct H as [H ?]).
  now rewrite H, H0, H1, H2.
Qed.

Lemma get_filter_known {V} (d : dict V) (k : string) :
  known_service k = true ->
  get (filter (fun kv => known_service (fst kv)) d) k = get d k.
Proof.
  intros K. induction d as [|[k' v] d IH]; simpl; [reflexivity|].
  destruct (String.eqb_spec k' k) as [->|N].
  - rewrite K. simpl. now rewrite String.eqb_refl.
  - destruct (known_service k'); simpl; [|exact IH].
    destruct (String.eqb_spec k' k); [contradiction|exact IH].
Qed.

(** The loop never raises on the items of the dictionary it reads, and
    the items of unknown services can be dropped from both. *)
Lemma credentials_loop_filter (credentials : dict (dict pyval)) :
  forall items acc,
    incl items credentials ->
    credentials_loop credentials items acc =
    credentials_loop (filter (fun kv => known_service (fst kv)) credentials)
      (filter (fun kv => known_service (fst kv)) items) acc.
Proof.
  induction items as [|[service p] items IH]; intros acc Hin; [reflexivity|].
  assert (Hrest : incl items credentials)
    by (intros x Hx; apply Hin; now right).
  destruct (get_In credentials service p (Hin _ (or_introl eq_refl)))
    as [cp Hcp].
  cbn [credentials_loop filter fst]. rewrite Hcp.
  destruct (known_service service) eqn:K.
  - cbn [credentials_loop]. rewrite (get_filter_known _ _ K), Hcp.
    now apply IH.
  - rewrite (credential_prefs_unknown _ cp K), app_nil_r. now apply IH.
Qed.

Lemma credentials_loop_total (credentials : dict (dict pyval)) :
  forall items acc,
    incl items credentials ->
    exists prefs, credentials_loop credentials items acc = Ok prefs.
Proof.
  induction items as [|[service p] items IH]; intros acc Hin; simpl; [eauto|].
  destruct (get_In credentials service p (Hin _ (or_introl eq_refl)))
    as [cp ->].
  apply IH. intros x Hx. apply Hin. now right.
Qed.

(** The three sibling services write the delimiter into every record. *)
Lemma credential_prefs_delimited (service : string) (p : dict pyval)
  (r : string) :
  String.eqb service "snmp" = false ->
  In r (credential_prefs service p) -> is_pref_record r = true.
Proof.
  unfold credential_prefs, is_pref_record. intros -> H.
  rewrite app_nil_r in H.
  repeat (apply in_app_or in H; destruct H as [H|H]).
  - destruct (String.eqb service "ssh"); [|contradiction].
    apply in_app_or in H. destruct H as [H|H].
    + destruct H as [<-|[<-|[]]].
      * apply (contains_infix "|||" "auth_port_ssh").
      * apply (contains_infix "|||" "SSH Authorization[entry]:SSH login name:").
    + destruct (eq_str _ "up").
      * destruct H as [<-|[]].
        apply (contains_infix "|||"
                 "SSH Authorization[password]:SSH password (unsafe!):").
      * destruct H as [<-|[<-|[]]].
        -- apply (contains_infix "|||"
                    "SSH Authorization[password]:SSH key passphrase:").
        -- apply (contains_infix "|||"
                    "SSH Authorization[file]:SSH private key:").
  - destruct (String.eqb service "smb"); [|contradiction].
    destruct H as [<-|[<-|[]]].
    + apply (contains_infix "|||" "SMB Authorization[entry]:SMB login:").
    + apply (contains_infix "|||" "SMB Authorization[password]:SMB password :").
  - destruct (String.eqb service "esxi"); [|contradiction].
    destruct H as [<-|[<-|[]]].
    + apply (contains_infix "|||" "ESXi Authorization[entry]:ESXi login name:").
    + apply (contains_infix "|||"
               "ESXi Authorization[password]:ESXi login password:").
Qed.

(** C6, at the failing input: for an snmp credential the builder returns
    six records and not one of them contains the [|||] delimiter, so they
    are not [name|||value] preference records. *)
Theorem build_credentials_snmp_undelimited :
  exists prefs,
    build_credentials_as_prefs snmp_credentials = Ok prefs /\
    length prefs = 6%nat /\
    In "SNMP Authorization[password]:SNMP Community:public" prefs /\
    forall r, In r prefs -> is_pref_record r = false.
Proof.
  eexists. split; [reflexivity|]. split; [reflexivity|]. split.
  - simpl. tauto.
  - intros r H. simpl in H.
    repeat (destruct H as [<-|H]; [reflexivity|]). contradiction.
Qed.

(** C7: the username/password ssh credential yields the login-name record
    for [root] and the password record carrying [x], and neither a
    private-key record nor a key-passphrase record. *)
Theorem build_credentials_ssh_up :
  exists prefs,
    build_credentials_as_prefs ssh_up_credentials = Ok prefs /\
    In "SSH Authorization[entry]:SSH login name:|||root" prefs /\
    In "SSH Authorization[password]:SSH password (unsafe!):|||x" prefs /\
    forall r, In r prefs ->
      contains "SSH private key:" r = false /\
      contains "SSH key passphrase:" r = false.
Proof.
  eexists. split; [reflexivity|]. split; [simpl; tauto|].
  split; [simpl; tauto|].
  intros r H. simpl in H.
  repeat (destruct H as [<-|H]; [split; reflexivity|]). contradiction.
Qed.

Lemma build_credentials_returns (credentials : dict (dict pyval)) :
  exists prefs, build_credentials_as_prefs credentials = Ok prefs.
Proof. apply credentials_loop_total, incl_refl. Qed.

Lemma build_credentials_all_unknown (credentials : dict (dict pyval)) :
  (forall service p, In (service, p) credentials ->
                     known_service service = false) ->
  build_credentials_as_prefs credentials = Ok [].
Proof.
  intros H. unfold build_credentials_as_prefs.
  rewrite credentials_loop_filter by apply incl_refl.
  replace (filter (fun kv => known_service (fst kv)) credentials)
    with (@nil (string * dict pyval)); [reflexivity|].
  symmetry. induction credentials as [|[s p] c IH]; [reflexivity|].
  simpl. rewrite (H s p (or_introl eq_refl)). apply IH.
  intros s' p' Hin. apply (H s' p'). now right.
Qed.

(** C8: a credential map whose service keys are all outside
    ssh/smb/esxi/snmp builds the empty list without raising; in any map
    the builder returns normally, and the items under unknown service
    keys contribute nothing: dropping them leaves the result unchanged. *)
Theorem build_credentials_unknown_services (credentials : dict (dict pyval)) :
  ((forall service p, In (service, p) credentials ->
                      known_service service = false) ->
   build_credentials_as_prefs credentials = Ok []) /\
  (exists prefs,
     build_credentials_as_prefs credentials = Ok prefs /\
     build_credentials_as_prefs
       (filter (fun kv => known_service (fst kv)) credentials) = Ok prefs).
Proof.
  split; [apply build_credentials_all_unknown|].
  destruct (credentials_loop_total credentials credentials [] (incl_refl _))
    as [prefs H].
  exists prefs. split; [exact H|].
  unfold build_credentials_as_prefs in *.
  now rewrite <- credentials_loop_filter by apply incl_refl.
Qed.

Lemma build_credentials_unknown_services_witness :
  build_credentials_as_prefs unknown_credentials = Ok [] /\
  build_credentials_as_prefs mixed_credentials =
  build_credentials_as_prefs ssh_up_credentials.
Proof.
  split.
  - apply (proj1 (build_credentials_unknown_services unknown_credentials)).
    intros service p [E|[E|[]]]; inversion E; reflexivity.
  - destruct (proj2 (build_credentials_unknown_services mixed_credentials))
      as [prefs [H1 H2]].
    rewrite H1. symmetry. exact H2.
Defined.

(* ================================================================= *)
(** ** The monad *)

Lemma bind_inv {A B} (m : M A) (f : A -> M B) (w w' : world) (r : result B) :
  bind m f w = (r, w') ->
  (exists a w1, m w = (Ok a, w1) /\ f a w1 = (r, w')) \/
  (exists e, m w = (Raise e, w') /\ r = Raise e).
Proof.
  unfold bind. destruct (m w) as [[a|e] w1]; intros H.
  - left. eauto.
  - right. inversion H; subst. eauto.
Qed.

Lemma emits_only_refl (Q : event -> bool) (w : world) : emits_only Q w w.
Proof. split; [reflexivity|]. exists []. now rewrite app_nil_r. Qed.

Lemma emits_only_trans (Q : event -> bool) (w1 w2 w3 : world) :
  emits_only Q w1 w2 -> emits_only Q w2 w3 -> emits_only Q w1 w3.
Proof.
  intros [D1 [l1 [T1 Q1]]] [D2 [l2 [T2 Q2]]]. split; [congruence|].
  exists (l1 ++ l2)%list. rewrite T2, T1, app_assoc, forallb_app, Q1, Q2.
  now split.
Qed.

Lemma emits_only_emit (Q : event -> bool) (e : event) (w : world) :
  Q e = true -> emits_only Q w (fst w, (snd w ++ [e])%list).
Proof.
  intros H. split; [reflexivity|]. exists [e]. simpl. now rewrite H.
Qed.

Lemma emits_only_weaken (Q Q' : event -> bool) (w w' : world) :
  (forall e, Q e = true -> Q' e = true) ->
  emits_only Q w w' -> emits_only Q' w w'.
Proof.
  intros HQ [D [l [T F]]]. split; [exact D|]. exists l. split; [exact T|].
  rewrite forallb_forall in *. auto.
Qed.

Lemma releases_app (index : Z) (l1 l2 : list event) :
  releases index (l1 ++ l2) = (releases index l1 + releases index l2)%nat.
Proof. unfold releases. now rewrite filter_app, length_app. Qed.

Lemma releases_not_release (index : Z) (l : list event) :
  forallb (not_release index) l = true -> releases index l = 0%nat.
Proof.
  unfold releases, not_release. induction l as [|e l IH]; simpl; [easy|].
  intros H. apply andb_true_iff in H. destruct H as [He Hl].
  destruct (is_release index e); [discriminate|auto].
Qed.

Lemma emits_only_releases (index : Z) (w w' : world) :
  emits_only (not_release index) w w' ->
  releases index (snd w') = releases index (snd w).
Proof.
  intros [_ [l [T F]]].
  rewrite T, releases_app, (releases_not_release _ _ F). lia.
Qed.

Section Quiet.
Variable Q : event -> bool.
Variable P : daemon -> Prop.

Lemma quiet_ret {A} (a : A) : quiet Q P (ret a).
Proof. intros w r w' _ H. inversion H. apply emits_only_refl. Qed.

Lemma quiet_raise {A} (e : exn) : quiet Q P (@raise A e).
Proof. intros w r w' _ H. inversion H. apply emits_only_refl. Qed.

Lemma quiet_lift {A} (x : result A) : quiet Q P (lift x).
Proof. intros w r w' _ H. inversion H. apply emits_only_refl. Qed.

Lemma quiet_gets {A} (f : daemon -> A) : quiet Q P (gets f).
Proof. intros w r w' _ H. inversion H. apply emits_only_refl. Qed.

Lemma quiet_emit (e : event) : Q e = true -> quiet Q P (emit e).
Proof. intros He w r w' _ H. inversion H. now apply emits_only_emit. Qed.

Lemma quiet_bind {A B} (m : M A) (f : A -> M B) :
  quiet Q P m -> (forall a, quiet Q P (f a)) -> quiet Q P (bind m f).
Proof.
  intros Hm Hf w r w' HP H. apply bind_inv in H.
  destruct H as [(a & w1 & E & H) | (e & H & _)].
  - pose proof (Hm _ _ _ HP E) as S1.
    eapply emits_only_trans; [exact S1|].
    eapply Hf; [|exact H]. destruct S1 as [-> _]. exact HP.
  - eapply Hm; eauto.
Qed.

Lemma quiet_bind_gets {A B} (g : daemon -> A) (f : A -> M B) :
  (forall d, P d -> quiet Q (fun d' => d' = d) (f (g d))) ->
  quiet Q P (bind (gets g) f).
Proof.
  intros Hf w r w' HP H. unfold bind, gets in H.
  eapply (Hf (fst w)); eauto.
Qed.
End Quiet.

Lemma quiet_bind_main (Q : event -> bool) (main : Z) {B} (f : Z -> M B) :
  quiet Q (has_main main) (f main) ->
  quiet Q (has_main main) (bind self_main_kbindex f).
Proof.
  intros Hf w r w' HP H. unfold self_main_kbindex, bind, gets in H.
  red in HP. rewrite HP in H. eapply Hf; eauto.
Qed.

Ltac quiet_tac :=
  repeat first
    [ apply quiet_ret | apply quiet_raise | apply quiet_lift
    | apply quiet_gets | apply quiet_emit; reflexivity
    | apply quiet_bind_main
    | apply quiet_bind; [|intros] 
    | match goal with
      | |- quiet _ _ (match ?x with _ => _ end) => destruct x
      | |- quiet _ _ (if ?x then _ else _) => destruct x
      end ].

Lemma get_vt_param_type_quiet Q P (vtid pid : string) :
  quiet Q P (get_vt_param_type vtid pid).
Proof.
  unfold get_vt_param_type. apply quiet_bind_gets. intros d _. quiet_tac.
Qed.

Lemma params_loop_quiet P (vtid nm : string) :
  forall items acc, quiet is_log_debug P (params_loop vtid nm items acc).
Proof.
  induction items as [|[pid v] items IH]; intros acc; cbn [params_loop].
  - quiet_tac.
  - apply quiet_bind; [apply get_vt_param_type_quiet|intros].
    quiet_tac; apply IH.
Qed.

Lemma vts_loop_quiet P :
  forall items l acc, quiet is_log_debug P (vts_loop items l acc).
Proof.
  induction items as [|[vtid ps] items IH]; intros l acc; cbn [vts_loop].
  - quiet_tac.
  - quiet_tac. apply params_loop_quiet. apply IH.
Qed.

Lemma process_vts_quiet P (sel : vt_selection) :
  quiet is_log_debug P (process_vts sel).
Proof.
  unfold process_vts, get_vts_in_groups. quiet_tac; apply vts_loop_quiet.
Qed.

Lemma add_params_quiet (Q : event -> bool) P (id : string) :
  (forall k v, Q (AddSingleItem k v) = true) ->
  forall params, quiet Q P (add_params id params).
Proof.
  intros HQ. induction params as [|p params IH]; cbn [add_params].
  - quiet_tac.
  - apply quiet_bind; [apply quiet_emit, HQ|intros; apply IH].
Qed.

Lemma wait_while_new_quiet (Q : event -> bool) P :
  (forall n, Q (Sleep n) = true) ->
  forall n, quiet Q P (wait_while_new n).
Proof.
  intros HQ. induction n as [|n IH]; cbn [wait_while_new].
  - quiet_tac.
  - apply quiet_bind; [apply quiet_emit, HQ|intros; apply IH].
Qed.

Lemma sweep_quiet (id : string) (main : Z) :
  forall views b,
    quiet (not_release main) (has_main main) (sweep id views b).
Proof.
  induction views as [|view views IH]; intros b; cbn [sweep].
  - quiet_tac.
  - apply quiet_bind_main.
    destruct (Z.eqb_spec (kb_index view) main) as [Ei|Ni]; [apply IH|].
    unfold pull_host. quiet_tac; try apply IH.
    apply quiet_emit. unfold not_release. simpl.
    destruct (Z.eqb_spec (kb_index view) main); [contradiction|reflexivity].
Qed.

Lemma releases_snoc_other (index : Z) (l : list event) (e : event) :
  is_release index e = false -> releases index (l ++ [e]) = releases index l.
Proof.
  intros H. rewrite releases_app. unfold releases at 2. simpl. rewrite H.
  simpl. lia.
Qed.

Lemma releases_snoc_same (index : Z) (l : list event) :
  releases index (l ++ [ReleaseDb index]) = S (releases index l).
Proof.
  rewrite releases_app. unfold releases at 2. simpl. rewrite Z.eqb_refl.
  simpl. lia.
Qed.

Lemma poll_releases (id : string) (main : Z) :
  forall given b w x w',
    has_main main (fst w) ->
    poll id given b w = (Ok (Some x), w') ->
    fst w' = fst w /\
    ((x = Stopped /\ releases main (snd w') = releases main (snd w)) \/
     (x = Finished /\ releases main (snd w') = S (releases main (snd w)))).
Proof.
  induction given as [|t given IH]; intros b w x w' Hm H; [discriminate|].
  cbn [poll] in H.
  unfold bind at 1, emit at 1 in H.
  unfold bind at 1, self_main_kbindex at 1, bind at 1, gets at 1 in H.
  cbn [fst snd] in H. red in Hm. rewrite Hm in H.
  unfold ret at 1, bind at 1, emit at 1 in H. cbn [fst snd] in H.
  destruct (stop_all t).
  - inversion H; subst. cbn [fst snd]. split; [reflexivity|]. left.
    split; [reflexivity|]. now rewrite !releases_snoc_other by reflexivity.
  - unfold bind at 1, emit at 1 in H. cbn [fst snd] in H.
    unfold bind at 1 in H.
    match type of H with context [sweep ?i ?v ?b ?w0] =>
      destruct (sweep i v b w0) as [[nf|e] w2] eqn:Es; [|discriminate];
      pose proof (sweep_quiet i main v b w0 _ _ Hm Es) as Sq
    end.
    pose proof (emits_only_releases _ _ _ Sq) as Rq.
    destruct Sq as [D2 _]. cbn [fst snd] in D2, Rq.
    rewrite !releases_snoc_other in Rq by reflexivity.
    destruct nf.
    + unfold bind at 1, self_main_kbindex at 1, bind at 1, gets at 1 in H.
      rewrite D2, Hm in H. unfold ret at 1, bind at 1, emit at 1 in H.
      inversion H; subst. cbn [fst snd]. split; [exact D2|]. right.
      split; [reflexivity|]. now rewrite releases_snoc_same, Rq.
    + apply IH in H; [|red; now rewrite D2].
      destruct H as [D3 H]. split; [congruence|]. now rewrite Rq in H.
Qed.

Ltac run_exec_scan H :=
  unfold exec_scan, self_main_kbindex, set_main_kbindex, modify, bind, gets,
    emit, lift, raise, ret in H;
  cbn [fst snd main_kbindex] in H.

Lemma exec_scan_releases (env : scan_env) (nvti : nvticache)
  (scan_id target : string) (w w' : world) (x : exit) :
  exec_scan env nvti scan_id target w = (Ok (Some x), w') ->
  releases (db_index env) (snd w') =
  (releases (db_index env) (snd w) +
   match x with Finished | NoVtsToRun => 1 | _ => 0 end)%nat.
Proof.
  intros H. run_exec_scan H.
  destruct (flag_set (pending_feed (fst w))).
  { inversion H; subst. cbn [snd].
    rewrite !releases_snoc_other by reflexivity. lia. }
  destruct (negb (truthy (scan_ports env))).
  { inversion H; subst. cbn [snd].
    rewrite !releases_snoc_other by reflexivity. lia. }
  set (main := db_index env) in *.
  set (d1 := mk_daemon _ _ _ (Some main) _) in H.
  assert (Hm : has_main main d1) by reflexivity.
  match type of H with
  | context [match scan_credentials env with [] => ?none | _ :: _ => ?some end]
    => set (set_credentials :=
              match scan_credentials env with
              | [] => none
              | _ :: _ => some
              end) in H
  end.
  assert (Cr : exists lc,
             forallb (not_release main) lc = true /\
             forall w0 : world,
               set_credentials w0 = (Ok tt, (fst w0, (snd w0 ++ lc)%list))).
  { unfold set_credentials. clear.
    destruct (build_credentials_returns (scan_credentials env))
      as [prefs ->].
    destruct (scan_credentials env).
    - exists []. split; [reflexivity|]. intros [d0 t0]. simpl.
      now rewrite app_nil_r.
    - exists [AddSingleItem (scanprefs (uuid4 env)) (map VStr prefs)].
      split; reflexivity. }
  destruct Cr as [lc [Fc Cr]]. rewrite Cr in H. clear Cr.
  cbn [fst snd] in H.
  match type of H with
  | context [(?t ++ lc)%list] => set (tr1 := (t ++ lc)%list) in H
  end.
  assert (R1 : releases main tr1 = releases main (snd w)).
  { unfold tr1. rewrite releases_app, (releases_not_release _ _ Fc).
    rewrite !releases_snoc_other by reflexivity. lia. }
  clearbody tr1. rewrite <- R1. clear R1 Fc lc.
  destruct (get_scan_vts env) as [|nvts].
  { cbn [d1 main_kbindex] in H. inversion H; subst. cbn [snd].
    rewrite releases_snoc_other by reflexivity.
    rewrite releases_snoc_same. lia. }
  destruct (process_vts nvts (d1, tr1)) as [[[nvts_list nvts_params]|e] w2]
    eqn:Ep; [|discriminate].
  apply process_vts_quiet with (P := fun _ => True) in Ep; [|exact I].
  apply (emits_only_weaken _ (not_release main)) in Ep;
    [|now intros []].
  pose proof (emits_only_releases _ _ _ Ep) as R2. destruct Ep as [D2 _].
  cbn [fst snd] in D2, R2. rewrite <- R2. clear R2.
  match type of H with
  | context [add_params ?i ?p ?w0] =>
      destruct (add_params i p w0) as [[[]|e] w3] eqn:Ea; [|discriminate];
      apply add_params_quiet with (Q := not_release main) (P := fun _ => True)
        in Ea; [|reflexivity|exact I]
  end.
  pose proof (emits_only_releases _ _ _ Ea) as R3. destruct Ea as [D3 _].
  cbn [fst snd] in D3, R3. rewrite releases_snoc_other in R3 by reflexivity.
  rewrite <- R3. clear R3.
  destruct (spawn env) as [pid|].
  2:{ inversion H; subst. cbn [snd].
      rewrite !releases_snoc_other by reflexivity. lia. }
  destruct (still_new env) as [n|]; [|discriminate].
  match type of H with
  | context [wait_while_new n ?w0] =>
      destruct (wait_while_new n w0) as [[[]|e] w4] eqn:Ew; [|discriminate];
      apply wait_while_new_quiet with (Q := not_release main)
        (P := fun _ => True) in Ew; [|reflexivity|exact I]
  end.
  pose proof (emits_only_releases _ _ _ Ew) as R4. destruct Ew as [D4 _].
  cbn [fst snd] in D4, R4. rewrite !releases_snoc_other in R4 by reflexivity.
  rewrite <- R4. clear R4.
  apply poll_releases with (main := main) in H.
  - destruct H as [_ [[-> ->]|[-> ->]]]; lia.
  - red. now rewrite D4, D3, D2.
Qed.

(* ================================================================= *)
(** ** Scan Execution Controller *)

(** C4: when a feed reload is pending, or no ports resolve for the
    target, [exec_scan] adds a scan error and returns 2; the daemon is
    left as it is, and among the events of the run there is no
    allocation of a KB and no spawn of the engine. *)
Theorem exec_scan_rejected_before_allocation (env : scan_env)
  (nvti : nvticache) (scan_id target : string) (d : daemon)
  (trace : list event) :
  flag_set (pending_feed d) = true \/ truthy (scan_ports env) = false ->
  exists x new,
    exec_scan env nvti scan_id target (d, trace)
    = (Ok (Some x), (d, (trace ++ new)%list)) /\
    return_value x = VInt 2 /\
    existsb is_scan_error new = true /\
    existsb is_kb_new new = false /\
    existsb is_popen new = false.
Proof.
  intros H. unfold exec_scan, bind, gets, emit, ret. cbn [fst snd].
  destruct (flag_set (pending_feed d)) eqn:F.
  - eexists PendingFeedUpdate, [_; _]. rewrite <- app_assoc.
    repeat split; reflexivity.
  - destruct H as [H|H]; [discriminate|]. rewrite H. cbn [negb].
    exists NoPortList. eexists [_]. repeat split; reflexivity.
Qed.

Lemma exec_scan_rejected_before_allocation_witness :
  exists x new,
    exec_scan (example_env select_example_oid (Some 4711%Z) [idle_tick])
      (empty_nvti None) "scan-1" "10.0.0.1"
      (idle_daemon example_table (Some true), [])
    = (Ok (Some x), (idle_daemon example_table (Some true), new)) /\
    return_value x = VInt 2 /\
    existsb is_kb_new new = false.
Proof.
  destruct (exec_scan_rejected_before_allocation
              (example_env select_example_oid (Some 4711%Z) [idle_tick])
              (empty_nvti None) "scan-1" "10.0.0.1"
              (idle_daemon example_table (Some true)) [])
    as [x [new [E [R [_ [K _]]]]]]; [left; reflexivity|].
  exists x, new. auto.
Defined.

(** C1, the claim as stated fails: a run that allocates KB 1 and then
    reads the stop marker returns 1 and has not released it. *)
Lemma exec_scan_stop_without_release :
  exists d' trace,
    exec_scan (example_env select_example_oid (Some 4711%Z) [stop_tick])
      (empty_nvti None) "scan-1" "10.0.0.1"
      (idle_daemon example_table None, [])
    = (Ok (Some Stopped), (d', trace)) /\
    In (KbNew 1) trace /\
    releases 1 trace = 0%nat.
Proof.
  eexists. eexists. split; [vm_compute; reflexivity|].
  split; [simpl; tauto|reflexivity].
Qed.

(** C1, amended: a run of [exec_scan] that leaves the polling loop
    through its [break] (normal finish) has released the main KB index
    exactly once; a run that returns on the stop marker has not released
    it. *)
Theorem exec_scan_release_on_exit (env : scan_env) (nvti : nvticache)
  (scan_id target : string) (d d' : daemon) (trace : list event)
  (x : exit) :
  exec_scan env nvti scan_id target (d, []) = (Ok (Some x), (d', trace)) ->
  (x = Finished -> releases (db_index env) trace = 1%nat) /\
  (x = Stopped -> releases (db_index env) trace = 0%nat).
Proof.
  intros H. apply exec_scan_releases in H. cbn [snd] in H.
  split; intros ->; exact H.
Qed.

Lemma exec_scan_release_on_exit_witness :
  releases 1
    (snd (snd (exec_scan
                 (example_env select_example_oid (Some 4711%Z)
                    [busy_tick; idle_tick])
                 (empty_nvti None) "scan-1" "10.0.0.1"
                 (idle_daemon example_table None, [])))) = 1%nat.
Proof.
  refine (proj1 (exec_scan_release_on_exit
                   (example_env select_example_oid (Some 4711%Z)
                      [busy_tick; idle_tick])
                   (empty_nvti None) "scan-1" "10.0.0.1"
                   (idle_daemon example_table None) _ _ Finished _) eq_refl).
  vm_compute. reflexivity.
Defined.

(** C2, the claim as stated fails: a selection made of one group filter
    whose family matches no cached VT resolves to no OID at all, and the
    run writes an empty [plugin_set], spawns the engine, records no scan
    error and returns 1. *)
Lemma exec_scan_unmatched_family_spawns :
  exists d' trace,
    process_vts (mk_vt_selection (Some [ "family=Windows" ]) [])
      (idle_daemon example_table None, [])
    = (Ok ([], []), (idle_daemon example_table None, [])) /\
    exec_scan
      (example_env select_unmatched_family (Some 4711%Z)
         [idle_tick; idle_tick])
      (empty_nvti None) "scan-1" "10.0.0.1"
      (idle_daemon example_table None, [])
    = (Ok (Some Finished), (d', trace)) /\
    return_value Finished = VInt 1 /\
    existsb is_popen trace = true /\
    existsb is_scan_error trace = false.
Proof.
  eexists. eexists. split; [reflexivity|].
  split; [vm_compute; reflexivity|]. repeat split.
Qed.

(** C2, amended: when the scan has no VT selection at all
    ([get_scan_vts] hands back the empty string), a scan that passed the
    feed and port checks allocates its KB, then releases it exactly once,
    adds the scan error ["No VTS to run."] and returns 2, and the engine
    is never spawned. *)
Theorem exec_scan_no_vts_to_run (env : scan_env) (nvti : nvticache)
  (scan_id target : string) (d : daemon) (trace : list event) :
  flag_set (pending_feed d) = false ->
  truthy (scan_ports env) = true ->
  get_scan_vts env = EmptyStr ->
  exists d' new,
    exec_scan env nvti scan_id target (d, trace)
    = (Ok (Some NoVtsToRun), (d', (trace ++ new)%list)) /\
    return_value NoVtsToRun = VInt 2 /\
    In (KbNew (db_index env)) new /\
    In (AddScanError scan_id "" target "No VTS to run.") new /\
    releases (db_index env) new = 1%nat /\
    existsb is_popen new = false.
Proof.
  intros F Pt V.
  unfold exec_scan, self_main_kbindex, set_main_kbindex, modify, bind, gets,
    emit, lift, raise, ret.
  cbn [fst snd main_kbindex]. rewrite F, Pt, V. cbn [negb].
  destruct (build_credentials_returns (scan_credentials env))
    as [prefs ->].
  destruct (scan_credentials env) as [|c cs]; cbn [fst snd main_kbindex];
    rewrite <- !app_assoc; cbn [app];
    (eexists; eexists; split; [reflexivity|]);
    (split; [reflexivity|]); (split; [simpl; tauto|]);
    (split; [simpl; tauto|]);
    unfold releases; simpl; rewrite Z.eqb_refl; split; reflexivity.
Qed.

Lemma exec_scan_no_vts_to_run_witness :
  exists d' new,
    exec_scan (example_env EmptyStr (Some 4711%Z) [idle_tick])
      (empty_nvti None) "scan-1" "10.0.0.1"
      (idle_daemon example_table None, [])
    = (Ok (Some NoVtsToRun), (d', new)) /\
    releases 1 new = 1%nat /\
    existsb is_popen new = false.
Proof.
  destruct (exec_scan_no_vts_to_run
              (example_env EmptyStr (Some 4711%Z) [idle_tick])
              (empty_nvti None) "scan-1" "10.0.0.1"
              (idle_daemon example_table None) [] eq_refl eq_refl eq_refl)
    as [d' [new [E [_ [_ [_ [R P]]]]]]].
  exists d', new. auto.
Defined.

Lemma releases_cons (index : Z) (e : event) (l : list event) :
  releases index (e :: l)
  = ((if is_release index e then 1 else 0) + releases index l)%nat.
Proof. unfold releases. simpl. now destruct (is_release index e). Qed.

Lemma stop_loop_no_scan :
  forall views k (w : world),
    Forall (fun v => globalscanid v = None) views ->
    exists l,
      stop_loop k views w = (Ok tt, (fst w, (snd w ++ l)%list)) /\
      forall i, releases i l = 0%nat.
Proof.
  induction views as [|view views IH]; intros k w H.
  - exists []. rewrite app_nil_r. destruct w. split; reflexivity.
  - inversion H as [|? ? Hv H']; subst. cbn [stop_loop].
    unfold bind at 1, emit at 1. rewrite Hv.
    destruct (IH (k + 1)%Z (fst w, (snd w ++ [SelectKb k true])%list) H')
      as [l [E R]].
    exists (SelectKb k true :: l). cbn [fst snd] in E.
    rewrite E, <- app_assoc. split; [reflexivity|].
    intros i. now rewrite releases_cons, R.
Qed.

(** [stop_scan] releases the KB in which the scan is registered, once,
    after marking it and before signalling the engine. *)
Lemma stop_loop_releases_main (view : stop_view) (after : list stop_view)
  (c : ascii) (id parent : string) (pid : Z) :
  globalscanid view = Some (String c id) ->
  py_int (ovas_pid view) = Ok pid ->
  process view = Some parent ->
  Forall (fun v => globalscanid v = None) after ->
  forall before k (w : world),
    Forall (fun v => globalscanid v = None) before ->
    exists new,
      stop_loop k (before ++ view :: after) w
      = (Ok tt, (fst w, (snd w ++ new)%list)) /\
      releases (k + Z.of_nat (length before)) new = 1%nat /\
      In (SetSingleItem ("internal/" ++ String c id) [VStr "stop_all"]) new /\
      In (SendSignal pid "SIGUSR2") new.
Proof.
  intros Hg Hp Hpr Ha. induction before as [|b before IH]; intros k w Hb.
  - cbn [app stop_loop length]. rewrite Hg, Hp, Hpr.
    unfold lift, ret, emit, bind. cbn [fst snd].
    match goal with
    | |- context [stop_loop ?k' after ?w'] =>
        destruct (stop_loop_no_scan after k' w' Ha) as [l [E R]]
    end.
    cbn [fst snd] in E. rewrite E. rewrite <- !app_assoc. cbn [app].
    eexists. split; [reflexivity|]. split; [|split; simpl; tauto].
    rewrite Z.add_0_r.
    rewrite !releases_cons, R. cbn [is_release]. now rewrite Z.eqb_refl.
  - inversion Hb as [|? ? Hv Hb']; subst. cbn [app stop_loop length].
    unfold bind at 1, emit at 1. rewrite Hv.
    destruct (IH (k + 1)%Z (fst w, (snd w ++ [SelectKb k true])%list) Hb')
      as [new [E [R [I1 I2]]]].
    cbn [fst snd] in E. rewrite E, <- app_assoc.
    exists ([SelectKb k true] ++ new)%list. split; [reflexivity|].
    split; [|split; apply in_or_app; now right].
    rewrite releases_app.
    replace (k + Z.of_nat (S (length before)))%Z
      with (k + 1 + Z.of_nat (length before))%Z by lia.
    rewrite R. reflexivity.
Qed.

Lemma stop_scan_releases_main (before after : list stop_view)
  (view : stop_view) (c : ascii) (id parent : string) (pid : Z) (w : world) :
  globalscanid view = Some (String c id) ->
  py_int (ovas_pid view) = Ok pid ->
  process view = Some parent ->
  Forall (fun v => globalscanid v = None) before ->
  Forall (fun v => globalscanid v = None) after ->
  exists new,
    stop_scan (before ++ view :: after) w
    = (Ok tt, (fst w, (snd w ++ new)%list)) /\
    releases (Z.of_nat (length before)) new = 1%nat.
Proof.
  intros Hg Hp Hpr Hb Ha.
  destruct (stop_loop_releases_main view after c id parent pid Hg Hp Hpr Ha
              before 0%Z w Hb) as [new [E [R _]]].
  exists new. split; [exact E|exact R].
Qed.

(* ================================================================= *)
(** ** VT Metadata Cache *)

Lemma get_remove_other {V} (d : dict V) (k k' : string) :
  k' <> k -> get (remove d k) k' = get d k'.
Proof.
  intros N. induction d as [|[k0 v] d IH]; simpl; [reflexivity|].
  destruct (String.eqb_spec k0 k) as [->|N0].
  - rewrite IH. destruct (String.eqb_spec k k'); [congruence|reflexivity].
  - simpl. now rewrite IH.
Qed.

Lemma mem_remove_other {V} (d : dict V) (k k' : string) :
  k' <> k -> mem (remove d k) k' = mem d k'.
Proof. intros N. unfold mem. now rewrite get_remove_other. Qed.

Lemma pop_mem {V} (d d' : dict V) (k k' : string) (v : V) :
  pop d k = Ok (v, d') -> k' <> k -> mem d' k' = mem d k'.
Proof.
  unfold pop. destruct (get d k); [|discriminate].
  intros H N. inversion H; subst. now apply mem_remove_other.
Qed.

Lemma pop_if_present_mem {V} (d d' : dict V) (k k' : string) (x : option V) :
  pop_if_present d k = (x, d') -> k' <> k -> mem d' k' = mem d k'.
Proof.
  unfold pop_if_present. destruct (get d k); intros H N; inversion H; subst.
  - now apply mem_remove_other.
  - reflexivity.
Qed.

Lemma tracks_start {V} (md : dict V) : tracks md md [].
Proof. intros k _. reflexivity. Qed.

Lemma tracks_pop {V} (md d d' : dict V) popped (k : string) (v : V) :
  tracks md d popped -> pop d k = Ok (v, d') -> tracks md d' (k :: popped).
Proof.
  intros T E k' H. simpl in H. apply orb_false_iff in H. destruct H as [N H].
  rewrite (pop_mem _ _ _ _ _ E); [now apply T|].
  intros ->. now rewrite String.eqb_refl in N.
Qed.

Lemma tracks_pop_if_present {V} (md d d' : dict V) popped (k : string)
  (x : option V) :
  tracks md d popped -> pop_if_present d k = (x, d') ->
  tracks md d' (k :: popped).
Proof.
  intros T E k' H. simpl in H. apply orb_false_iff in H. destruct H as [N H].
  rewrite (pop_if_present_mem _ _ _ _ _ E); [now apply T|].
  intros ->. now rewrite String.eqb_refl in N.
Qed.

Lemma tracks_skip {V} (md d : dict V) popped (k : string) :
  tracks md d popped -> tracks md d (k :: popped).
Proof.
  intros T k' H. simpl in H. apply orb_false_iff in H. now apply T.
Qed.

Lemma pop_raise_mem {V} (d : dict V) (k : string) (e : exn) :
  pop d k = Raise e -> mem d k = false /\ e = KeyError k.
Proof.
  unfold pop, mem. destruct (get d k); [discriminate|]. now inversion 1.
Qed.

(** The steps of [read_vt], with [T] tracking the keys popped so far. *)
Ltac track_pop T key :=
  match goal with
  | |- context [pop ?d key] =>
      let E := fresh "E" in
      destruct (pop d key) as [[? ?]|?] eqn:E;
      [apply (tracks_pop _ _ _ _ _ _ T) in E; clear T; rename E into T|]
  end.

Ltac track_pop_if_present T key :=
  match goal with
  | |- context [pop_if_present ?d key] =>
      let E := fresh "E" in
      destruct (pop_if_present d key) as [? ?] eqn:E;
      apply (tracks_pop_if_present _ _ _ _ _ _ T) in E;
      clear T; rename E into T
  end.

(** A [pop] cannot raise on a key that the metadata has and that was not
    popped before. *)
Ltac absurd_pop T :=
  match goal with
  | E : pop _ ?k = Raise _ |- _ =>
      apply pop_raise_mem in E; destruct E as [E _];
      first [ rewrite (T k eq_refl) in E; congruence | congruence ]
  end.

(** From ['summary'] to ['qod']. *)
Ltac track_optional_fields T :=
  track_pop_if_present T "summary";
  track_pop_if_present T "impact";
  track_pop_if_present T "affected";
  track_pop_if_present T "insight";
  track_pop_if_present T "solution";
  match goal with
  | |- context [match ?o with
                | Some _ => pop_if_present _ "solution_type"
                | None => _
                end] =>
      destruct o;
      [ track_pop_if_present T "solution_type"
      | apply (tracks_skip _ _ _ "solution_type") in T ]
  end;
  track_pop_if_present T "vuldetect";
  track_pop_if_present T "qod_type";
  match goal with
  | |- context [match ?o with
                | Some _ => _
                | None => pop_if_present _ "qod"
                end] =>
      destruct o;
      [ apply (tracks_skip _ _ _ "qod") in T
      | track_pop_if_present T "qod" ]
  end.

(** The severity vector, when [V] says that one of its two keys is in
    the metadata. *)
Ltac track_vector T V :=
  match goal with
  | |- context [mem ?d "severity_base_vector"] =>
      let Hv := fresh "Hv" in
      destruct (mem d "severity_base_vector") eqn:Hv;
      [ track_pop T "severity_base_vector"; [|absurd_pop T]
      | rewrite (T "severity_base_vector" eq_refl) in Hv;
        destruct V as [V|V]; [congruence|];
        track_pop T "cvss_base_vector"; [|absurd_pop T] ]
  end.

(** An entry with ['severity_type'] is never read: some [pop] before the
    test raises, or the test does. *)
Lemma read_vt_severity_type (nvti : nvticache) (oids : dict string)
  (vt_id : string) (w : world) :
  mem (get_nvt_metadata nvti vt_id) "severity_type" = true ->
  exists e, read_vt nvti oids vt_id w = (Raise e, w).
Proof.
  intros S. pose proof (tracks_start (get_nvt_metadata nvti vt_id)) as T.
  unfold read_vt, bind, lift, raise, ret.
  track_pop T "name"; [|eexists; reflexivity].
  track_pop T "creation_date"; [|eexists; reflexivity].
  track_pop T "last_modification"; [|eexists; reflexivity].
  track_optional_fields T;
    match goal with
    | |- context [mem ?d "severity_base_vector"] =>
        destruct (mem d "severity_base_vector");
        [ track_pop T "severity_base_vector"
        | track_pop T "cvss_base_vector" ]
    end;
    try (eexists; reflexivity);
    rewrite (T "severity_type" eq_refl), S; eexists; reflexivity.
Qed.

Lemma read_vt_name_error (nvti : nvticache) (oids : dict string)
  (vt_id : string) (w : world) :
  let md := get_nvt_metadata nvti vt_id in
  mem md "severity_type" = true ->
  mem md "name" = true ->
  mem md "creation_date" = true ->
  mem md "last_modification" = true ->
  mem md "severity_base_vector" = true \/ mem md "cvss_base_vector" = true ->
  read_vt nvti oids vt_id w = (Raise (NameError "custom"), w).
Proof.
  intros md S N C L V. pose proof (tracks_start md) as T.
  unfold read_vt, bind, lift, raise, ret. fold md.
  track_pop T "name"; [|absurd_pop T].
  track_pop T "creation_date"; [|absurd_pop T].
  track_pop T "last_modification"; [|absurd_pop T].
  track_optional_fields T; track_vector T V;
    now rewrite (T "severity_type" eq_refl), S.
Qed.

Lemma read_vt_quiet (nvti : nvticache) (oids : dict string) (vt_id : string) :
  quiet silent (fun _ => True) (read_vt nvti oids vt_id).
Proof. unfold read_vt. cbv zeta. quiet_tac. Qed.

Lemma read_vt_pure (nvti : nvticache) (oids : dict string) (vt_id : string)
  (w w' : world) (r : result vt) :
  read_vt nvti oids vt_id w = (r, w') -> w' = w.
Proof.
  intros H. apply read_vt_quiet in H; [|exact I].
  destruct H as [D [l [T F]]]. destruct l as [|e l]; [|discriminate].
  rewrite app_nil_r in T. destruct w, w'. simpl in *. congruence.
Qed.

Lemma load_vt_feed_state valid_oid nvti oids vt_id (w w' : world) r :
  load_vt valid_oid nvti oids vt_id w = (r, w') -> same_feed_state w w'.
Proof.
  unfold load_vt. intros H. apply bind_inv in H.
  destruct H as [(entry & w1 & E & H) | (e & H & _)];
    [apply read_vt_pure in E|apply read_vt_pure in H]; subst;
    [|now split].
  unfold bind, gets, set_vts, modify, emit, ret in H.
  destruct (add_vt _ _ _ _) as [code table]. cbn [fst snd] in H.
  destruct (Z.eqb code (-1)), (Z.eqb code (-2)); inversion H; now split.
Qed.

Lemma load_loop_feed_state valid_oid nvti oids :
  forall items w w' r,
    load_loop valid_oid nvti oids items w = (r, w') -> same_feed_state w w'.
Proof.
  induction items as [|[f oid] items IH]; intros w w' r H.
  - inversion H. now split.
  - cbn [load_loop] in H. apply bind_inv in H.
    destruct H as [(u & w1 & E & H) | (e & H & _)].
    + apply load_vt_feed_state in E. apply IH in H.
      destruct E, H. split; congruence.
    + now apply load_vt_feed_state in H.
Qed.

Lemma load_vt_severity_type valid_oid nvti oids vt_id (w : world) :
  mem (get_nvt_metadata nvti vt_id) "severity_type" = true ->
  exists e, load_vt valid_oid nvti oids vt_id w = (Raise e, w).
Proof.
  intros S. destruct (read_vt_severity_type nvti oids vt_id w S) as [e E].
  exists e. unfold load_vt, bind. now rewrite E.
Qed.

Lemma load_loop_ok valid_oid nvti oids :
  forall items w w',
    load_loop valid_oid nvti oids items w = (Ok tt, w') ->
    forall f oid, In (f, oid) items ->
      mem (get_nvt_metadata nvti oid) "severity_type" = false.
Proof.
  induction items as [|[f0 oid0] items IH]; intros w w' H f oid Hin;
    [contradiction|].
  cbn [load_loop] in H. apply bind_inv in H.
  destruct H as [(u & w1 & E & H) | (e & _ & Habs)]; [|discriminate].
  destruct Hin as [Heq|Hin]; [|eapply IH; eauto].
  inversion Heq; subst.
  destruct (mem (get_nvt_metadata nvti oid) "severity_type") eqn:S;
    [|reflexivity].
  destruct (load_vt_severity_type valid_oid nvti oids oid w S) as [e E'].
  congruence.
Qed.

Lemma load_loop_name_error valid_oid nvti oids f oid after :
  let md := get_nvt_metadata nvti oid in
  mem md "severity_type" = true ->
  mem md "name" = true ->
  mem md "creation_date" = true ->
  mem md "last_modification" = true ->
  mem md "severity_base_vector" = true \/ mem md "cvss_base_vector" = true ->
  forall before w w1,
    load_loop valid_oid nvti oids before w = (Ok tt, w1) ->
    load_loop valid_oid nvti oids (before ++ (f, oid) :: after) w
    = (Raise (NameError "custom"), w1).
Proof.
  intros md S N C L V.
  induction before as [|[f0 oid0] before IH]; intros w w1 H.
  - inversion H; subst. cbn [app load_loop]. unfold load_vt, bind.
    now rewrite (read_vt_name_error nvti oids oid w1 S N C L V).
  - cbn [app load_loop] in *. apply bind_inv in H.
    destruct H as [(u & w2 & E & H) | (e & _ & Habs)]; [|discriminate].
    unfold bind at 1. rewrite E. now apply IH.
Qed.

Lemma read_vt_returns (nvti : nvticache) (oids : dict string)
  (vt_id : string) (w : world) :
  let md := get_nvt_metadata nvti vt_id in
  well_formed md ->
  mem md "severity_type" = false ->
  exists entry, read_vt nvti oids vt_id w = (Ok entry, w).
Proof.
  intros md [N [C [L V]]] S. pose proof (tracks_start md) as T.
  unfold read_vt, bind, lift, raise, ret. fold md.
  track_pop T "name"; [|absurd_pop T].
  track_pop T "creation_date"; [|absurd_pop T].
  track_pop T "last_modification"; [|absurd_pop T].
  track_optional_fields T; track_vector T V;
    rewrite (T "severity_type" eq_refl), S;
    repeat match goal with
           | |- context [pop_if_present ?d ?k] =>
               destruct (pop_if_present d k)
           end;
    eexists; reflexivity.
Qed.

Lemma load_vt_returns valid_oid nvti oids vt_id (w : world) :
  well_formed (get_nvt_metadata nvti vt_id) ->
  mem (get_nvt_metadata nvti vt_id) "severity_type" = false ->
  exists w', load_vt valid_oid nvti oids vt_id w = (Ok tt, w').
Proof.
  intros W S. destruct (read_vt_returns nvti oids vt_id w W S) as [entry E].
  unfold load_vt. unfold bind at 1. rewrite E.
  unfold bind, gets, set_vts, modify, emit, ret.
  destruct (add_vt _ _ _ _) as [code table]. cbn [fst snd].
  destruct (Z.eqb code (-1)), (Z.eqb code (-2)); eexists; reflexivity.
Qed.

Lemma load_loop_returns valid_oid nvti oids :
  forall items w,
    (forall f oid, In (f, oid) items ->
       well_formed (get_nvt_metadata nvti oid) /\
       mem (get_nvt_metadata nvti oid) "severity_type" = false) ->
    exists w', load_loop valid_oid nvti oids items w = (Ok tt, w').
Proof.
  induction items as [|[f oid] items IH]; intros w H.
  - eexists. reflexivity.
  - destruct (H f oid (or_introl eq_refl)) as [W S].
    destruct (load_vt_returns valid_oid nvti oids oid w W S) as [w1 E].
    cbn [load_loop]. unfold bind. rewrite E. apply IH.
    intros f' oid' Hin. apply (H f' oid'). now right.
Qed.

(** C10, the claim as stated fails: the error of an entry with
    ['severity_type'] is not always the one of the undefined name.  An
    entry that has the field but no ['name'] makes [load_vts] raise the
    [KeyError] of [_custom.pop('name')], which comes first in the loop
    body; the bulk load is aborted all the same. *)
Lemma load_vts_severity_type_key_error :
  In ("filename:ssh_detect.nasl", broken_oid)
    (dict_of_pairs (get_oids nameless_nvti)) /\
  mem (get_nvt_metadata nameless_nvti broken_oid) "severity_type" = true /\
  load_vts openvas_oid nameless_nvti (idle_daemon [] None, [])
  = (Raise (KeyError "name"),
     (idle_daemon [] None, [LogDebug "Loading vts in memory."])).
Proof.
  split; [now left|]. split; [reflexivity|]. vm_compute. reflexivity.
Qed.

(** C10, amended: [load_vts] returns normally only if no enumerated VT has
    ['severity_type'] in its metadata; if one has, [load_vts] raises, and
    the cached feed version and the pending flag are left as they were;
    at the first such VT, when it and the entries before it have the
    fields [load_vts] pops without a test, the error is the [NameError]
    for the unbound name [custom], raised at that entry: the entries
    before it were loaded, and the world is the one they left, so that
    neither this entry nor a later one is added. *)
Theorem load_vts_severity_type (valid_oid : string -> bool)
  (nvti : nvticache) (w : world) :
  let oids := dict_of_pairs (get_oids nvti) in
  let md := get_nvt_metadata nvti in
  (forall w', load_vts valid_oid nvti w = (Ok tt, w') ->
     forall f oid, In (f, oid) oids -> mem (md oid) "severity_type" = false) /\
  ((exists f oid, In (f, oid) oids /\ mem (md oid) "severity_type" = true) ->
   exists e w',
     load_vts valid_oid nvti w = (Raise e, w') /\ same_feed_state w w') /\
  (forall before f oid after,
     oids = (before ++ (f, oid) :: after)%list ->
     (forall f' oid', In (f', oid') before ->
        well_formed (md oid') /\ mem (md oid') "severity_type" = false) ->
     well_formed (md oid) ->
     mem (md oid) "severity_type" = true ->
     exists w1,
       load_loop valid_oid nvti oids before
         (fst w, (snd w ++ [LogDebug "Loading vts in memory."])%list)
       = (Ok tt, w1) /\
       load_vts valid_oid nvti w = (Raise (NameError "custom"), w1)).
Proof.
  intros oids md.
  set (w0 := (fst w, (snd w ++ [LogDebug "Loading vts in memory."])%list)).
  assert (Run : forall r w',
             load_vts valid_oid nvti w = (r, w') ->
             (exists w1, load_loop valid_oid nvti oids oids w0 = (Ok tt, w1)
                         /\ r = Ok tt) \/
             (exists e, load_loop valid_oid nvti oids oids w0 = (Raise e, w')
                        /\ r = Raise e)).
  { intros r w'. unfold load_vts. unfold bind at 1, emit at 1.
    fold oids w0. unfold bind at 1.
    destruct (load_loop valid_oid nvti oids oids w0) as [[[]|e] w1] eqn:E.
    - intros H. left. exists w1. split; [reflexivity|].
      unfold bind, set_vts_version, set_pending_feed, modify, emit in H.
      now inversion H.
    - intros H. inversion H; subst. right. eauto. }
  split; [|split].
  - intros w' H f oid Hin. destruct (Run _ _ H) as [[w1 [E _]]|[e [_ Habs]]];
      [|discriminate].
    eapply load_loop_ok; eauto.
  - intros [f [oid [Hin S]]].
    destruct (load_vts valid_oid nvti w) as [r w'] eqn:H.
    destruct (Run _ _ eq_refl) as [[w1 [E _]]|[e [E ->]]].
    + pose proof (load_loop_ok _ _ _ _ _ _ E f oid Hin) as S'.
      fold md in S'. congruence.
    + exists e, w'. split; [reflexivity|].
      apply load_loop_feed_state in E. exact E.
  - intros before f oid after Hoids Hbefore [N [C [L V]]] S.
    destruct (load_loop_returns valid_oid nvti oids before w0 Hbefore)
      as [w1 Hb].
    exists w1. split; [exact Hb|].
    pose proof (load_loop_name_error valid_oid nvti oids f oid after
                  S N C L V before w0 w1 Hb) as X.
    rewrite <- Hoids in X.
    unfold load_vts. unfold bind at 1, emit at 1. fold oids w0.
    unfold bind at 1. now rewrite X.
Qed.

Lemma load_vts_severity_type_witness :
  exists d',
    load_vts openvas_oid broken_nvti (idle_daemon [] None, [])
    = (Raise (NameError "custom"),
       (d', [LogDebug "Loading vts in memory."])) /\
    keys (vts d') = [example_oid] /\
    vts_version d' = None /\ pending_feed d' = None.
Proof.
  destruct (proj2 (proj2 (load_vts_severity_type openvas_oid broken_nvti
                            (idle_daemon [] None, [])))
              [ ("filename:ping_host.nasl", example_oid) ]
              "filename:ssh_detect.nasl" broken_oid [] eq_refl)
    as [w1 [Hb H]].
  - intros f' oid' [E|[]]. inversion E; subst.
    repeat split; try reflexivity. right. reflexivity.
  - repeat split; try reflexivity. left. reflexivity.
  - reflexivity.
  - vm_compute in Hb. inversion Hb; subst. eexists. split; [exact H|].
    repeat split.
Defined.

(** A feed without the field loads, and the load sets the version and
    clears the flag. *)
Example load_vts_sound_feed :
  exists d' new,
    load_vts openvas_oid sound_nvti (idle_daemon [] None, [])
    = (Ok tt, (d', new)) /\
    keys (vts d') = [example_oid] /\
    vts_version d' = Some "201811011500" /\
    pending_feed d' = Some false.
Proof. eexists. eexists. split; [vm_compute; reflexivity|]. repeat split. Qed.

Lemma any_alive_true (processes : dict bool) : any_alive processes true = true.
Proof. induction processes as [|[id [|]] ps IH]; simpl; auto. Qed.

Lemma any_alive_In (processes : dict bool) (scan_id : string) (b : bool) :
  In (scan_id, true) processes -> any_alive processes b = true.
Proof.
  revert b. induction processes as [|[id alive] ps IH]; intros b; simpl;
    [tauto|].
  intros [E|H].
  - inversion E; subst. apply any_alive_true.
  - now apply IH.
Qed.

Lemma option_string_eqb_neq (a b : option string) :
  a <> b -> option_string_eqb a b = false.
Proof.
  destruct a as [x|], b as [y|]; simpl; intros N; try reflexivity;
    [|congruence].
  destruct (String.eqb_spec x y); congruence.
Qed.

(** With the flag set and a scan running a tick changes nothing. *)
Lemma check_feed_flag_set valid_oid nvti (d : daemon) (trace : list event) :
  pending_feed d = Some true ->
  any_alive (scan_processes d) false = true ->
  check_feed valid_oid nvti (d, trace) = (Ok tt, (d, trace)).
Proof.
  intros F A. unfold check_feed, bind, gets, ret. cbn [fst snd].
  rewrite A, F. cbn [flag_set andb negb fst snd]. now rewrite F.
Qed.

Lemma scheduler_ticks_flag_set valid_oid :
  forall observed d trace,
    pending_feed d = Some true ->
    Forall (fun o => exists scan_id, In (scan_id, true) (fst o)) observed ->
    exists d',
      scheduler_ticks valid_oid observed (d, trace) = (Ok tt, (d', trace)) /\
      vts d' = vts d /\ pending_feed d' = Some true /\
      vts_version d' = vts_version d.
Proof.
  induction observed as [|[processes nvti] observed IH]; intros d trace F A.
  - exists d. repeat split; auto.
  - inversion A as [|? ? [scan_id Hin] A']; subst. cbn [fst] in Hin.
    cbn [scheduler_ticks]. unfold bind at 1, set_scan_processes, modify.
    cbn [fst snd]. unfold bind at 1, scheduler.
    set (d1 := mk_daemon (vts d) (vts_version d) (pending_feed d)
                 (main_kbindex d) processes).
    rewrite (check_feed_flag_set valid_oid nvti d1 trace F
               (any_alive_In _ _ false Hin)).
    destruct (IH d1 trace F A') as [d' [E [V [P R]]]].
    exists d'. rewrite E. repeat split; auto.
Qed.

(** C3: with a scan process alive and a cached feed version that differs
    from the store's, a tick of [check_feed] returns normally, leaves the
    VT table as it is and leaves the pending flag set; it assigns the
    flag once if it was not set and not at all if it was; and any further
    ticks during which some scan process is alive change neither the
    table nor the flag and emit nothing, so the flag is not assigned
    again. *)
Theorem check_feed_defers_reload (valid_oid : string -> bool)
  (nvti : nvticache) (d : daemon) (trace : list event) :
  (exists scan_id, In (scan_id, true) (scan_processes d)) ->
  vts_version d <> get_feed_version nvti ->
  exists d' new,
    check_feed valid_oid nvti (d, trace) = (Ok tt, (d', (trace ++ new)%list)) /\
    vts d' = vts d /\
    pending_feed d' = Some true /\
    length (filter is_set_pending new)
    = (if flag_set (pending_feed d) then 0 else 1)%nat /\
    forall observed,
      Forall (fun o => exists scan_id, In (scan_id, true) (fst o)) observed ->
      exists d'',
        scheduler_ticks valid_oid observed (d', (trace ++ new)%list)
        = (Ok tt, (d'', (trace ++ new)%list)) /\
        vts d'' = vts d /\ pending_feed d'' = Some true.
Proof.
  intros [scan_id Hin] Stale.
  pose proof (any_alive_In _ _ false Hin) as A.
  pose proof (option_string_eqb_neq _ _ Stale) as S.
  assert (Later : forall d' tr,
             vts d' = vts d -> pending_feed d' = Some true ->
             forall observed,
               Forall (fun o => exists scan_id, In (scan_id, true) (fst o))
                 observed ->
               exists d'',
                 scheduler_ticks valid_oid observed (d', tr)
                 = (Ok tt, (d'', tr)) /\
                 vts d'' = vts d /\ pending_feed d'' = Some true).
  { intros d' tr V F observed O.
    destruct (scheduler_ticks_flag_set valid_oid observed d' tr F O)
      as [d'' [E [V' [F' _]]]].
    exists d''. repeat split; congruence. }
  unfold check_feed, set_pending_feed, modify, emit, bind, gets, ret.
  cbn [fst snd]. rewrite A.
  destruct (flag_set (pending_feed d)) eqn:F; cbn [andb negb fst snd].
  - rewrite F. cbn [negb]. exists d, []. rewrite app_nil_r.
    assert (F' : pending_feed d = Some true)
      by (destruct (pending_feed d) as [[|]|]; simpl in F; congruence).
    repeat split; auto.
  - rewrite S. cbn [negb andb fst snd]. rewrite F. cbn [negb fst snd].
    rewrite <- app_assoc. cbn [app].
    eexists. eexists. split; [reflexivity|].
    repeat split. now apply Later.
Qed.

Lemma check_feed_defers_reload_witness :
  exists d' new,
    check_feed openvas_oid sound_nvti (running_daemon, [])
    = (Ok tt, (d', new)) /\
    vts d' = example_table /\
    pending_feed d' = Some true /\
    length (filter is_set_pending new) = 1%nat.
Proof.
  destruct (check_feed_defers_reload openvas_oid sound_nvti running_daemon [])
    as [d' [new [E [V [P [C _]]]]]].
  - exists "scan-1". simpl. tauto.
  - discriminate.
  - exists d', new. auto.
Defined.

(** Once no scan runs, the stale table is dropped and loaded afresh. *)
Example check_feed_reloads_when_idle :
  exists d' new,
    check_feed openvas_oid sound_nvti
      (mk_daemon [] (Some "201810010800") (Some true) None
         [ ("scan-0", false) ], [])
    = (Ok tt, (d', new)) /\
    keys (vts d') = [example_oid] /\
    vts_version d' = Some "201811011500" /\
    pending_feed d' = Some false.
Proof. eexists. eexists. split; [vm_compute; reflexivity|]. repeat split. Qed.

(* ================================================================= *)
(** ** Scan Preference Encoder: parameters *)

Lemma existsb_eqb_In (t : string) (l : list string) :
  existsb (String.eqb t) l = true <-> In t l.
Proof.
  rewrite existsb_exists. split.
  - intros [x [Hin E]]. apply String.eqb_eq in E. now subst.
  - intros H. exists t. split; [exact H|apply String.eqb_refl].
Qed.

Lemma eq_str_spec (v : pyval) (s : string) :
  eq_str v s = true <-> v = VStr s.
Proof.
  destruct v; simpl; try (split; [discriminate|discriminate]).
  rewrite String.eqb_eq. split; congruence.
Qed.

Lemma check_param_type_accepts (v : pyval) (t : string) :
  check_param_type v t = Ok None <->
  (In t string_like_types /\ is_str v = true) \/
  (t = "checkbox" /\ (v = VStr "yes" \/ v = VStr "no")) \/
  (t = "integer" /\ exists z, py_int v = Ok z).
Proof.
  unfold check_param_type.
  destruct (existsb (String.eqb t) string_like_types) eqn:L.
  - apply existsb_eqb_In in L. destruct (is_str v) eqn:Sv; cbn [andb].
    + split; [intros _; left; now split|reflexivity].
    + assert (Nc : String.eqb t "checkbox" = false)
        by (simpl in L; decompose [or] L; subst; try reflexivity;
            contradiction).
      assert (Ni : String.eqb t "integer" = false)
        by (simpl in L; decompose [or] L; subst; try reflexivity;
            contradiction).
      rewrite Nc, Ni. cbn [andb]. split; [discriminate|].
      intros [[_ H]|[[E _]|[E _]]]; subst; discriminate.
  - assert (NL : ~ In t string_like_types)
      by (rewrite <- existsb_eqb_In; congruence).
    cbn [andb]. destruct (String.eqb_spec t "checkbox") as [->|Nc].
    + cbn [andb]. destruct (eq_str v "yes" || eq_str v "no") eqn:Y.
      * split; [|reflexivity]. intros _. right. left. split; [reflexivity|].
        apply orb_true_iff in Y. now rewrite !eq_str_spec in Y.
      * cbn [String.eqb Ascii.eqb Bool.eqb]. split; [discriminate|].
        intros [[H _]|[[_ H]|[E _]]]; [contradiction| |discriminate].
        rewrite <- !eq_str_spec, <- orb_true_iff in H. congruence.
    + cbn [andb]. destruct (String.eqb_spec t "integer") as [->|Ni].
      * destruct (py_int v) as [z|e] eqn:P.
        -- split; [|reflexivity]. intros _. right. right. eauto.
        -- split.
           ++ destruct e; discriminate.
           ++ intros [[H _]|[[E _]|[_ [z E]]]];
                [contradiction|discriminate|discriminate].
      * split; [discriminate|].
        intros [[H _]|[[E _]|[E _]]]; contradiction.
Qed.

(** What one iteration of the inner loop does to the records and to the
    log, for a parameter the VT declares with a type. *)
Lemma params_loop_declared vtid nm pid v rest acc (w : world) entry decl :
  get (vts (fst w)) vtid = Some entry ->
  get (vt_params entry) pid = Some decl ->
  param_type_of decl <> "" ->
  let ty := param_type_of decl in
  let acc' := (acc ++ [param_record nm ty pid v])%list in
  params_loop vtid nm ((pid, v) :: rest) acc w =
  match check_param_type v (type_aux_of pid ty) with
  | Ok None => params_loop vtid nm rest acc' w
  | Ok (Some _) =>
      params_loop vtid nm rest acc'
        (fst w, (snd w ++ [LogDebug (type_mismatch_message
                                       (type_aux_of pid ty) v)])%list)
  | Raise e => (Raise e, w)
  end.
Proof.
  intros Ht Hp Hn ty acc'. cbn [params_loop].
  unfold get_vt_param_type, bind at 1 2, gets at 1. rewrite Ht, Hp.
  unfold ret at 1. fold ty.
  destruct ty as [|c ty'] eqn:Ety; [contradiction|].
  unfold bind at 1, lift at 1.
  destruct (check_param_type v _) as [[one|]|e]; reflexivity.
Qed.

Lemma params_loop_undeclared vtid nm pid v rest acc (w : world) entry :
  get (vts (fst w)) vtid = Some entry ->
  (forall decl, get (vt_params entry) pid = Some decl ->
                param_type_of decl = "") ->
  params_loop vtid nm ((pid, v) :: rest) acc w =
  params_loop vtid nm rest acc
    (fst w, (snd w ++ [LogDebug ("The vt parameter " ++ pid ++ " for "
                                   ++ vtid ++ " could not be loaded.")])%list).
Proof.
  intros Ht Hp. cbn [params_loop].
  unfold get_vt_param_type, bind at 1 2, gets at 1. rewrite Ht.
  destruct (get (vt_params entry) pid) as [decl|].
  - unfold ret at 1. rewrite (Hp decl eq_refl). reflexivity.
  - reflexivity.
Qed.

Lemma params_loop_trace vtid nm items acc (w w' : world) r :
  params_loop vtid nm items acc w = (r, w') ->
  fst w' = fst w /\ forall e, In e (snd w) -> In e (snd w').
Proof.
  intros H. apply (params_loop_quiet (fun _ => True)) in H; [|exact I].
  destruct H as [D [l [T _]]]. split; [exact D|].
  intros e He. rewrite T. apply in_or_app. now left.
Qed.

Lemma params_loop_records vtid nm entry :
  forall items acc (w w' : world) res,
    get (vts (fst w)) vtid = Some entry ->
    params_loop vtid nm items acc w = (Ok res, w') ->
    exists new,
      res = (acc ++ new)%list /\
      forall pid v decl,
        In (pid, v) items ->
        get (vt_params entry) pid = Some decl ->
        param_type_of decl <> "" ->
        In (param_record nm (param_type_of decl) pid v) new /\
        (check_param_type v (type_aux_of pid (param_type_of decl))
         = Ok (Some 1%Z) ->
         In (LogDebug (type_mismatch_message
                         (type_aux_of pid (param_type_of decl)) v))
            (snd w')).
Proof.
  induction items as [|[pid0 v0] items IH]; intros acc w w' res Ht H.
  - inversion H; subst. exists []. rewrite app_nil_r. split; [reflexivity|].
    intros ? ? ? [].
  - destruct (get (vt_params entry) pid0) as [decl0|] eqn:Hp0.
    2:{ rewrite (params_loop_undeclared _ _ _ _ _ _ _ entry Ht) in H
          by (intros ? ?; congruence).
        apply IH in H; [|exact Ht]. destruct H as [new [-> Hnew]].
        exists new. split; [reflexivity|].
        intros pid v decl [E|Hin] Hp Hn; [|now apply Hnew].
        inversion E; subst. congruence. }
    destruct (String.eqb_spec (param_type_of decl0) "") as [E0|N0].
    { rewrite (params_loop_undeclared _ _ _ _ _ _ _ entry Ht) in H
        by (intros ? ?; congruence).
      apply IH in H; [|exact Ht]. destruct H as [new [-> Hnew]].
      exists new. split; [reflexivity|].
      intros pid v decl [E|Hin] Hp Hn; [|now apply Hnew].
      inversion E; subst. congruence. }
    rewrite (params_loop_declared _ _ _ _ _ _ _ entry decl0 Ht Hp0 N0) in H.
    destruct (check_param_type v0 _) as [[one|]|e] eqn:Hc; [| |discriminate].
    + pose proof (params_loop_trace _ _ _ _ _ _ _ H) as [_ Mono].
      apply IH in H; [|exact Ht]. destruct H as [new [-> Hnew]].
      eexists (_ :: new). rewrite <- app_assoc. split; [reflexivity|].
      intros pid v decl [E|Hin] Hp Hn.
      * inversion E; subst. assert (decl = decl0) by congruence. subst.
        split; [now left|]. intros _. apply Mono. cbn [snd].
        apply in_or_app. right. now left.
      * destruct (Hnew pid v decl Hin Hp Hn) as [R L].
        split; [now right|exact L].
    + apply IH in H; [|exact Ht]. destruct H as [new [-> Hnew]].
      eexists (_ :: new). rewrite <- app_assoc. split; [reflexivity|].
      intros pid v decl [E|Hin] Hp Hn.
      * inversion E; subst. assert (decl = decl0) by congruence. subst.
        split; [now left|]. congruence.
      * destruct (Hnew pid v decl Hin Hp Hn) as [R L].
        split; [now right|exact L].
Qed.

Lemma vts_loop_records :
  forall items l acc (w w' : world) rl rp,
    vts_loop items l acc w = (Ok (rl, rp), w') ->
    exists new,
      rp = (acc ++ new)%list /\
      forall vtid ps entry pid v decl,
        In (vtid, ps) items -> In (pid, v) ps ->
        get (vts (fst w)) vtid = Some entry ->
        get (vt_params entry) pid = Some decl ->
        param_type_of decl <> "" ->
        In (param_record (name entry) (param_type_of decl) pid v) new /\
        (check_param_type v (type_aux_of pid (param_type_of decl))
         = Ok (Some 1%Z) ->
         In (LogDebug (type_mismatch_message
                         (type_aux_of pid (param_type_of decl)) v))
            (snd w')).
Proof.
  induction items as [|[vtid0 ps0] items IH]; intros l acc w w' rl rp H.
  - inversion H; subst. exists []. rewrite app_nil_r. split; [reflexivity|].
    intros ? ? ? ? ? ? [].
  - cbn [vts_loop] in H. unfold bind at 1, gets at 1 in H.
    destruct (get (vts (fst w)) vtid0) as [entry0|] eqn:Ht0; [|discriminate].
    apply bind_inv in H. destruct H as [(acc1 & w1 & E & H)|(e & _ & Habs)];
      [|discriminate].
    pose proof (params_loop_trace _ _ _ _ _ _ _ E) as [D1 _].
    pose proof (vts_loop_quiet (fun _ => True) _ _ _ _ _ _ I H)
      as [_ [late [T _]]].
    destruct (params_loop_records _ _ entry0 _ _ _ _ _ Ht0 E)
      as [new1 [-> Hnew1]].
    apply IH in H. destruct H as [new2 [-> Hnew2]].
    exists (new1 ++ new2)%list. rewrite app_assoc. split; [reflexivity|].
    intros vtid ps entry pid v decl [Eq|Hin] Hp Ht Hd Hn.
    + inversion Eq; subst. assert (entry = entry0) by congruence. subst.
      destruct (Hnew1 pid v decl Hp Hd Hn) as [R L]. split.
      * apply in_or_app. now left.
      * intros Hc. rewrite T. apply in_or_app. left. now apply L.
    + rewrite <- D1 in Ht.
      destruct (Hnew2 vtid ps entry pid v decl Hin Hp Ht Hd Hn) as [R L].
      split; [apply in_or_app; now right|exact L].
Qed.

Lemma check_param_type_returns (v : pyval) (t : string) :
  v <> VNone ->
  check_param_type v t = Ok None \/ check_param_type v t = Ok (Some 1%Z).
Proof.
  intros N. unfold check_param_type.
  destruct (_ && is_str v); [now left|].
  destruct (_ && _); [now left|].
  destruct (String.eqb t "integer"); [|now right].
  destruct v as [| | |s]; simpl; try contradiction; try (now left).
  destruct (int_of_string s); [now left|now right].
Qed.

Lemma params_loop_returns vtid nm entry :
  forall items acc (w : world),
    get (vts (fst w)) vtid = Some entry ->
    Forall (fun pv => snd pv <> VNone) items ->
    exists res w', params_loop vtid nm items acc w = (Ok res, w').
Proof.
  induction items as [|[pid v] items IH]; intros acc w Ht Hv.
  - eexists. eexists. reflexivity.
  - inversion Hv as [|? ? Nv Hv']; subst. cbn [snd] in Nv.
    destruct (get (vt_params entry) pid) as [decl|] eqn:Hp.
    2:{ rewrite (params_loop_undeclared _ _ _ _ _ _ _ entry Ht)
          by (intros ? ?; congruence).
        now apply IH. }
    destruct (String.eqb_spec (param_type_of decl) "") as [E0|N0].
    { rewrite (params_loop_undeclared _ _ _ _ _ _ _ entry Ht)
        by (intros ? ?; congruence).
      now apply IH. }
    rewrite (params_loop_declared _ _ _ _ _ _ _ entry decl Ht Hp N0).
    destruct (check_param_type_returns v
                (type_aux_of pid (param_type_of decl)) Nv) as [-> | ->];
      now apply IH.
Qed.

Lemma vts_loop_returns :
  forall items l acc (w : world),
    Forall (fun sel => mem (vts (fst w)) (fst sel) = true /\
                       Forall (fun pv => snd pv <> VNone) (snd sel)) items ->
    exists res w', vts_loop items l acc w = (Ok res, w').
Proof.
  induction items as [|[vtid ps] items IH]; intros l acc w Hs.
  - eexists. eexists. reflexivity.
  - inversion Hs as [|? ? [Hm Hv] Hs']; subst. cbn [fst snd] in Hm, Hv.
    cbn [vts_loop]. unfold bind at 1, gets at 1. unfold mem in Hm.
    destruct (get (vts (fst w)) vtid) as [entry|] eqn:Ht; [|discriminate].
    destruct (params_loop_returns vtid (name entry) entry ps acc w Ht Hv)
      as [acc1 [w1 E]].
    unfold bind. rewrite E.
    apply IH. apply params_loop_trace in E. destruct E as [-> _]. exact Hs'.
Qed.

Lemma group_by_family_returns (table : dict vt) :
  forall oids families,
    (forall oid, In oid oids -> mem table oid = true) ->
    exists r, group_by_family table oids families = Ok r.
Proof.
  induction oids as [|oid oids IH]; intros families H; simpl; [eauto|].
  pose proof (H oid (or_introl eq_refl)) as Hm. unfold mem in Hm.
  destruct (get table oid); [|discriminate].
  apply IH. intros o Ho. apply H. now right.
Qed.

Lemma mem_keys {V} (d : dict V) (k : string) :
  In k (keys d) -> mem d k = true.
Proof.
  unfold mem. induction d as [|[k' v] d IH]; simpl; [tauto|].
  intros [->|H].
  - now rewrite String.eqb_refl.
  - destruct (String.eqb k' k); [reflexivity|now apply IH].
Qed.

Lemma filters_loop_returns (families : families_t) :
  forall filters l,
    Forall (fun f => exists key value, split "=" f = [key; value]) filters ->
    exists r, filters_loop families filters l = Ok r.
Proof.
  induction filters as [|f filters IH]; intros l H; cbn [filters_loop];
    [eauto|].
  inversion H as [|? ? [key [value E]] H']; subst. rewrite E.
  destruct (families_get families (Some value));
    [destruct (String.eqb key "family")|]; now apply IH.
Qed.

Lemma process_vts_returns (sel : vt_selection) (w : world) filters :
  vt_groups sel = Some filters ->
  Forall (fun f => exists key value, split "=" f = [key; value]) filters ->
  Forall (fun s => mem (vts (fst w)) (fst s) = true /\
                   Forall (fun pv => snd pv <> VNone) (snd s))
    (vt_single sel) ->
  exists res w', process_vts sel w = (Ok res, w').
Proof.
  intros Hg Hf Hs. unfold process_vts. rewrite Hg.
  assert (G : exists l, match filters with
                        | [] => ret []
                        | _ :: _ => get_vts_in_groups filters
                        end w = (Ok l, w)).
  { destruct filters as [|f fs]; [eexists; reflexivity|].
    unfold get_vts_in_groups, bind, gets, lift.
    destruct (group_by_family_returns (vts (fst w)) (keys (vts (fst w))) []
                (fun oid => mem_keys _ oid)) as [fam ->].
    destruct (filters_loop_returns fam (f :: fs) [] Hf) as [l ->]. eauto. }
  destruct G as [l G]. unfold bind. rewrite G. now apply vts_loop_returns.
Qed.

(** C5, the claim as stated fails: the VT declares the parameter
    [timeout] with the type [entry], and the value is a string, yet the
    check [process_vts] makes is against [integer]: it fails and is
    logged (the record is still emitted). *)
Lemma process_vts_timeout_checked_as_integer :
  get_vt_param_type example_oid "timeout" (idle_daemon example_table None, [])
  = (Ok (Some "entry"), (idle_daemon example_table None, [])) /\
  In "entry" string_like_types /\
  is_str (VStr "soon") = true /\
  check_param_type (VStr "soon") (type_aux_of "timeout" "entry")
  = Ok (Some 1%Z) /\
  process_vts timeout_selection (idle_daemon example_table None, [])
  = (Ok ([example_oid], [("Ping Host[entry]:timeout", "soon")]),
     (idle_daemon example_table None,
      [LogDebug "Expected integer type for parameter value soon"])).
Proof. repeat split; simpl; tauto. Qed.

(** C5, amended: [check_param_type] accepts a value for a type exactly
    when the type is one of entry/file/password/radio/sshlogin and the
    value is a string, or the type is checkbox and the value is ["yes"]
    or ["no"], or the type is integer and [int] reads the value.  For a
    parameter a selected VT declares with a non-empty type,
    [process_vts] makes the check against [integer] when the parameter
    id is [timeout] and against the declared type otherwise; it emits
    the record of the parameter, under the declared type, whatever the
    check says, and logs the mismatch when the check fails.  And
    [process_vts] does return when the filters have the form
    [key=value], the selected OIDs are in the table and no value is
    [None]. *)
Theorem process_vts_checks_and_emits :
  (forall v t,
     check_param_type v t = Ok None <->
     (In t string_like_types /\ is_str v = true) \/
     (t = "checkbox" /\ (v = VStr "yes" \/ v = VStr "no")) \/
     (t = "integer" /\ exists z, py_int v = Ok z)) /\
  (forall sel (w w' : world) vts_list vts_params vtid ps entry pid v decl,
     process_vts sel w = (Ok (vts_list, vts_params), w') ->
     In (vtid, ps) (vt_single sel) -> In (pid, v) ps ->
     get (vts (fst w)) vtid = Some entry ->
     get (vt_params entry) pid = Some decl ->
     param_type_of decl <> "" ->
     let type_aux := type_aux_of pid (param_type_of decl) in
     In (param_record (name entry) (param_type_of decl) pid v) vts_params /\
     (check_param_type v type_aux = Ok (Some 1%Z) ->
      In (LogDebug (type_mismatch_message type_aux v)) (snd w'))) /\
  (forall sel (w : world) filters,
     vt_groups sel = Some filters ->
     Forall (fun f => exists key value, split "=" f = [key; value]) filters ->
     Forall (fun s => mem (vts (fst w)) (fst s) = true /\
                      Forall (fun pv => snd pv <> VNone) (snd s))
       (vt_single sel) ->
     exists res w', process_vts sel w = (Ok res, w')).
Proof.
  split; [exact check_param_type_accepts|]. split; [|exact process_vts_returns].
  intros sel w w' vts_list vts_params vtid ps entry pid v decl H Hs Hp Ht Hd Hn.
  unfold process_vts in H.
  destruct (vt_groups sel) as [vtgroups|]; [|discriminate].
  apply bind_inv in H. destruct H as [(l0 & w1 & E & H)|(e & _ & Habs)];
    [|discriminate].
  assert (w1 = w) as ->.
  { destruct vtgroups; [now inversion E|].
    unfold get_vts_in_groups, bind, gets, lift in E.
    destruct (group_by_family _ _ _); now inversion E. }
  destruct (vts_loop_records _ _ _ _ _ _ _ H) as [new [-> Hnew]].
  exact (Hnew vtid ps entry pid v decl Hs Hp Ht Hd Hn).
Qed.

Lemma process_vts_checks_and_emits_witness :
  exists vts_list vts_params w',
    process_vts checkbox_selection (idle_daemon example_table None, [])
    = (Ok (vts_list, vts_params), w') /\
    In ("Ping Host[checkbox]:1", "maybe") vts_params /\
    In (LogDebug "Expected checkbox type for parameter value maybe") (snd w').
Proof.
  destruct process_vts_checks_and_emits as [_ [Emit Returns]].
  destruct (Returns checkbox_selection (idle_daemon example_table None, [])
              [ "family=Port scanners" ] eq_refl)
    as [[vts_list vts_params] [w' E]].
  - repeat constructor. exists "family", "Port scanners". reflexivity.
  - repeat constructor; discriminate.
  - exists vts_list, vts_params, w'. split; [exact E|].
    destruct (Emit checkbox_selection _ w' vts_list vts_params example_oid
                [ ("1", VStr "maybe") ] example_vt "1" (VStr "maybe")
                (mk_vt_param "checkbox" "Use nmap" "yes") E)
      as [R L]; [simpl; tauto|simpl; tauto|reflexivity|reflexivity
                |discriminate|].
    split; [exact R|exact (L eq_refl)].
Defined.

(* ================================================================= *)
(** ** Progress reporting: [update_progress] *)

Section FloatArithmetic.

Local Open Scope Z_scope.





































End FloatArithmetic.




(** A target of two hosts: a host that has launched all its plugins
    brings the target to fifty per cent. *)
Example update_progress_two_hosts :
  update_progress float_of_count hosts_by_comma example_uuid
    "192.168.0.17,192.168.0.18" "10/10" (idle_daemon [] None, [])
  = (Ok tt,
     (idle_daemon [] None,
      [SetScanTargetProgress example_uuid "192.168.0.17,192.168.0.18"
         (float_of_int 50)])).
Proof. vm_compute. reflexivity. Qed.

(** A message without a total, and one whose total is zero, set no
    progress. *)
Example update_progress_dropped :
  update_progress float_of_count hosts_by_comma example_uuid
    "192.168.0.17" "12" (idle_daemon [] None, [])
  = (Ok tt, (idle_daemon [] None, [])) /\
  update_progress float_of_count hosts_by_comma example_uuid
    "192.168.0.17" "12/0" (idle_daemon [] None, [])
  = (Ok tt, (idle_daemon [] None, [])).
Proof. split; vm_compute; reflexivity. Qed.

(* ================================================================= *)
(** ** Scan Execution Controller: the anatomy of a run *)

Lemma add_params_eq (id : string) :
  forall params (w : world),
    add_params id params w
    = (Ok tt,
       (fst w,
        (snd w ++ map (fun elem => AddSingleItem (scanprefs id)
                         [VStr (fst elem ++ "|||" ++ snd elem)]) params)%list)).
Proof.
  induction params as [|p params IH]; intros w.
  - cbn. rewrite app_nil_r. now destruct w.
  - cbn [add_params map]. unfold bind at 1, emit at 1. rewrite IH.
    cbn [fst snd]. now rewrite <- app_assoc.
Qed.

Lemma wait_while_new_eq :
  forall n (w : world),
    wait_while_new n w
    = (Ok tt, (fst w, (snd w ++ repeat (Sleep 1) n)%list)).
Proof.
  induction n as [|n IH]; intros w.
  - cbn. rewrite app_nil_r. now destruct w.
  - cbn [wait_while_new repeat]. unfold bind at 1, emit at 1. rewrite IH.
    cbn [fst snd]. now rewrite <- app_assoc.
Qed.

(** [exec_scan], once the feed and port checks are passed and a
    selection is given, as a function of what [process_vts] returns. *)
Lemma exec_scan_started (env : scan_env) (nvti : nvticache)
  (scan_id target : string) (d : daemon) (trace : list event)
  (sel : vt_selection) :
  flag_set (pending_feed d) = false ->
  truthy (scan_ports env) = true ->
  get_scan_vts env = Selected sel ->
  exec_scan env nvti scan_id target (d, trace) =
  match process_vts sel
          (with_main d (db_index env),
           (trace ++ allocation_events env scan_id target)%list) with
  | (Raise e, w2) => (Raise e, w2)
  | (Ok (nvts_list, nvts_params), w2) =>
      let w3 := (fst w2,
                 (snd w2 ++ launch_events env nvti scan_id target
                              nvts_list nvts_params)%list) in
      match spawn env with
      | None => (Ok (Some SpawnFailed), w3)
      | Some ovas_pid =>
          let w4 := (fst w3,
                     (snd w3 ++ [ LogDebug ("pid = " ++ string_of_Z ovas_pid);
                                  AddSingleItem "internal/ovas_pid"
                                    [VInt ovas_pid] ])%list) in
          match still_new env with
          | None => (Ok None, w4)
          | Some n =>
              poll (uuid4 env) (ticks env) false
                (fst w4, (snd w4 ++ repeat (Sleep 1) n)%list)
          end
      end
  end.
Proof.
  intros F Pt V.
  unfold exec_scan, allocation_events, launch_events, plugin_events,
    with_main,
    self_main_kbindex, set_main_kbindex, modify, bind, gets, emit, lift,
    raise, ret.
  cbn [fst snd main_kbindex]. rewrite F, Pt, V. cbn [negb].
  destruct (build_credentials_returns (scan_credentials env)) as [prefs ->].
  destruct (scan_credentials env) as [|c cs]; cbn [fst snd main_kbindex];
    rewrite <- ?app_assoc; cbn [app];
    (destruct (process_vts sel _) as [[[nvts_list nvts_params]|e] w2];
     [|reflexivity]);
    rewrite add_params_eq; cbn [fst snd];
    (destruct (spawn env) as [ovas_pid|];
     [destruct (still_new env) as [n|]; [rewrite wait_while_new_eq|]|]);
    cbn [fst snd];
    repeat (progress (rewrite <- ?app_assoc; cbn [app])); reflexivity.
Qed.

Lemma sweep_event_cons main id view views e :
  sweep_event main id views e = true ->
  sweep_event main id (view :: views) e = true.
Proof.
  destruct e; simpl; auto; intros H; apply andb_true_iff in H;
    destruct H as [-> ->]; simpl; apply orb_true_r.
Qed.

Lemma sweep_events (id : string) (main : Z) :
  forall views b,
    quiet (sweep_event main id views) (has_main main) (sweep id views b).
Proof.
  induction views as [|view views IH]; intros b; cbn [sweep].
  - quiet_tac.
  - assert (IH' : forall b, quiet (sweep_event main id (view :: views))
                              (has_main main) (sweep id views b)).
    { intros b' w r w' Hm H. eapply emits_only_weaken; [|eapply IH; eauto].
      intros e. apply sweep_event_cons. }
    apply quiet_bind_main.
    destruct (Z.eqb_spec (kb_index view) main) as [Ei|Ni]; [apply IH'|].
    apply quiet_bind; [apply quiet_emit; reflexivity|intros _].
    destruct (kb_scan_id view) as [[|c s]|] eqn:Hid; try apply IH'.
    destruct (String.eqb_spec (String c s) id) as [Eid|Nid]; [|apply IH'].
    assert (Own : sweep_event main id (view :: views)
                    (PullHost (kb_index view)) = true).
    { unfold sweep_event, own_attached. cbn [existsb].
      rewrite Z.eqb_refl, Hid. subst id. cbn.
      rewrite String.eqb_refl, Ascii.eqb_refl.
      destruct (Z.eqb_spec (kb_index view) main);
        [contradiction|reflexivity]. }
    unfold pull_host.
    apply quiet_bind;
      [apply quiet_bind; [apply quiet_emit; exact Own|intros _];
       destruct (kb_pull_error view); quiet_tac|intros _].
    apply quiet_bind; [|intros _; apply IH'].
    destruct (kb_finished view) eqn:Hf; quiet_tac.
    apply quiet_emit. unfold sweep_event, own_finished.
    cbn [existsb]. rewrite Z.eqb_refl, Hid, Hf. subst id. cbn.
    rewrite String.eqb_refl, Ascii.eqb_refl.
    destruct (Z.eqb_spec (kb_index view) main); [contradiction|reflexivity].
Qed.

Lemma poll_event_of_sweep main id t given e :
  stop_all t = false ->
  sweep_event main id (dbs t) e = true ->
  poll_event main id (t :: given) e = true.
Proof.
  intros Hs. destruct e; simpl; auto; intros H; apply andb_true_iff in H.
  - destruct H as [_ ->]. rewrite Hs. simpl. apply orb_true_r.
  - destruct H as [-> ->]. rewrite Hs. reflexivity.
Qed.

Lemma poll_event_cons main id t given e :
  poll_event main id given e = true ->
  poll_event main id (t :: given) e = true.
Proof.
  destruct e; simpl; auto; intros H.
  - apply orb_true_iff in H.
    destruct H as [-> | ->]; [reflexivity|]. now rewrite !orb_true_r.
  - apply andb_true_iff in H. destruct H as [-> ->].
    now rewrite orb_true_r.
Qed.

Lemma poll_events (id : string) (main : Z) :
  forall given b,
    quiet (poll_event main id given) (has_main main) (poll id given b).
Proof.
  induction given as [|t given IH]; intros b; cbn [poll].
  - quiet_tac.
  - apply quiet_bind; [apply quiet_emit; reflexivity|intros _].
    apply quiet_bind_main.
    apply quiet_bind; [apply quiet_emit; reflexivity|intros _].
    destruct (stop_all t) eqn:Hs; [quiet_tac|].
    apply quiet_bind; [apply quiet_emit; reflexivity|intros _].
    apply quiet_bind.
    + intros w r w' Hm H. eapply emits_only_weaken;
        [|eapply sweep_events; eauto].
      intros e. now apply poll_event_of_sweep.
    + intros [|].
      * apply quiet_bind_main.
        apply quiet_bind; [|intros; quiet_tac].
        apply quiet_emit. simpl. now rewrite Z.eqb_refl.
      * intros w r w' Hm H. eapply emits_only_weaken; [|eapply IH; eauto].
        intros e. apply poll_event_cons.
Qed.

(** A sweep entered with [no_id_found] false leaves it false. *)
Lemma sweep_false (id : string) :
  forall views (w w' : world) b,
    sweep id views false w = (Ok b, w') -> b = false.
Proof.
  induction views as [|view views IH]; intros w w' b H.
  - now inversion H.
  - cbn [sweep] in H. apply bind_inv in H.
    destruct H as [(main & w1 & _ & H)|(e & _ & Habs)]; [|discriminate].
    destruct (Z.eqb (kb_index view) main); [eauto|].
    apply bind_inv in H.
    destruct H as [(u & w2 & _ & H)|(e & _ & Habs)]; [|discriminate].
    destruct (kb_scan_id view) as [[|c s]|]; eauto.
    destruct (String.eqb (String c s) id); eauto.
    apply bind_inv in H.
    destruct H as [(u1 & w3 & _ & H)|(e & _ & Habs)]; [|discriminate].
    apply bind_inv in H.
    destruct H as [(u2 & w4 & _ & H)|(e & _ & Habs)]; [|discriminate].
    eauto.
Qed.

(** The loop leaves by its [break] in its second iteration at the
    earliest. *)
Lemma poll_finished_length (id : string) (given : list tick) (w w' : world) :
  poll id given false w = (Ok (Some Finished), w') ->
  (2 <= length given)%nat.
Proof.
  destruct given as [|t [|t' given]]; [discriminate| |simpl; lia].
  intros H. cbn [poll] in H.
  apply bind_inv in H.
  destruct H as [(u & w1 & _ & H)|(e & _ & Habs)]; [|discriminate].
  apply bind_inv in H.
  destruct H as [(main & w2 & _ & H)|(e & _ & Habs)]; [|discriminate].
  apply bind_inv in H.
  destruct H as [(u3 & w3 & _ & H)|(e & _ & Habs)]; [|discriminate].
  destruct (stop_all t); [discriminate|].
  apply bind_inv in H.
  destruct H as [(u4 & w4 & _ & H)|(e & _ & Habs)]; [|discriminate].
  apply bind_inv in H.
  destruct H as [(nf & w5 & E & H)|(e & _ & Habs)]; [|discriminate].
  apply sweep_false in E. subst nf. discriminate.
Qed.

Lemma poll_release_count (id : string) (main : Z) :
  forall given b (w w' : world) r,
    has_main main (fst w) ->
    poll id given b w = (r, w') ->
    releases main (snd w')
    = (releases main (snd w) + if is_finished r then 1 else 0)%nat.
Proof.
  induction given as [|t given IH]; intros b w w' r Hm H.
  - inversion H; subst. simpl. lia.
  - cbn [poll] in H.
    unfold bind at 1, emit at 1 in H.
    unfold bind at 1, self_main_kbindex at 1, bind at 1, gets at 1 in H.
    cbn [fst snd] in H. red in Hm. rewrite Hm in H.
    unfold ret at 1, bind at 1, emit at 1 in H. cbn [fst snd] in H.
    destruct (stop_all t).
    + inversion H; subst. cbn [fst snd is_finished].
      rewrite !releases_snoc_other by reflexivity. lia.
    + unfold bind at 1, emit at 1 in H. cbn [fst snd] in H.
      unfold bind at 1 in H.
      match type of H with context [sweep ?i ?v ?b ?w0] =>
        destruct (sweep i v b w0) as [[nf|e] w2] eqn:Es;
        pose proof (sweep_quiet i main v b w0 _ _ Hm Es) as Sq
      end;
      pose proof (emits_only_releases _ _ _ Sq) as Rq;
      destruct Sq as [D2 _]; cbn [fst snd] in D2, Rq;
      rewrite !releases_snoc_other in Rq by reflexivity.
      * destruct nf.
        -- unfold bind at 1, self_main_kbindex at 1, bind at 1, gets at 1 in H.
           rewrite D2, Hm in H. unfold ret at 1, bind at 1, emit at 1 in H.
           inversion H; subst. cbn [fst snd is_finished].
           rewrite releases_snoc_same, Rq. lia.
        -- apply IH in H; [|red; now rewrite D2]. now rewrite Rq in H.
      * inversion H; subst. cbn [is_finished]. lia.
Qed.

Lemma process_vts_trace (sel : vt_selection) (w w' : world) r :
  process_vts sel w = (r, w') ->
  fst w' = fst w /\
  exists logs, snd w' = (snd w ++ logs)%list /\
               forallb is_log_debug logs = true.
Proof. intros H. exact (process_vts_quiet (fun _ => True) sel w r w' I H). Qed.

(** The anatomy of a run of [exec_scan] that passed the checks and has a
    selection: the allocation, the debug messages of [process_vts], and,
    when [process_vts] returned, the launch, the pid, the seconds spent
    waiting and the events of the polling loop. *)
Lemma exec_scan_anatomy (env : scan_env) (nvti : nvticache)
  (scan_id target : string) (d : daemon) (trace : list event)
  (sel : vt_selection) (r : result (option exit)) (w' : world) :
  flag_set (pending_feed d) = false ->
  truthy (scan_ports env) = true ->
  get_scan_vts env = Selected sel ->
  exec_scan env nvti scan_id target (d, trace) = (r, w') ->
  fst w' = with_main d (db_index env) /\
  exists logs,
    forallb is_log_debug logs = true /\
    ((exists e, r = Raise e /\
                snd w' = (trace ++ allocation_events env scan_id target
                            ++ logs)%list) \/
     (exists nvts_list nvts_params post,
        process_vts sel (with_main d (db_index env),
                         (trace ++ allocation_events env scan_id target)%list)
        = (Ok (nvts_list, nvts_params),
           (with_main d (db_index env),
            (trace ++ allocation_events env scan_id target ++ logs)%list)) /\
        snd w' = (trace ++ allocation_events env scan_id target ++ logs
                    ++ launch_events env nvti scan_id target
                         nvts_list nvts_params ++ post)%list /\
        match spawn env with
        | None => r = Ok (Some SpawnFailed) /\ post = []
        | Some ovas_pid =>
            exists polled,
              post = (LogDebug ("pid = " ++ string_of_Z ovas_pid)
                      :: AddSingleItem "internal/ovas_pid" [VInt ovas_pid]
                      :: match still_new env with
                         | Some n => repeat (Sleep 1) n
                         | None => []
                         end ++ polled)%list /\
              forallb (poll_event (db_index env) (uuid4 env) (ticks env))
                polled = true /\
              releases (db_index env) polled
              = (if is_finished r then 1 else 0)%nat /\
              (is_finished r = true -> (2 <= length (ticks env))%nat)
        end)).
Proof.
  intros F Pt V H. rewrite (exec_scan_started _ _ _ _ _ _ _ F Pt V) in H.
  set (d1 := with_main d (db_index env)) in *.
  set (t1 := (trace ++ allocation_events env scan_id target)%list) in *.
  destruct (process_vts sel (d1, t1)) as [rp w2] eqn:Ep.
  destruct (process_vts_trace _ _ _ _ Ep) as [D2 [logs [T2 L2]]].
  cbn [fst snd] in D2, T2. destruct w2 as [d2 t2]. cbn [fst snd] in *.
  subst d2 t2.
  destruct rp as [[nvts_list nvts_params]|e].
  2:{ inversion H; subst. split; [reflexivity|]. exists logs.
      split; [exact L2|]. left. exists e. split; [reflexivity|].
      cbn [snd]. unfold t1. now rewrite <- app_assoc. }
  cbn [fst snd] in H.
  assert (Ep' : (Ok (nvts_list, nvts_params), (d1, (t1 ++ logs)%list))
                = (Ok (nvts_list, nvts_params),
                   (d1, (trace ++ allocation_events env scan_id target
                           ++ logs)%list)))
    by (unfold t1; now rewrite <- app_assoc).
  destruct (spawn env) as [ovas_pid|].
  2:{ inversion H; subst. split; [reflexivity|]. exists logs.
      split; [exact L2|]. right. exists nvts_list, nvts_params, [].
      split; [exact Ep'|]. rewrite app_nil_r. cbn [fst snd]. unfold t1.
      repeat (progress (rewrite <- ?app_assoc; cbn [app])). auto. }
  destruct (still_new env) as [n|].
  - match type of H with
    | poll ?i ?g ?b ?w0 = _ =>
        pose proof (poll_events i (db_index env) g b w0 r w' eq_refl H)
          as [D3 [polled [T3 Q3]]];
        pose proof (poll_release_count i (db_index env) g b w0 w' r
                      eq_refl H) as R3
    end.
    cbn [fst snd] in D3, T3, R3. split; [exact D3|]. exists logs.
    split; [exact L2|]. right. exists nvts_list, nvts_params.
    eexists. split; [exact Ep'|]. split.
    + rewrite T3. unfold t1.
      repeat (progress (rewrite <- ?app_assoc; cbn [app])). reflexivity.
    + exists polled. split; [reflexivity|]. split; [exact Q3|]. split.
      * rewrite T3, releases_app in R3. lia.
      * intros Fin. destruct r as [[[]|]|]; try discriminate.
        eapply poll_finished_length; eauto.
  - inversion H; subst. split; [reflexivity|]. exists logs.
    split; [exact L2|]. right. exists nvts_list, nvts_params.
    eexists. split; [exact Ep'|]. split.
    + cbn [fst snd]. unfold t1.
      repeat (progress (rewrite <- ?app_assoc; cbn [app])). reflexivity.
    + exists []. rewrite app_nil_r. repeat split; try reflexivity.
      discriminate.
Qed.

Lemma exec_scan_pending_eq env nvti scan_id target (d : daemon) trace :
  flag_set (pending_feed d) = true ->
  exec_scan env nvti scan_id target (d, trace)
  = (Ok (Some PendingFeedUpdate),
     (d, (trace ++ [ LogInfo (scan_id ++ ": There is a pending feed update. "
                                ++ "The scan can not be started.");
                     AddScanError scan_id "" target pending_feed_message ])
           %list)).
Proof.
  intros F. unfold exec_scan, bind, gets, emit, ret. cbn [fst snd].
  rewrite F. now rewrite <- app_assoc.
Qed.

Lemma exec_scan_no_ports_eq env nvti scan_id target (d : daemon) trace :
  flag_set (pending_feed d) = false ->
  truthy (scan_ports env) = false ->
  exec_scan env nvti scan_id target (d, trace)
  = (Ok (Some NoPortList),
     (d, (trace ++ [AddScanError scan_id "" target "No port list defined."])
           %list)).
Proof.
  intros F Pt. unfold exec_scan, bind, gets, emit, ret. cbn [fst snd].
  now rewrite F, Pt.
Qed.

Lemma exec_scan_empty_eq env nvti scan_id target (d : daemon) trace :
  flag_set (pending_feed d) = false ->
  truthy (scan_ports env) = true ->
  get_scan_vts env = EmptyStr ->
  exec_scan env nvti scan_id target (d, trace)
  = (Ok (Some NoVtsToRun),
     (with_main d (db_index env),
      (trace ++ allocation_events env scan_id target
         ++ [ ReleaseDb (db_index env);
              AddScanError scan_id "" target "No VTS to run." ])%list)).
Proof.
  intros F Pt V.
  unfold exec_scan, allocation_events, with_main, self_main_kbindex,
    set_main_kbindex, modify, bind, gets, emit, lift, raise, ret.
  cbn [fst snd main_kbindex]. rewrite F, Pt, V. cbn [negb].
  destruct (build_credentials_returns (scan_credentials env)) as [prefs ->].
  destruct (scan_credentials env) as [|c cs]; cbn [fst snd main_kbindex];
    repeat (progress (rewrite <- ?app_assoc; cbn [app])); reflexivity.
Qed.

Lemma existsb_forallb_false {A} (P Q : A -> bool) (l : list A) :
  (forall a, Q a = true -> P a = false) ->
  forallb Q l = true -> existsb P l = false.
Proof.
  intros H. induction l as [|a l IH]; simpl; [easy|].
  intros F. apply andb_true_iff in F. destruct F as [Fa Fl].
  now rewrite (H a Fa), IH.
Qed.

Lemma existsb_repeat_false {A} (P : A -> bool) (a : A) (n : nat) :
  P a = false -> existsb P (repeat a n) = false.
Proof. intros H. induction n; simpl; [reflexivity|now rewrite H]. Qed.

Lemma allocation_events_spec (P : event -> bool) env scan_id target :
  (forall k v, P (AddSingleItem k v) = false) ->
  (forall i, P (KbNew i) = false) ->
  existsb P (allocation_events env scan_id target) = false.
Proof.
  intros HA HK. unfold allocation_events. rewrite existsb_app.
  cbn [existsb]. rewrite !HA, HK. cbn [orb].
  destruct (scan_credentials env); [reflexivity|].
  destruct (build_credentials_as_prefs _); cbn [existsb];
    now rewrite ?HA.
Qed.

Lemma plugin_events_spec (P : event -> bool) env nvti scan_id target l p :
  (forall k v, P (AddSingleItem k v) = false) ->
  (forall a b c e, P (AddScanLog a b c e) = false) ->
  existsb P (plugin_events env nvti scan_id target l p) = false.
Proof.
  intros HA HL. unfold plugin_events. cbn [existsb]. rewrite HA.
  rewrite existsb_app. cbn [existsb]. rewrite !HL. cbn [orb].
  rewrite orb_false_r. induction p as [|x p IH]; simpl; [reflexivity|].
  now rewrite HA.
Qed.

Lemma poll_sleeps_app (l1 l2 : list event) :
  poll_sleeps (l1 ++ l2) = (poll_sleeps l1 + poll_sleeps l2)%nat.
Proof. unfold poll_sleeps. now rewrite filter_app, length_app. Qed.

Lemma emits_only_poll_sleeps (Q : event -> bool) (w w' : world) :
  emits_only Q w w' -> (poll_sleeps (snd w) <= poll_sleeps (snd w'))%nat.
Proof. intros [_ [l [-> _]]]. rewrite poll_sleeps_app. lia. Qed.

Lemma poll_sleeps_count (id : string) (main : Z) :
  forall given b (w w' : world) r,
    has_main main (fst w) ->
    poll id given b w = (r, w') ->
    (poll_sleeps (snd w)
     + match r with
       | Ok (Some Finished) => if b then 1 else 2
       | Ok (Some _) => 1
       | _ => 0
       end <= poll_sleeps (snd w'))%nat.
Proof.
  induction given as [|t given IH]; intros b w w' r Hm H.
  - inversion H; subst. lia.
  - cbn [poll] in H.
    unfold bind at 1, emit at 1 in H.
    unfold bind at 1, self_main_kbindex at 1, bind at 1, gets at 1 in H.
    cbn [fst snd] in H. red in Hm. rewrite Hm in H.
    unfold ret at 1, bind at 1, emit at 1 in H. cbn [fst snd] in H.
    destruct (stop_all t).
    + inversion H; subst. cbn [fst snd]. rewrite !poll_sleeps_app.
      cbn. lia.
    + unfold bind at 1, emit at 1 in H. cbn [fst snd] in H.
      unfold bind at 1 in H.
      match type of H with context [sweep ?i ?v ?b ?w0] =>
        destruct (sweep i v b w0) as [[nf|e] w2] eqn:Es;
        pose proof (sweep_quiet i main v b w0 _ _ Hm Es) as Sq
      end;
      pose proof (emits_only_poll_sleeps _ _ _ Sq) as Rq;
      destruct Sq as [D2 _]; cbn [fst snd] in D2, Rq;
      rewrite !poll_sleeps_app in Rq; cbn in Rq.
      * destruct nf.
        -- destruct b; [|apply sweep_false in Es; discriminate].
           unfold bind at 1, self_main_kbindex at 1, bind at 1, gets at 1 in H.
           rewrite D2, Hm in H. unfold ret at 1, bind at 1, emit at 1 in H.
           inversion H; subst. cbn [fst snd]. rewrite poll_sleeps_app. lia.
        -- apply IH in H; [|red; now rewrite D2].
           destruct r as [[[]|]|]; destruct b; lia.
      * inversion H; subst. lia.
Qed.

Lemma releases_existsb (index : Z) (l : list event) :
  existsb (is_release index) l = false -> releases index l = 0%nat.
Proof.
  unfold releases. induction l as [|e l IH]; simpl; [reflexivity|].
  destruct (is_release index e); [discriminate|auto].
Qed.

(** X1 (exec_scan): a run that ends in a spawn failure or in an
    exception has allocated its main KB, still records it as its main KB
    and has not released it. *)
Theorem exec_scan_failure_keeps_kb (env : scan_env) (nvti : nvticache)
  (scan_id target : string) (d d' : daemon) (trace : list event)
  (r : result (option exit)) :
  exec_scan env nvti scan_id target (d, []) = (r, (d', trace)) ->
  r = Ok (Some SpawnFailed) \/ (exists e, r = Raise e) ->
  In (KbNew (db_index env)) trace /\
  main_kbindex d' = Some (db_index env) /\
  releases (db_index env) trace = 0%nat.
Proof.
  intros H Hr.
  destruct (flag_set (pending_feed d)) eqn:F.
  { rewrite exec_scan_pending_eq in H by exact F. inversion H; subst.
    destruct Hr as [Hr|[e Hr]]; discriminate. }
  destruct (truthy (scan_ports env)) eqn:Pt.
  2:{ rewrite exec_scan_no_ports_eq in H by assumption. inversion H; subst.
      destruct Hr as [Hr|[e Hr]]; discriminate. }
  destruct (get_scan_vts env) as [|sel] eqn:V.
  { rewrite exec_scan_empty_eq in H by assumption. inversion H; subst.
    destruct Hr as [Hr|[e Hr]]; discriminate. }
  destruct (exec_scan_anatomy _ _ _ _ _ _ _ _ _ F Pt V H)
    as [D [logs [L Hcase]]].
  cbn [fst snd] in D, Hcase. subst d'.
  assert (A0 : releases (db_index env) (allocation_events env scan_id target)
               = 0%nat)
    by (apply releases_existsb, allocation_events_spec; reflexivity).
  assert (L0 : releases (db_index env) logs = 0%nat).
  { apply releases_existsb.
    apply (existsb_forallb_false _ is_log_debug); [now intros []|exact L]. }
  assert (K : forall rest,
             In (KbNew (db_index env))
               (allocation_events env scan_id target ++ rest))
    by (intros rest; apply in_or_app; left; simpl; tauto).
  destruct Hcase as [[e [-> T]]|[l [p [post [_ [T Hpost]]]]]];
    cbn [app] in T; rewrite T.
  - split; [apply K|]. split; [reflexivity|].
    rewrite !releases_app. lia.
  - split; [apply K|]. split; [reflexivity|].
    assert (P0 : releases (db_index env)
                   (launch_events env nvti scan_id target l p) = 0%nat).
    { unfold launch_events. rewrite releases_app.
      rewrite (releases_existsb _ (plugin_events _ _ _ _ _ _))
        by (apply plugin_events_spec; reflexivity).
      reflexivity. }
    rewrite !releases_app, A0, L0, P0.
    destruct (spawn env) as [pid|].
    + destruct Hpost as [polled [-> [_ [R _]]]].
      rewrite !releases_cons, releases_app, R. cbn [is_release].
      rewrite (releases_existsb _ (match still_new env with
                                   | Some n => _ | None => _ end))
        by (destruct (still_new env);
            [now apply existsb_repeat_false|reflexivity]).
      destruct Hr as [->|[e ->]]; reflexivity.
    + destruct Hpost as [_ ->]. reflexivity.
Qed.

Lemma exec_scan_failure_keeps_kb_witness :
  releases 1
    (snd (snd (exec_scan (example_env select_example_oid None [idle_tick])
                 (empty_nvti None) "scan-1" "10.0.0.1"
                 (idle_daemon example_table None, [])))) = 0%nat.
Proof.
  refine (proj2 (proj2 (exec_scan_failure_keeps_kb
                          (example_env select_example_oid None [idle_tick])
                          (empty_nvti None) "scan-1" "10.0.0.1"
                          (idle_daemon example_table None) _ _
                          (Ok (Some SpawnFailed)) _ (or_introl eq_refl)))).
  vm_compute. reflexivity.
Defined.

(** X2 (exec_scan): the break of the polling loop is reached in its
    second iteration at the earliest: a run that finishes has slept two
    polling intervals of three seconds. *)
Theorem exec_scan_finishes_after_two_sweeps (env : scan_env)
  (nvti : nvticache) (scan_id target : string) (d d' : daemon)
  (trace : list event) :
  exec_scan env nvti scan_id target (d, []) = (Ok (Some Finished), (d', trace))
  -> (2 <= poll_sleeps trace)%nat /\ (2 <= length (ticks env))%nat.
Proof.
  intros H.
  destruct (flag_set (pending_feed d)) eqn:F.
  { rewrite exec_scan_pending_eq in H by exact F. discriminate. }
  destruct (truthy (scan_ports env)) eqn:Pt.
  2:{ rewrite exec_scan_no_ports_eq in H by assumption. discriminate. }
  destruct (get_scan_vts env) as [|sel] eqn:V.
  { rewrite exec_scan_empty_eq in H by assumption. discriminate. }
  rewrite (exec_scan_started _ _ _ _ _ _ _ F Pt V) in H.
  destruct (process_vts sel _) as [[[l p]|e] w2] eqn:Ep; [|discriminate].
  destruct (process_vts_trace sel _ _ _ Ep) as [D2 _].
  cbn [fst snd] in H, D2.
  destruct (spawn env) as [pid|]; [|discriminate].
  destruct (still_new env) as [n|]; [|discriminate].
  split.
  - apply (poll_sleeps_count _ (db_index env)) in H;
      [|red; cbn [fst]; now rewrite D2].
    cbn [snd] in H. lia.
  - eapply poll_finished_length; eauto.
Qed.

Lemma exec_scan_finishes_after_two_sweeps_witness :
  (2 <= poll_sleeps
          (snd (snd (exec_scan
                       (example_env select_example_oid (Some 4711%Z)
                          [busy_tick; idle_tick])
                       (empty_nvti None) "scan-1" "10.0.0.1"
                       (idle_daemon example_table None, [])))))%nat.
Proof.
  refine (proj1 (exec_scan_finishes_after_two_sweeps
                   (example_env select_example_oid (Some 4711%Z)
                      [busy_tick; idle_tick])
                   (empty_nvti None) "scan-1" "10.0.0.1"
                   (idle_daemon example_table None) _ _ _)).
  vm_compute. reflexivity.
Defined.

Lemma In_release_app (i : Z) (l1 l2 : list event) :
  existsb is_any_release l1 = false ->
  In (ReleaseDb i) (l1 ++ l2) -> In (ReleaseDb i) l2.
Proof.
  intros H Hin. apply in_app_or in Hin. destruct Hin as [Hin|Hin]; [|exact Hin].
  exfalso. assert (X : existsb is_any_release l1 = true)
    by (apply existsb_exists; exists (ReleaseDb i); auto).
  congruence.
Qed.

(** X3 (exec_scan): the only KBs a run releases are its main KB and KBs
    that a sweep of the polling loop found attached to this scan and
    finished. *)
Theorem exec_scan_releases_own_kbs (env : scan_env) (nvti : nvticache)
  (scan_id target : string) (d d' : daemon) (trace : list event)
  (r : result (option exit)) (i : Z) :
  exec_scan env nvti scan_id target (d, []) = (r, (d', trace)) ->
  In (ReleaseDb i) trace ->
  i = db_index env \/
  exists t view,
    In t (ticks env) /\ stop_all t = false /\ In view (dbs t) /\
    kb_index view = i /\ kb_scan_id view = Some (uuid4 env) /\
    kb_finished view = true.
Proof.
  intros H Hin.
  destruct (flag_set (pending_feed d)) eqn:F.
  { rewrite exec_scan_pending_eq in H by exact F. inversion H; subst.
    simpl in Hin. decompose [or] Hin; try discriminate; contradiction. }
  destruct (truthy (scan_ports env)) eqn:Pt.
  2:{ rewrite exec_scan_no_ports_eq in H by assumption. inversion H; subst.
      simpl in Hin. decompose [or] Hin; try discriminate; contradiction. }
  destruct (get_scan_vts env) as [|sel] eqn:V.
  { rewrite exec_scan_empty_eq in H by assumption.
    apply (f_equal (fun x => snd (snd x))) in H. cbn [snd] in H.
    rewrite <- H, app_nil_l in Hin. apply In_release_app in Hin;
      [|apply allocation_events_spec; reflexivity].
    simpl in Hin. destruct Hin as [E|[E|[]]]; [|discriminate].
    left. now inversion E. }
  destruct (exec_scan_anatomy _ _ _ _ _ _ _ _ _ F Pt V H)
    as [_ [logs [L Hcase]]].
  cbn [fst snd] in Hcase.
  assert (L0 : existsb is_any_release logs = false)
    by (apply (existsb_forallb_false _ is_log_debug); [now intros []|exact L]).
  assert (NoRel : forall l, In (ReleaseDb i) l ->
                             existsb is_any_release l = false -> False).
  { intros l0 Hl E. rewrite <- (app_nil_r l0) in Hl.
    now apply In_release_app in Hl. }
  destruct Hcase as [[e [_ T]]|[l [p [post [_ [T Hpost]]]]]];
    rewrite T, app_nil_l in Hin;
    (apply In_release_app in Hin;
     [|apply allocation_events_spec; reflexivity]).
  { exfalso. eapply NoRel; eauto. }
  apply In_release_app in Hin; [|exact L0].
  unfold launch_events in Hin. rewrite <- app_assoc in Hin.
  apply In_release_app in Hin; [|apply plugin_events_spec; reflexivity].
  cbn [app] in Hin. destruct Hin as [Hin|Hin]; [discriminate|].
  destruct (spawn env) as [pid|]; [|destruct Hpost as [_ ->]; contradiction].
  destruct Hpost as [polled [-> [Q _]]].
  destruct Hin as [Hin|[Hin|Hin]]; try discriminate.
  apply In_release_app in Hin;
    [|destruct (still_new env);
      [now apply existsb_repeat_false|reflexivity]].
  rewrite forallb_forall in Q. specialize (Q _ Hin). cbn [poll_event] in Q.
  apply orb_true_iff in Q. destruct Q as [Q|Q].
  - left. now apply Z.eqb_eq in Q.
  - right. apply existsb_exists in Q. destruct Q as [t [Ht Q]].
    apply andb_true_iff in Q. destruct Q as [Hs Q].
    apply existsb_exists in Q. destruct Q as [view [Hv Q]].
    apply andb_true_iff in Q. destruct Q as [Q Hf].
    apply andb_true_iff in Q. destruct Q as [Hi Hid].
    exists t, view. apply Z.eqb_eq in Hi.
    destruct (kb_scan_id view) as [s|]; [|discriminate].
    simpl in Hid. apply String.eqb_eq in Hid. subst s.
    destruct (stop_all t); [discriminate|]. auto 10.
Qed.

Lemma exec_scan_releases_own_kbs_witness :
  let env := example_env select_example_oid (Some 4711%Z)
               [busy_tick; idle_tick] in
  In (ReleaseDb 2)
     (snd (snd (exec_scan env (empty_nvti None) "scan-1" "10.0.0.1"
                  (idle_daemon example_table None, [])))) /\
  (2%Z = db_index env \/
   exists t view,
     In t (ticks env) /\ stop_all t = false /\ In view (dbs t) /\
     kb_index view = 2%Z /\ kb_scan_id view = Some (uuid4 env) /\
     kb_finished view = true).
Proof.
  intro env.
  assert (Hin : In (ReleaseDb 2)
     (snd (snd (exec_scan env (empty_nvti None) "scan-1" "10.0.0.1"
                  (idle_daemon example_table None, []))))).
  { vm_compute. repeat (try (left; reflexivity); right). }
  split; [exact Hin|].
  refine (exec_scan_releases_own_kbs env (empty_nvti None) "scan-1"
            "10.0.0.1" (idle_daemon example_table None) _ _ _ 2%Z _ Hin).
  vm_compute. reflexivity.
Defined.

Lemma In_skip {A} (P : A -> bool) (a : A) (l1 l2 : list A) :
  P a = true -> In a (l1 ++ l2) -> existsb P l1 = false -> In a l2.
Proof.
  intros Pa Hin E. apply in_app_or in Hin. destruct Hin as [Hin|Hin];
    [|exact Hin].
  exfalso. assert (X : existsb P l1 = true)
    by (apply existsb_exists; exists a; auto).
  congruence.
Qed.

(** X4 (exec_scan): a run forwards timestamps, results and status only
    from KBs that a sweep of the polling loop found attached to this
    scan, and never from its main KB. *)
Theorem exec_scan_pulls_own_kbs (env : scan_env) (nvti : nvticache)
  (scan_id target : string) (d d' : daemon) (trace : list event)
  (r : result (option exit)) (i : Z) :
  exec_scan env nvti scan_id target (d, []) = (r, (d', trace)) ->
  In (PullHost i) trace ->
  i <> db_index env /\
  exists t view,
    In t (ticks env) /\ stop_all t = false /\ In view (dbs t) /\
    kb_index view = i /\ kb_scan_id view = Some (uuid4 env).
Proof.
  intros H Hin.
  destruct (flag_set (pending_feed d)) eqn:F.
  { rewrite exec_scan_pending_eq in H by exact F. inversion H; subst.
    simpl in Hin. decompose [or] Hin; try discriminate; contradiction. }
  destruct (truthy (scan_ports env)) eqn:Pt.
  2:{ rewrite exec_scan_no_ports_eq in H by assumption. inversion H; subst.
      simpl in Hin. decompose [or] Hin; try discriminate; contradiction. }
  destruct (get_scan_vts env) as [|sel] eqn:V.
  { rewrite exec_scan_empty_eq in H by assumption.
    apply (f_equal (fun x => snd (snd x))) in H. cbn [snd] in H.
    rewrite <- H, app_nil_l in Hin.
    apply (In_skip is_pull) in Hin;
      [|reflexivity|apply allocation_events_spec; reflexivity].
    simpl in Hin. decompose [or] Hin; try discriminate; contradiction. }
  destruct (exec_scan_anatomy _ _ _ _ _ _ _ _ _ F Pt V H)
    as [_ [logs [L Hcase]]].
  cbn [fst snd] in Hcase.
  assert (L0 : existsb is_pull logs = false)
    by (apply (existsb_forallb_false _ is_log_debug); [now intros []|exact L]).
  destruct Hcase as [[e [_ T]]|[l [p [post [_ [T Hpost]]]]]];
    rewrite T, app_nil_l in Hin;
    (apply (In_skip is_pull) in Hin;
     [|reflexivity|apply allocation_events_spec; reflexivity]).
  { exfalso. rewrite <- (app_nil_r logs) in Hin.
    now apply (In_skip is_pull) in Hin. }
  apply (In_skip is_pull) in Hin; [|reflexivity|exact L0].
  unfold launch_events in Hin. rewrite <- app_assoc in Hin.
  apply (In_skip is_pull) in Hin;
    [|reflexivity|apply plugin_events_spec; reflexivity].
  cbn [app] in Hin. destruct Hin as [Hin|Hin]; [discriminate|].
  destruct (spawn env) as [pid|]; [|destruct Hpost as [_ ->]; contradiction].
  destruct Hpost as [polled [-> [Q _]]].
  destruct Hin as [Hin|[Hin|Hin]]; try discriminate.
  apply (In_skip is_pull) in Hin;
    [|reflexivity
     |destruct (still_new env);
      [now apply existsb_repeat_false|reflexivity]].
  rewrite forallb_forall in Q. specialize (Q _ Hin). cbn [poll_event] in Q.
  apply andb_true_iff in Q. destruct Q as [Nm Q].
  split; [intros ->; rewrite Z.eqb_refl in Nm; discriminate|].
  apply existsb_exists in Q. destruct Q as [t [Ht Q]].
  apply andb_true_iff in Q. destruct Q as [Hs Q].
  apply existsb_exists in Q. destruct Q as [view [Hv Q]].
  apply andb_true_iff in Q. destruct Q as [Hi Hid].
  exists t, view. apply Z.eqb_eq in Hi.
  destruct (kb_scan_id view) as [s|]; [|discriminate].
  simpl in Hid. apply String.eqb_eq in Hid. subst s.
  destruct (stop_all t); [discriminate|]. auto 10.
Qed.

Lemma exec_scan_pulls_own_kbs_witness :
  let env := example_env select_example_oid (Some 4711%Z)
               [busy_tick; idle_tick] in
  In (PullHost 2)
     (snd (snd (exec_scan env (empty_nvti None) "scan-1" "10.0.0.1"
                  (idle_daemon example_table None, [])))) /\
  2%Z <> db_index env /\
  exists t view,
    In t (ticks env) /\ stop_all t = false /\ In view (dbs t) /\
    kb_index view = 2%Z /\ kb_scan_id view = Some (uuid4 env).
Proof.
  intro env.
  assert (Hin : In (PullHost 2)
     (snd (snd (exec_scan env (empty_nvti None) "scan-1" "10.0.0.1"
                  (idle_daemon example_table None, []))))).
  { vm_compute. repeat (try (left; reflexivity); right). }
  split; [exact Hin|].
  refine (exec_scan_pulls_own_kbs env (empty_nvti None) "scan-1"
            "10.0.0.1" (idle_daemon example_table None) _ _ _ 2%Z _ Hin).
  vm_compute. reflexivity.
Defined.

(** The loop returns on the stop marker at the first iteration that
    reads it, and does nothing after reading it. *)
Lemma poll_stopped (id : string) (main : Z) :
  forall given b (w w' : world),
    has_main main (fst w) ->
    poll id given b w = (Ok (Some Stopped), w') ->
    exists before t after tr,
      given = (before ++ t :: after)%list /\
      stop_all t = true /\
      forallb (fun t => negb (stop_all t)) before = true /\
      snd w' = (tr ++ [Sleep 3; KbConnect main])%list.
Proof.
  induction given as [|t given IH]; intros b w w' Hm H; [discriminate|].
  cbn [poll] in H. apply bind_inv in H.
  destruct H as [(u1 & w1 & E1 & H)|(e & _ & Habs)]; [|discriminate].
  unfold emit in E1. inversion E1; subst w1. clear E1.
  apply bind_inv in H.
  destruct H as [(main' & w2 & E2 & H)|(e & _ & Habs)]; [|discriminate].
  unfold self_main_kbindex, bind, gets, ret, raise in E2. cbn [fst snd] in E2.
  red in Hm. rewrite Hm in E2. inversion E2; subst main' w2. clear E2.
  apply bind_inv in H.
  destruct H as [(u3 & w3 & E3 & H)|(e & _ & Habs)]; [|discriminate].
  unfold emit in E3. cbn [fst snd] in E3. inversion E3; subst w3. clear E3.
  destruct (stop_all t) eqn:Hs.
  - inversion H; subst. exists [], t, given, (snd w).
    repeat split; auto. cbn [snd]. now rewrite <- app_assoc.
  - apply bind_inv in H.
    destruct H as [(u4 & w4 & E4 & H)|(e & _ & Habs)]; [|discriminate].
    unfold emit in E4. cbn [fst snd] in E4. inversion E4; subst w4. clear E4.
    apply bind_inv in H.
    destruct H as [(nf & w5 & E & H)|(e & _ & Habs)]; [|discriminate].
    destruct nf.
    + exfalso. apply bind_inv in H.
      destruct H as [(m6 & w6 & _ & H)|(e & _ & Habs)]; [|discriminate].
      apply bind_inv in H.
      destruct H as [(u7 & w7 & _ & H)|(e & _ & Habs)]; discriminate.
    + assert (Hm5 : has_main main (fst w5)).
      { apply (sweep_quiet id main) in E; [|exact Hm].
        destruct E as [F _]. red. rewrite F. exact Hm. }
      destruct (IH true w5 w' Hm5 H) as [before [t' [after [tr [G [S [B T]]]]]]].
      exists (t :: before), t', after, tr. subst given.
      repeat split; auto. cbn [forallb]. now rewrite Hs, B.
Qed.

(** X5 (exec_scan): a run returns on the stop marker only at an
    iteration of the polling loop that reads the marker, the first one
    to do so, and reading it is the last thing the run does: nothing is
    swept, forwarded or released afterwards. *)
Theorem exec_scan_stopped_on_marker (env : scan_env) (nvti : nvticache)
  (scan_id target : string) (d d' : daemon) (trace : list event) :
  exec_scan env nvti scan_id target (d, []) = (Ok (Some Stopped), (d', trace))
  ->
  exists before t after tr,
    ticks env = (before ++ t :: after)%list /\
    stop_all t = true /\
    forallb (fun t => negb (stop_all t)) before = true /\
    trace = (tr ++ [Sleep 3; KbConnect (db_index env)])%list.
Proof.
  intros H.
  destruct (flag_set (pending_feed d)) eqn:F.
  { rewrite exec_scan_pending_eq in H by exact F. discriminate. }
  destruct (truthy (scan_ports env)) eqn:Pt.
  2:{ rewrite exec_scan_no_ports_eq in H by assumption. discriminate. }
  destruct (get_scan_vts env) as [|sel] eqn:V.
  { rewrite exec_scan_empty_eq in H by assumption. discriminate. }
  rewrite (exec_scan_started _ _ _ _ _ _ _ F Pt V) in H.
  destruct (process_vts sel _) as [[[l p]|e] w2] eqn:Ep; [|discriminate].
  apply process_vts_trace in Ep. destruct Ep as [Fw _]. cbn [fst] in Fw.
  cbn zeta in H. destruct (spawn env) as [pid|]; [|discriminate].
  destruct (still_new env) as [n|]; [|discriminate].
  cbn [fst snd] in H.
  apply (poll_stopped (uuid4 env) (db_index env)) in H;
    [|cbn [fst]; rewrite Fw; reflexivity].
  exact H.
Qed.

Lemma exec_scan_stopped_on_marker_witness :
  exists before t after tr,
    [idle_tick; stop_tick; busy_tick] = (before ++ t :: after)%list /\
    stop_all t = true /\
    forallb (fun t => negb (stop_all t)) before = true /\
    snd (snd (exec_scan
                (example_env select_example_oid (Some 4711%Z)
                   [idle_tick; stop_tick; busy_tick])
                (empty_nvti None) "scan-1" "10.0.0.1"
                (idle_daemon example_table None, [])))
    = (tr ++ [Sleep 3; KbConnect 1])%list.
Proof.
  refine (exec_scan_stopped_on_marker
            (example_env select_example_oid (Some 4711%Z)
               [idle_tick; stop_tick; busy_tick])
            (empty_nvti None) "scan-1" "10.0.0.1"
            (idle_daemon example_table None) _ _ _).
  vm_compute. reflexivity.
Defined.

(* ================================================================= *)
(** ** Scan Preference Encoder: selection in closed form *)

Lemma option_string_eqb_eq (a b : option string) :
  option_string_eqb a b = true <-> a = b.
Proof.
  destruct a as [x|], b as [y|]; simpl; split; intros H;
    try discriminate; try reflexivity.
  - apply String.eqb_eq in H. now subst.
  - inversion H. apply String.eqb_refl.
Qed.

Lemma option_string_eqb_trans_l (a b c : option string) :
  option_string_eqb a b = true ->
  option_string_eqb a c = option_string_eqb b c.
Proof. intros H. apply option_string_eqb_eq in H. now subst. Qed.

Lemma families_get_append (F : families_t) (fam fam' : option string)
  (oid : string) :
  families_get (families_append F fam oid) fam' =
  if option_string_eqb fam fam'
  then Some (match families_get F fam' with
             | Some l => l ++ [oid]
             | None => [oid]
             end)%list
  else families_get F fam'.
Proof.
  induction F as [|[f oids] F IH]; cbn [families_append families_get].
  - destruct (option_string_eqb fam fam'); reflexivity.
  - destruct (option_string_eqb f fam) eqn:E; cbn [families_get].
    + rewrite <- (option_string_eqb_trans_l _ _ fam' E).
      destruct (option_string_eqb f fam'); reflexivity.
    + destruct (option_string_eqb f fam') eqn:E'; [|exact IH].
      destruct (option_string_eqb fam fam') eqn:E''; [|reflexivity].
      apply option_string_eqb_eq in E', E''. subst.
      destruct fam'; simpl in E; [rewrite String.eqb_refl in E|];
        discriminate.
Qed.

(** The family dictionary built by the first loop of [get_vts_in_groups]:
    every family maps to its OIDs in the order visited. *)
Lemma group_by_family_spec (table : dict vt) :
  forall oids F,
    (forall oid, In oid oids -> mem table oid = true) ->
    exists F',
      group_by_family table oids F = Ok F' /\
      forall fam,
        families_get F' fam =
        match families_get F fam,
              filter (fun oid => option_string_eqb (family_of table oid) fam)
                oids with
        | None, [] => None
        | None, m => Some m
        | Some l, m => Some (l ++ m)%list
        end.
Proof.
  induction oids as [|oid rest IH]; intros F Hm; cbn [group_by_family].
  - exists F. split; [reflexivity|]. intros fam. cbn [filter].
    destruct (families_get F fam); [now rewrite app_nil_r|reflexivity].
  - assert (Ho : mem table oid = true) by (apply Hm; now left).
    unfold mem in Ho. destruct (get table oid) as [v|] eqn:G; [|discriminate].
    destruct (IH (families_append F (get (custom v) "family") oid))
      as [F' [E S]]; [intros o Ho'; apply Hm; now right|].
    exists F'. split; [exact E|]. intros fam. rewrite S.
    assert (Fo : family_of table oid = get (custom v) "family")
      by (unfold family_of; now rewrite G).
    rewrite families_get_append. cbn [filter]. rewrite Fo.
    destruct (option_string_eqb (get (custom v) "family") fam).
    + destruct (families_get F fam) as [l|].
      * now rewrite <- app_assoc.
      * reflexivity.
    + reflexivity.
Qed.

Lemma filters_loop_spec (table : dict vt) (F : families_t) :
  (forall fam,
     families_get F fam =
     match filter (fun oid => option_string_eqb (family_of table oid) fam)
             (keys table) with
     | [] => None
     | m => Some m
     end) ->
  forall filters acc,
    filters_loop F filters acc =
    if forallb is_key_value filters
    then Ok (acc ++ flat_map (group_of table) filters)%list
    else Raise ValueError.
Proof.
  intros S. induction filters as [|elem rest IH]; intros acc;
    cbn [filters_loop forallb flat_map].
  - now rewrite app_nil_r.
  - unfold is_key_value at 1, group_of at 1.
    destruct (split "=" elem) as [|key [|value [|x l]]]; try reflexivity.
    cbn [andb]. rewrite S.
    destruct (filter _ (keys table)) as [|o m] eqn:E.
    + rewrite IH. destruct (String.eqb key "family"); reflexivity.
    + destruct (String.eqb key "family"); rewrite IH;
        destruct (forallb is_key_value rest); try reflexivity.
      now rewrite <- app_assoc.
Qed.

(** [get_vts_in_groups] in closed form. *)
Lemma get_vts_in_groups_eq (filters : list string) (w : world) :
  get_vts_in_groups filters w =
  (if forallb is_key_value filters
   then Ok (flat_map (group_of (vts (fst w))) filters)
   else Raise ValueError, w).
Proof.
  unfold get_vts_in_groups, bind, gets, lift.
  destruct (group_by_family_spec (vts (fst w)) (keys (vts (fst w))) [])
    as [F [E S]]; [intros oid; apply mem_keys|].
  rewrite E. rewrite (filters_loop_spec (vts (fst w)) F).
  - reflexivity.
  - intros fam. rewrite S. reflexivity.
Qed.

Lemma check_param_type_raise (v : pyval) (t : string) (e : exn) :
  check_param_type v t = Raise e <->
  t = "integer" /\ v = VNone /\ e = TypeError.
Proof.
  unfold check_param_type. split.
  - destruct (existsb (String.eqb t) string_like_types && is_str v);
      [discriminate|].
    destruct (String.eqb t "checkbox" && (eq_str v "yes" || eq_str v "no"));
      [discriminate|].
    destruct (String.eqb t "integer") eqn:E; [|discriminate].
    apply String.eqb_eq in E.
    destruct v as [|b|z|s]; cbn [py_int]; try discriminate.
    + intros H. inversion H. auto.
    + destruct (int_of_string s); discriminate.
  - intros [-> [-> ->]]. reflexivity.
Qed.

Lemma params_loop_result (vtid : string) (entry : vt) :
  forall items acc (w : world),
    get (vts (fst w)) vtid = Some entry ->
    exists w',
      params_loop vtid (name entry) items acc w =
      (if existsb (unchecked_value (vts (fst w)) vtid) items
       then Raise TypeError
       else Ok (acc ++ flat_map (declared_record (vts (fst w)) vtid) items)%list,
       w') /\
      fst w' = fst w.
Proof.
  induction items as [|[pid v] rest IH]; intros acc w G.
  - exists w. cbn [params_loop existsb flat_map]. rewrite app_nil_r.
    split; reflexivity.
  - cbn [existsb flat_map]. unfold unchecked_value at 1, declared_record at 1.
    rewrite G. cbn [fst snd].
    destruct (get (vt_params entry) pid) as [decl|] eqn:D.
    + destruct (String.eqb (param_type_of decl) "") eqn:Ty.
      * apply String.eqb_eq in Ty.
        rewrite (params_loop_undeclared vtid (name entry) pid v rest acc w
                   entry G)
          by (intros decl' E; rewrite D in E; now inversion E; subst).
        destruct (IH acc (fst w, (snd w ++ [LogDebug ("The vt parameter " ++ pid ++ " for " ++ vtid ++ " could not be loaded.")])%list) G)
          as [w' [E Fw]].
        exists w'. cbn [fst negb andb orb app] in *. split; assumption.
      * assert (Ne : param_type_of decl <> "")
          by (intros C; rewrite C in Ty; discriminate).
        rewrite (params_loop_declared vtid (name entry) pid v rest acc w
                   entry decl G D Ne).
        cbn [negb andb].
        destruct (check_param_type v (type_aux_of pid (param_type_of decl)))
          as [[one|]|e] eqn:C.
        -- assert (U : String.eqb (type_aux_of pid (param_type_of decl))
                         "integer"
                       && match v with VNone => true | _ => false end = false).
           { destruct (String.eqb _ "integer") eqn:I; [|reflexivity].
             destruct v; try reflexivity. apply String.eqb_eq in I.
             rewrite I in C. discriminate. }
           rewrite U. cbn [orb].
           destruct (IH (acc ++ [param_record (name entry) (param_type_of decl) pid v])%list
                       (fst w, (snd w ++ [LogDebug (type_mismatch_message (type_aux_of pid (param_type_of decl)) v)])%list) G)
             as [w' [E Fw]].
           exists w'. cbn [fst] in *. rewrite E, <- app_assoc.
           split; [reflexivity|assumption].
        -- assert (U : String.eqb (type_aux_of pid (param_type_of decl))
                         "integer"
                       && match v with VNone => true | _ => false end = false).
           { destruct (String.eqb _ "integer") eqn:I; [|reflexivity].
             destruct v; try reflexivity. apply String.eqb_eq in I.
             rewrite I in C. discriminate. }
           rewrite U. cbn [orb].
           destruct (IH (acc ++ [param_record (name entry) (param_type_of decl) pid v])%list
                       w G) as [w' [E Fw]].
           exists w'. rewrite E, <- app_assoc.
           split; [reflexivity|assumption].
        -- apply check_param_type_raise in C. destruct C as [I [-> ->]].
           rewrite I. cbn [String.eqb andb orb]. exists w.
           split; reflexivity.
    + rewrite (params_loop_undeclared vtid (name entry) pid v rest acc w
                 entry G)
        by (intros decl' E; rewrite D in E; discriminate).
      destruct (IH acc (fst w, (snd w ++ [LogDebug ("The vt parameter " ++ pid ++ " for " ++ vtid ++ " could not be loaded.")])%list) G)
        as [w' [E Fw]].
      exists w'. cbn [fst orb app] in *. split; assumption.
Qed.

Lemma vts_loop_result :
  forall items l acc (w : world),
    exists w',
      vts_loop items l acc w =
      (match vts_failure (vts (fst w)) items with
       | Some e => Raise e
       | None =>
           Ok ((l ++ keys items)%list,
               (acc ++ flat_map (declared_records (vts (fst w))) items)%list)
       end, w') /\
      fst w' = fst w.
Proof.
  induction items as [|[vtid ps] rest IH]; intros l acc w.
  - exists w. cbn [vts_loop vts_failure keys map flat_map].
    rewrite !app_nil_r. split; reflexivity.
  - cbn [vts_loop vts_failure keys map flat_map fst].
    unfold bind at 1, gets, raise.
    destruct (get (vts (fst w)) vtid) as [entry|] eqn:G.
    + unfold bind.
      destruct (params_loop_result vtid entry ps acc w G) as [w1 [E F1]].
      rewrite E.
      destruct (existsb (unchecked_value (vts (fst w)) vtid) ps).
      * exists w1. split; [reflexivity|exact F1].
      * destruct (IH (l ++ [vtid])%list
                    (acc ++ flat_map (declared_record (vts (fst w)) vtid) ps)%list
                    w1) as [w2 [E2 F2]].
        exists w2. rewrite E2, F1. unfold declared_records at 2.
        cbn [fst snd]. rewrite <- !app_assoc. cbn [app].
        split; [reflexivity|congruence].
    + exists w. split; reflexivity.
Qed.

Lemma vts_failure_none (table : dict vt) (items : list (string * dict pyval)) :
  vts_failure table items = None <->
  forall vtid ps,
    In (vtid, ps) items ->
    mem table vtid = true /\ existsb (unchecked_value table vtid) ps = false.
Proof.
  unfold mem. induction items as [|[vtid ps] rest IH]; cbn [vts_failure In].
  - split; [intros _ ? ? []|reflexivity].
  - destruct (get table vtid) as [entry|] eqn:G.
    + destruct (existsb (unchecked_value table vtid) ps) eqn:U.
      * split; [discriminate|]. intros H.
        destruct (H vtid ps (or_introl eq_refl)) as [_ C]. congruence.
      * rewrite IH. split.
        -- intros H v p [E|I]; [inversion E; subst; rewrite G; auto|auto].
        -- intros H v p I. apply H. now right.
    + split; [discriminate|]. intros H.
      destruct (H vtid ps (or_introl eq_refl)) as [C _]. rewrite G in C.
      discriminate.
Qed.

(** The result of [process_vts] in closed form. *)
Lemma process_vts_result (sel : vt_selection) (w : world) :
  exists w',
    process_vts sel w =
    (match vt_groups sel with
     | None => Raise (KeyError "vt_groups")
     | Some filters =>
         if forallb is_key_value filters then
           match vts_failure (vts (fst w)) (vt_single sel) with
           | Some e => Raise e
           | None =>
               Ok ((flat_map (group_of (vts (fst w))) filters
                      ++ keys (vt_single sel))%list,
                   flat_map (declared_records (vts (fst w))) (vt_single sel))
           end
         else Raise ValueError
     end, w') /\
    fst w' = fst w.
Proof.
  unfold process_vts. destruct (vt_groups sel) as [filters|].
  2:{ exists w. split; reflexivity. }
  unfold bind.
  assert (E : (match filters with
               | [] => ret []
               | _ :: _ => get_vts_in_groups filters
               end) w =
              (if forallb is_key_value filters
               then Ok (flat_map (group_of (vts (fst w))) filters)
               else Raise ValueError, w)).
  { destruct filters; [reflexivity|apply get_vts_in_groups_eq]. }
  rewrite E. destruct (forallb is_key_value filters).
  - destruct (vts_loop_result (vt_single sel)
                (flat_map (group_of (vts (fst w))) filters) [] w)
      as [w' [E' F']].
    exists w'. rewrite E'. split; [reflexivity|exact F'].
  - exists w. split; reflexivity.
Qed.

(** X6 (get_vts_in_groups): the result lists, filter by filter, the OIDs
    of the table whose family a [family=value] filter names, in the order
    of the table; a filter that does not unpack into a key and a value is
    a [ValueError], whatever the other filters select; the world is left
    as it was. *)
Theorem get_vts_in_groups_selects (filters : list string) (w : world) :
  get_vts_in_groups filters w =
  (if forallb is_key_value filters
   then Ok (flat_map (group_of (vts (fst w))) filters)
   else Raise ValueError, w).
Proof.
  unfold get_vts_in_groups, bind, gets, lift.
  destruct (group_by_family_spec (vts (fst w)) (keys (vts (fst w))) [])
    as [families [E S]]; [intros oid; apply mem_keys|].
  rewrite E. rewrite (filters_loop_spec (vts (fst w)) families).
  - reflexivity.
  - intros family. rewrite S. reflexivity.
Qed.

(** X7 (check_param_type): the only exception that escapes is the
    [TypeError] of [int(None)], and it escapes exactly when [None] is
    checked against the type [integer]. *)
Theorem check_param_type_type_error (v : pyval) (t : string) (e : exn) :
  check_param_type v t = Raise e <->
  t = "integer" /\ v = VNone /\ e = TypeError.
Proof.
  split.
  - intros H. unfold check_param_type in H.
    destruct (existsb (String.eqb t) string_like_types && is_str v);
      [discriminate|].
    destruct (String.eqb t "checkbox" && (eq_str v "yes" || eq_str v "no"));
      [discriminate|].
    destruct (String.eqb t "integer") eqn:E; [|discriminate].
    apply String.eqb_eq in E.
    destruct v as [|b|z|s]; cbn [py_int] in H; try discriminate.
    + inversion H. auto.
    + destruct (int_of_string s); discriminate.
  - intros [-> [-> ->]]. reflexivity.
Qed.

(** X8 (process_vts): when it returns, the list of VTs is what the group
    filters select followed by the individually selected OIDs in the
    order given, nothing removed, and the list of parameters holds one
    record for each value given to a declared parameter, in the order
    given, and nothing else. *)
Theorem process_vts_lists (sel : vt_selection) (w w' : world)
  (vts_list : list string) (vts_params : list (string * string)) :
  process_vts sel w = (Ok (vts_list, vts_params), w') ->
  exists filters,
    vt_groups sel = Some filters /\
    vts_list = (flat_map (group_of (vts (fst w))) filters
                  ++ keys (vt_single sel))%list /\
    vts_params = flat_map (declared_records (vts (fst w))) (vt_single sel).
Proof.
  intros H. destruct (process_vts_result sel w) as [w1 [E _]].
  rewrite E in H. destruct (vt_groups sel) as [filters|]; [|discriminate].
  exists filters. destruct (forallb is_key_value filters); [|discriminate].
  destruct (vts_failure (vts (fst w)) (vt_single sel)); [discriminate|].
  inversion H. auto.
Qed.

Lemma process_vts_lists_witness :
  exists filters,
    vt_groups checkbox_selection = Some filters /\
    [example_oid; example_oid] =
    (flat_map (group_of example_table) filters
       ++ keys (vt_single checkbox_selection))%list /\
    [("Ping Host[checkbox]:1", "maybe")] =
    flat_map (declared_records example_table) (vt_single checkbox_selection).
Proof.
  refine (process_vts_lists checkbox_selection
            (idle_daemon example_table None, []) _ _ _ _).
  vm_compute. reflexivity.
Defined.

(** X9 (process_vts): it returns exactly when ['vt_groups'] is present,
    every filter unpacks into a key and a value, every individually
    selected OID is in the table, and no [None] is given for a declared
    parameter that is checked as an integer. *)
Theorem process_vts_returns_iff (sel : vt_selection) (w : world) :
  (exists res w', process_vts sel w = (Ok res, w')) <->
  (exists filters,
     vt_groups sel = Some filters /\
     forallb is_key_value filters = true /\
     forall vtid ps,
       In (vtid, ps) (vt_single sel) ->
       mem (vts (fst w)) vtid = true /\
       existsb (unchecked_value (vts (fst w)) vtid) ps = false).
Proof.
  destruct (process_vts_result sel w) as [w1 [E _]]. rewrite E.
  destruct (vt_groups sel) as [filters|].
  2:{ split; [intros [? [? H]]; discriminate|intros [? [H _]]; discriminate]. }
  destruct (forallb is_key_value filters) eqn:K.
  2:{ split; [intros [? [? H]]; discriminate
             |intros [? [H [C _]]]; inversion H; subst; congruence]. }
  destruct (vts_failure (vts (fst w)) (vt_single sel)) eqn:V.
  - split; [intros [? [? H]]; discriminate|].
    intros [? [_ [_ H]]]. apply vts_failure_none in H. congruence.
  - split.
    + intros _. exists filters. split; [reflexivity|]. split; [exact K|].
      now apply vts_failure_none.
    + intros _. eauto.
Qed.

Lemma process_vts_returns_iff_witness :
  exists res w',
    process_vts checkbox_selection (idle_daemon example_table None, [])
    = (Ok res, w').
Proof.
  apply (proj2 (process_vts_returns_iff checkbox_selection
                  (idle_daemon example_table None, []))).
  exists ["family=Port scanners"]. split; [reflexivity|].
  split; [reflexivity|]. intros vtid ps [E|[]]. inversion E; subst.
  split; reflexivity.
Defined.

(* ================================================================= *)
(** ** Scan Execution Controller: preferences and spawn *)

Lemma not_In_existsb {A} (P : A -> bool) (a : A) (l : list A) :
  existsb P l = false -> P a = true -> ~ In a l.
Proof.
  intros E Pa I. assert (C : existsb P l = true)
    by (apply existsb_exists; eauto). congruence.
Qed.

(** X10 (exec_scan): when the engine is spawned, it is spawned once, with
    the scan's UUID, and by then the shared store holds the scan options,
    the target, the port range, the credential preferences when there
    are credentials, the list of plugins that [process_vts] computes
    (what the group filters select, then the selected OIDs) and one
    preference for each value given to a declared VT parameter. *)
Theorem exec_scan_prefs_before_spawn (env : scan_env) (nvti : nvticache)
  (scan_id target : string) (d d' : daemon) (trace : list event)
  (r : result (option exit)) (cmd : list string) (pid : option Z) :
  exec_scan env nvti scan_id target (d, []) = (r, (d', trace)) ->
  In (Popen cmd pid) trace ->
  exists sel filters pre post,
    get_scan_vts env = Selected sel /\
    vt_groups sel = Some filters /\
    trace = (pre ++ Popen ["openvassd"; "--scan-start"; uuid4 env] (spawn env)
               :: post)%list /\
    existsb is_popen pre = false /\
    existsb is_popen post = false /\
    In (AddSingleItem (scanprefs (uuid4 env))
          (map VStr (map option_pref (scan_options env)))) pre /\
    In (AddSingleItem (scanprefs (uuid4 env)) [VStr ("TARGET|||" ++ target)])
      pre /\
    In (AddSingleItem (scanprefs (uuid4 env))
          [VStr ("port_range|||" ++ py_str (scan_ports env))]) pre /\
    (forall cred_prefs,
       scan_credentials env <> [] ->
       build_credentials_as_prefs (scan_credentials env) = Ok cred_prefs ->
       In (AddSingleItem (scanprefs (uuid4 env)) (map VStr cred_prefs)) pre) /\
    In (AddSingleItem (scanprefs (uuid4 env))
          [VStr ("plugin_set|||"
                 ++ String.concat ";"
                      (flat_map (group_of (vts d)) filters
                         ++ keys (vt_single sel)))]) pre /\
    forall record,
      In record (flat_map (declared_records (vts d)) (vt_single sel)) ->
      In (AddSingleItem (scanprefs (uuid4 env))
            [VStr (fst record ++ "|||" ++ snd record)]) pre.
Proof.
  intros H Hin.
  assert (A0 : existsb is_popen (allocation_events env scan_id target)
               = false) by (apply allocation_events_spec; reflexivity).
  destruct (flag_set (pending_feed d)) eqn:F.
  { rewrite exec_scan_pending_eq in H by exact F. inversion H; subst.
    simpl in Hin. decompose [or] Hin; try discriminate; contradiction. }
  destruct (truthy (scan_ports env)) eqn:Pt.
  2:{ rewrite exec_scan_no_ports_eq in H by assumption. inversion H; subst.
      simpl in Hin. decompose [or] Hin; try discriminate; contradiction. }
  destruct (get_scan_vts env) as [|sel] eqn:V.
  { rewrite exec_scan_empty_eq in H by assumption.
    apply (f_equal (fun x => snd (snd x))) in H. cbn [snd] in H.
    rewrite <- H, app_nil_l in Hin. exfalso.
    apply in_app_or in Hin. destruct Hin as [Hin|Hin].
    - now apply (not_In_existsb is_popen _ _ A0) in Hin.
    - simpl in Hin. decompose [or] Hin; try discriminate; contradiction. }
  destruct (exec_scan_anatomy _ _ _ _ _ _ _ _ _ F Pt V H)
    as [_ [logs [L Hcase]]].
  cbn [fst snd] in Hcase.
  assert (L0 : existsb is_popen logs = false)
    by (apply (existsb_forallb_false _ is_log_debug); [now intros []|exact L]).
  destruct Hcase as [[e [_ T]]|[l [p [post [Pv [T Hpost]]]]]];
    rewrite app_nil_l in T.
  { exfalso. rewrite T in Hin. apply in_app_or in Hin.
    destruct Hin as [Hin|Hin];
      [now apply (not_In_existsb is_popen _ _ A0) in Hin
      |now apply (not_In_existsb is_popen _ _ L0) in Hin]. }
  destruct (process_vts_result sel
              (with_main d (db_index env),
               ([] ++ allocation_events env scan_id target)%list))
    as [w1 [E _]].
  rewrite Pv in E. cbn [fst with_main vts] in E.
  destruct (vt_groups sel) as [filters|] eqn:Vg; [|discriminate].
  destruct (forallb is_key_value filters); [|discriminate].
  destruct (vts_failure (vts d) (vt_single sel)); [discriminate|].
  apply (f_equal fst) in E. cbn [fst] in E. inversion E as [[El Ep]].
  clear E Pv.
  exists sel, filters,
    (allocation_events env scan_id target ++ logs
       ++ plugin_events env nvti scan_id target l p)%list, post.
  split; [reflexivity|]. split; [exact Vg|].
  split.
  { rewrite T. unfold launch_events. rewrite <- !app_assoc. reflexivity. }
  split.
  { rewrite !existsb_app, A0, L0.
    now rewrite plugin_events_spec by reflexivity. }
  split.
  { destruct (spawn env) as [ovas_pid|]; [|now destruct Hpost as [_ ->]].
    destruct Hpost as [polled [-> [Q _]]]. cbn [existsb is_popen orb].
    rewrite existsb_app.
    rewrite (existsb_forallb_false is_popen
               (poll_event (db_index env) (uuid4 env) (ticks env)) polled)
      by (exact Q || now intros []).
    destruct (still_new env);
      [now rewrite existsb_repeat_false|reflexivity]. }
  split.
  { apply in_or_app. left. unfold allocation_events. apply in_or_app. left.
    cbn [In]. auto 10. }
  split.
  { apply in_or_app. left. unfold allocation_events. apply in_or_app. left.
    cbn [In]. auto 10. }
  split.
  { apply in_or_app. left. unfold allocation_events. apply in_or_app. left.
    cbn [In]. auto 10. }
  split.
  { intros cred_prefs Nc Ec. apply in_or_app. left. unfold allocation_events.
    apply in_or_app. right. rewrite Ec.
    destruct (scan_credentials env); [contradiction|now left]. }
  split.
  { apply in_or_app. right. apply in_or_app. right. unfold plugin_events.
    rewrite <- El. now left. }
  intros record Hr. apply in_or_app. right. apply in_or_app. right.
  unfold plugin_events. right. apply in_or_app. left. rewrite <- Ep in Hr.
  apply (in_map (fun elem => AddSingleItem (scanprefs (uuid4 env))
                               [VStr (fst elem ++ "|||" ++ snd elem)])).
  exact Hr.
Qed.

Lemma exec_scan_prefs_before_spawn_witness :
  exists pre post,
    snd (snd (exec_scan credentialed_env (empty_nvti None) "scan-1"
                "10.0.0.1" (idle_daemon example_table None, [])))
    = (pre ++ Popen ["openvassd"; "--scan-start"; example_uuid]
                (Some 4711%Z) :: post)%list /\
    existsb is_popen pre = false /\
    existsb is_popen post = false /\
    In (AddSingleItem (scanprefs example_uuid) [VStr "safe_checks|||yes"])
      pre /\
    In (AddSingleItem (scanprefs example_uuid) [VStr "TARGET|||10.0.0.1"])
      pre /\
    In (AddSingleItem (scanprefs example_uuid)
          [VStr "auth_port_ssh|||";
           VStr "SSH Authorization[entry]:SSH login name:|||root";
           VStr "SSH Authorization[password]:SSH password (unsafe!):|||x"])
      pre /\
    In (AddSingleItem (scanprefs example_uuid)
          [VStr ("plugin_set|||" ++ example_oid ++ ";" ++ example_oid)]) pre /\
    In (AddSingleItem (scanprefs example_uuid)
          [VStr "Ping Host[checkbox]:1|||maybe"]) pre.
Proof.
  destruct (exec_scan_prefs_before_spawn credentialed_env (empty_nvti None)
              "scan-1" "10.0.0.1" (idle_daemon example_table None)
              (fst (snd (exec_scan credentialed_env (empty_nvti None) "scan-1"
                           "10.0.0.1" (idle_daemon example_table None, []))))
              (snd (snd (exec_scan credentialed_env (empty_nvti None) "scan-1"
                           "10.0.0.1" (idle_daemon example_table None, []))))
              (fst (exec_scan credentialed_env (empty_nvti None) "scan-1"
                      "10.0.0.1" (idle_daemon example_table None, [])))
              ["openvassd"; "--scan-start"; example_uuid] (Some 4711%Z))
    as [sel [filters [pre [post [S [G [T [P1 [P2 [O [Tg [_ [C [Pl R]]]]]]]]]]]]]].
  - vm_compute. reflexivity.
  - vm_compute. repeat (try (left; reflexivity); right).
  - inversion S; subst sel. inversion G; subst filters.
    exists pre, post. split; [exact T|]. split; [exact P1|].
    split; [exact P2|]. split; [exact O|]. split; [exact Tg|].
    split; [exact (C _ ltac:(discriminate) eq_refl)|].
    split; [exact Pl|].
    apply (R ("Ping Host[checkbox]:1", "maybe")). now left.
Defined.

Lemma filter_none {A} (P : A -> bool) (l : list A) :
  existsb P l = false -> filter P l = [].
Proof.
  induction l as [|a l IH]; cbn [existsb filter]; [reflexivity|].
  intros H. apply orb_false_iff in H. destruct H as [Ha Hl].
  rewrite Ha. now apply IH.
Qed.

Lemma allocation_events_kb_new env scan_id target :
  filter is_kb_new (allocation_events env scan_id target)
  = [KbNew (db_index env)].
Proof.
  unfold allocation_events. rewrite filter_app. cbn [filter is_kb_new app].
  f_equal. apply filter_none.
  destruct (scan_credentials env); [reflexivity|].
  destruct (build_credentials_as_prefs _); reflexivity.
Qed.

(** X11 (exec_scan): whatever the outcome, a run leaves the VT table,
    the feed version, the pending flag and the scan processes of the
    daemon as they were; it allocates at most one KB, and it sets
    [main_kbindex], to the index of that KB, exactly when it allocates
    one. *)
Theorem exec_scan_frame (env : scan_env) (nvti : nvticache)
  (scan_id target : string) (d d' : daemon) (trace : list event)
  (r : result (option exit)) :
  exec_scan env nvti scan_id target (d, []) = (r, (d', trace)) ->
  vts d' = vts d /\ vts_version d' = vts_version d /\
  pending_feed d' = pending_feed d /\
  scan_processes d' = scan_processes d /\
  ((filter is_kb_new trace = [] /\ main_kbindex d' = main_kbindex d) \/
   (filter is_kb_new trace = [KbNew (db_index env)] /\
    main_kbindex d' = Some (db_index env))).
Proof.
  intros H.
  destruct (flag_set (pending_feed d)) eqn:F.
  { rewrite exec_scan_pending_eq in H by exact F. inversion H; subst.
    repeat split; try reflexivity. left. split; reflexivity. }
  destruct (truthy (scan_ports env)) eqn:Pt.
  2:{ rewrite exec_scan_no_ports_eq in H by assumption. inversion H; subst.
      repeat split; try reflexivity. left. split; reflexivity. }
  destruct (get_scan_vts env) as [|sel] eqn:V.
  { rewrite exec_scan_empty_eq in H by assumption.
    pose proof (f_equal (fun x => fst (snd x)) H) as Hd.
    apply (f_equal (fun x => snd (snd x))) in H. cbn [fst snd] in H, Hd.
    subst d' trace. repeat split; try reflexivity. right.
    split; [|reflexivity].
    rewrite app_nil_l, filter_app, allocation_events_kb_new. reflexivity. }
  destruct (exec_scan_anatomy _ _ _ _ _ _ _ _ _ F Pt V H)
    as [Hd [logs [L Hcase]]].
  cbn [fst snd] in Hd, Hcase. subst d'. repeat split; try reflexivity.
  right. split; [|reflexivity].
  assert (L0 : filter is_kb_new logs = []).
  { apply filter_none.
    apply (existsb_forallb_false _ is_log_debug); [now intros []|exact L]. }
  destruct Hcase as [[e [_ T]]|[l [p [post [_ [T Hpost]]]]]];
    rewrite T, app_nil_l, !filter_app, allocation_events_kb_new, L0;
    [reflexivity|].
  unfold launch_events. rewrite filter_app.
  rewrite (filter_none is_kb_new (plugin_events env nvti scan_id target l p))
    by (apply plugin_events_spec; reflexivity).
  cbn [filter is_kb_new app]. f_equal.
  destruct (spawn env) as [ovas_pid|]; [|now destruct Hpost as [_ ->]].
  destruct Hpost as [polled [-> [Q _]]]. cbn [filter is_kb_new].
  rewrite filter_app.
  rewrite (filter_none is_kb_new polled)
    by (apply (existsb_forallb_false _ (poll_event (db_index env) (uuid4 env)
                                          (ticks env)));
        [now intros []|exact Q]).
  rewrite app_nil_r. apply filter_none.
  destruct (still_new env); [now apply existsb_repeat_false|reflexivity].
Qed.

Lemma exec_scan_frame_witness :
  let run := exec_scan
               (example_env select_example_oid (Some 4711%Z)
                  [busy_tick; idle_tick])
               (empty_nvti None) "scan-1" "10.0.0.1"
               (idle_daemon example_table (Some false), []) in
  vts (fst (snd run)) = example_table /\
  pending_feed (fst (snd run)) = Some false /\
  main_kbindex (fst (snd run)) = Some 1%Z.
Proof.
  intros run.
  assert (H : exec_scan
                (example_env select_example_oid (Some 4711%Z)
                   [busy_tick; idle_tick])
                (empty_nvti None) "scan-1" "10.0.0.1"
                (idle_daemon example_table (Some false), [])
              = (fst run, (fst (snd run), snd (snd run))))
    by (vm_compute; reflexivity).
  destruct (exec_scan_frame _ _ _ _ _ _ _ _ H) as [V [_ [P [_ M]]]].
  split; [exact V|]. split; [exact P|].
  destruct M as [[K _]|[_ M]]; [|exact M].
  vm_compute in K. discriminate.
Defined.

(* ================================================================= *)
(** ** Credential Preference Builder: per service *)

Lemma get_NoDup {V} (d : dict V) (k : string) (v : V) :
  NoDup (keys d) -> In (k, v) d -> get d k = Some v.
Proof.
  unfold keys. induction d as [|[k' v'] r IH]; cbn [map get In fst].
  - contradiction.
  - intros N [E|I].
    + inversion E; subst. now rewrite String.eqb_refl.
    + inversion N as [|? ? Nk Nr]; subst.
      destruct (String.eqb k' k) eqn:Ek; [|now apply IH].
      apply String.eqb_eq in Ek. subst k'. exfalso. apply Nk.
      apply (in_map fst) in I. exact I.
Qed.

Lemma credentials_loop_concat (credentials : dict (dict pyval)) :
  NoDup (keys credentials) ->
  forall items acc,
    incl items credentials ->
    credentials_loop credentials items acc =
    Ok (acc ++ flat_map (fun item => credential_prefs (fst item) (snd item))
                  items)%list.
Proof.
  intros N. induction items as [|[service p] rest IH]; intros acc Hi;
    cbn [credentials_loop flat_map fst snd].
  - now rewrite app_nil_r.
  - rewrite (get_NoDup credentials service p N) by (apply Hi; now left).
    rewrite IH by (intros x Hx; apply Hi; now right).
    now rewrite app_assoc.
Qed.

(** X12 (build_credentials_as_prefs): the result is the concatenation,
    in the order of the dictionary, of the records of each service; and
    unless the service [snmp] is among the credentials, every record has
    the form [name|||value]. *)
Theorem build_credentials_per_service (credentials : dict (dict pyval)) :
  NoDup (keys credentials) ->
  build_credentials_as_prefs credentials =
  Ok (flat_map (fun item => credential_prefs (fst item) (snd item))
        credentials) /\
  (mem credentials "snmp" = false ->
   forall prefs r,
     build_credentials_as_prefs credentials = Ok prefs ->
     In r prefs -> is_pref_record r = true).
Proof.
  intros N. unfold build_credentials_as_prefs.
  rewrite (credentials_loop_concat credentials N credentials [])
    by apply incl_refl.
  split; [reflexivity|]. intros S prefs r E Hr. inversion E; subst. clear E.
  apply in_flat_map in Hr. destruct Hr as [[service p] [Hi Hr]].
  cbn [fst snd] in Hr. apply (credential_prefs_delimited service p); [|exact Hr].
  destruct (String.eqb service "snmp") eqn:Es; [|reflexivity].
  apply String.eqb_eq in Es. subst service.
  unfold mem in S. rewrite (get_NoDup credentials "snmp" p N Hi) in S.
  discriminate.
Qed.

Lemma build_credentials_per_service_witness :
  build_credentials_as_prefs mixed_credentials =
  Ok [ "auth_port_ssh|||";
       "SSH Authorization[entry]:SSH login name:|||root";
       "SSH Authorization[password]:SSH password (unsafe!):|||x" ] /\
  (forall prefs r,
     build_credentials_as_prefs mixed_credentials = Ok prefs ->
     In r prefs -> is_pref_record r = true).
Proof.
  assert (N : NoDup (keys mixed_credentials)).
  { repeat constructor; simpl; intuition discriminate. }
  destruct (build_credentials_per_service mixed_credentials N) as [E D].
  split; [exact E|]. apply D. reflexivity.
Defined.

(* ================================================================= *)
(** ** VT Metadata Cache: the stored entry *)

Lemma kept_start {V} (md : dict V) : kept md [] = md.
Proof.
  unfold kept. induction md as [|kv md IH]; [reflexivity|].
  cbn [filter existsb negb]. f_equal. exact IH.
Qed.

Lemma existsb_snoc (k k0 : string) (popped : list string) :
  existsb (String.eqb k) (popped ++ [k0]) =
  existsb (String.eqb k) popped || String.eqb k k0.
Proof. rewrite existsb_app. cbn [existsb]. now rewrite orb_false_r. Qed.

Lemma get_kept {V} (md : dict V) (popped : list string) (k : string) :
  get (kept md popped) k =
  if existsb (String.eqb k) popped then None else get md k.
Proof.
  unfold kept. induction md as [|[k' v] md IH]; cbn [filter get fst].
  - now destruct (existsb (String.eqb k) popped).
  - destruct (String.eqb k' k) eqn:E.
    + apply String.eqb_eq in E. subst k'.
      destruct (existsb (String.eqb k) popped) eqn:P; cbn [negb].
      * rewrite IH. reflexivity.
      * cbn [get]. now rewrite String.eqb_refl.
    + destruct (existsb (String.eqb k') popped); cbn [negb]; [exact IH|].
      cbn [get]. rewrite E. exact IH.
Qed.

Lemma remove_kept {V} (md : dict V) (popped : list string) (k : string) :
  remove (kept md popped) k = kept md (popped ++ [k]).
Proof.
  unfold kept. induction md as [|[k' v] md IH]; cbn [filter remove fst];
    [reflexivity|].
  rewrite existsb_snoc.
  destruct (existsb (String.eqb k') popped); cbn [negb orb]; [exact IH|].
  cbn [remove]. destruct (String.eqb k' k); cbn [negb]; [exact IH|].
  now rewrite IH.
Qed.

Lemma remove_absent {V} (d : dict V) (k : string) :
  get d k = None -> remove d k = d.
Proof.
  induction d as [|[k' v] d IH]; cbn [get remove]; [reflexivity|].
  destruct (String.eqb k' k); [discriminate|]. intros H. now rewrite IH.
Qed.

Lemma kept_pop {V} (md d d' : dict V) popped (k : string) (v : V) :
  d = kept md popped ->
  existsb (String.eqb k) popped = false ->
  pop d k = Ok (v, d') ->
  get md k = Some v /\ d' = kept md (popped ++ [k]).
Proof.
  intros T N E. unfold pop in E. subst d. rewrite get_kept, N in E.
  destruct (get md k) as [x|]; [|discriminate]. inversion E; subst.
  split; [reflexivity|apply remove_kept].
Qed.

Lemma kept_pop_if_present {V} (md d d' : dict V) popped (k : string)
  (x : option V) :
  d = kept md popped ->
  existsb (String.eqb k) popped = false ->
  pop_if_present d k = (x, d') ->
  x = get md k /\ d' = kept md (popped ++ [k]).
Proof.
  intros T N E. unfold pop_if_present in E. subst d.
  pose proof (get_kept md popped k) as G. rewrite N in G.
  destruct (get (kept md popped) k) as [v|] eqn:Gk; inversion E; subst.
  - split; [exact G|apply remove_kept].
  - split; [exact G|]. rewrite <- remove_kept. symmetry.
    now apply remove_absent.
Qed.

Lemma kept_mem {V} (md d : dict V) popped (k : string) :
  d = kept md popped ->
  existsb (String.eqb k) popped = false ->
  mem d k = mem md k.
Proof. intros T N. unfold mem. subst d. now rewrite get_kept, N. Qed.

(** Take the next [pop] of the goal. *)
Ltac take_pop T key F :=
  match goal with
  | |- context [pop ?d key] =>
      let E := fresh "E" in
      destruct (pop d key) as [[? ?]|?] eqn:E; [|intros; discriminate];
      destruct (kept_pop _ _ _ _ key _ T eq_refl E) as [F T'];
      clear T E; rename T' into T; cbn [app] in T
  end.

Ltac take_pop_if_present T key F :=
  match goal with
  | |- context [pop_if_present ?d key] =>
      let E := fresh "E" in
      destruct (pop_if_present d key) as [? ?] eqn:E;
      destruct (kept_pop_if_present _ _ _ _ key _ T eq_refl E) as [F T'];
      clear T E; rename T' into T; cbn [app] in T
  end.

Lemma mem_get_some {V} (d : dict V) (k : string) (v : V) :
  get d k = Some v -> mem d k = true.
Proof. unfold mem. now intros ->. Qed.

Lemma mem_get_none {V} (d : dict V) (k : string) :
  get d k = None -> mem d k = false.
Proof. unfold mem. now intros ->. Qed.

Lemma read_vt_fields (nvti : nvticache) (oids : dict string)
  (vt_id : string) (w w' : world) (entry : vt) :
  read_vt nvti oids vt_id w = (Ok entry, w') ->
  stored_entry nvti oids vt_id entry.
Proof.
  unfold stored_entry. set (md := get_nvt_metadata nvti vt_id).
  pose proof (eq_sym (kept_start md)) as T.
  unfold read_vt, bind, lift, raise, ret. fold md.
  take_pop T "name" Fname.
  take_pop T "creation_date" Fcreation.
  take_pop T "last_modification" Fmodification.
  take_pop_if_present T "summary" Fsummary.
  take_pop_if_present T "impact" Fimpact.
  take_pop_if_present T "affected" Faffected.
  take_pop_if_present T "insight" Finsight.
  take_pop_if_present T "solution" Fsolution.
  match goal with
  | |- context [match ?o with
                | Some _ => pop_if_present _ "solution_type"
                | None => _
                end] =>
      destruct o as [sol|];
      [ take_pop_if_present T "solution_type" Fst;
        pose proof (mem_get_some _ _ _ (eq_sym Fsolution)) as Msol
      | pose proof (mem_get_none _ _ (eq_sym Fsolution)) as Msol ]
  end;
  take_pop_if_present T "vuldetect" Fvuldetect;
  take_pop_if_present T "qod_type" Fqt;
  match goal with
  | |- context [match ?o with
                | Some _ => _
                | None => pop_if_present _ "qod"
                end] =>
      destruct o as [qt|];
      [ pose proof (mem_get_some _ _ _ (eq_sym Fqt)) as Mqt
      | take_pop_if_present T "qod" Fqod;
        pose proof (mem_get_none _ _ (eq_sym Fqt)) as Mqt ]
  end;
  match goal with
  | |- context [mem ?d "severity_base_vector"] =>
      rewrite (kept_mem _ _ _ "severity_base_vector" T eq_refl);
      destruct (mem md "severity_base_vector") eqn:Mv;
      [ take_pop T "severity_base_vector" Fv
      | take_pop T "cvss_base_vector" Fv ]
  end;
  match goal with
  | |- context [mem ?d "severity_type"] =>
      rewrite (kept_mem _ _ _ "severity_type" T eq_refl);
      destruct (mem md "severity_type") eqn:Mt; [intros; discriminate|]
  end;
  take_pop_if_present T "severity_origin" Fo;
  take_pop_if_present T "dependencies" Fd;
  intros H; inversion H; subst; clear H; cbn [name vt_creation_time
    vt_modification_time vt_params vt_refs summary impact affected insight
    solution detection qod_t solution_t qod_v severities vt_dependencies
    custom];
  unfold extracted_keys, severity_vector_of; rewrite Msol, Mqt, Mv;
  cbn [app];
  (split; [repeat split; assumption|]);
  (split; [repeat split; congruence|]);
  (split; [reflexivity|]);
  (split; [reflexivity|]);
  (split; [eexists; split; [eassumption|];
           destruct (get md "severity_origin"); reflexivity|]);
  (split; [destruct (get md "dependencies"); reflexivity|]);
  (split; reflexivity).
Qed.

Lemma stored_entry_well_formed nvti oids vt_id entry :
  stored_entry nvti oids vt_id entry ->
  well_formed (get_nvt_metadata nvti vt_id) /\
  mem (get_nvt_metadata nvti vt_id) "severity_type" = false.
Proof.
  intros [[N [C [L _]]] [_ [_ [_ [[v [V _]] [_ [S _]]]]]]].
  split; [|exact S]. unfold well_formed.
  repeat split; try (eapply mem_get_some; eassumption).
  unfold severity_vector_of in V.
  destruct (mem (get_nvt_metadata nvti vt_id) "severity_base_vector");
    [now left|right; eapply mem_get_some; eassumption].
Qed.

Lemma get_app {V} (d1 d2 : dict V) (k : string) :
  get (d1 ++ d2)%list k = match get d1 k with
                     | Some v => Some v
                     | None => get d2 k
                     end.
Proof.
  induction d1 as [|[k' v] r IH]; cbn [app get]; [reflexivity|].
  destruct (String.eqb k' k); [reflexivity|exact IH].
Qed.

(** One iteration of the loop of [load_vts] that returns: the entry was
    read, and the table keeps what it had and gains at most this entry. *)
Lemma load_vt_table valid_oid nvti oids vt_id (w w' : world) :
  load_vt valid_oid nvti oids vt_id w = (Ok tt, w') ->
  (exists entry,
     stored_entry nvti oids vt_id entry /\
     forall oid,
       get (vts (fst w')) oid =
       match get (vts (fst w)) oid with
       | Some old => Some old
       | None => if String.eqb vt_id oid
                    && negb (String.eqb vt_id "") && valid_oid vt_id
                 then Some entry else None
       end).
Proof.
  unfold load_vt. intros H. apply bind_inv in H.
  destruct H as [(entry & w1 & E & H) | (e & _ & Habs)]; [|discriminate].
  pose proof (read_vt_pure _ _ _ _ _ _ E) as ->.
  apply read_vt_fields in E. exists entry. split; [exact E|].
  unfold bind, gets, set_vts, modify, emit, ret, add_vt in H.
  cbn [fst snd] in H. intros oid.
  destruct (String.eqb vt_id "" || negb (valid_oid vt_id)) eqn:Bad.
  - cbn [fst snd Z.eqb] in H. inversion H; subst. cbn [fst vts].
    destruct (get (vts (fst w)) oid); [reflexivity|].
    apply orb_true_iff in Bad. destruct Bad as [-> | Bad].
    + now rewrite andb_false_r.
    + apply negb_true_iff in Bad. rewrite Bad. now rewrite andb_false_r.
  - apply orb_false_iff in Bad. destruct Bad as [B1 B2].
    apply negb_false_iff in B2.
    destruct (mem (vts (fst w)) vt_id) eqn:Mm.
    + cbn [fst snd Z.eqb] in H. inversion H; subst. cbn [fst vts].
      destruct (get (vts (fst w)) oid) eqn:G; [reflexivity|].
      destruct (String.eqb vt_id oid) eqn:Eo; [|reflexivity].
      apply String.eqb_eq in Eo. subst oid. unfold mem in Mm.
      rewrite G in Mm. discriminate.
    + cbn [fst snd] in H.
      assert (H' : fst w' = mk_daemon (vts (fst w) ++ [(vt_id, entry)])%list
                              (vts_version (fst w)) (pending_feed (fst w))
                              (main_kbindex (fst w))
                              (scan_processes (fst w))).
      { destruct (Z.eqb _ (-1)), (Z.eqb _ (-2)); inversion H; reflexivity. }
      rewrite H'. cbn [vts]. rewrite get_app.
      destruct (get (vts (fst w)) oid); [reflexivity|].
      cbn [get]. rewrite B1, B2. cbn [negb andb]. rewrite !andb_true_r.
      reflexivity.
Qed.

Lemma load_loop_table valid_oid nvti oids :
  forall items (w w' : world),
    load_loop valid_oid nvti oids items w = (Ok tt, w') ->
    (forall f oid, In (f, oid) items ->
       well_formed (get_nvt_metadata nvti oid) /\
       mem (get_nvt_metadata nvti oid) "severity_type" = false) /\
    (forall oid entry,
       get (vts (fst w')) oid = Some entry ->
       get (vts (fst w)) oid = Some entry \/
       (exists f, In (f, oid) items) /\ oid <> "" /\ valid_oid oid = true /\
       stored_entry nvti oids oid entry) /\
    (forall oid,
       mem (vts (fst w)) oid = true \/
       (exists f, In (f, oid) items) /\ oid <> "" /\ valid_oid oid = true ->
       mem (vts (fst w')) oid = true).
Proof.
  induction items as [|[f0 oid0] items IH]; intros w w' H.
  - cbn [load_loop] in H. inversion H; subst.
    split; [intros ? ? []|]. split; [auto|].
    intros oid [M|[[? []] _]]. exact M.
  - cbn [load_loop] in H. apply bind_inv in H.
    destruct H as [(u & w1 & E & H) | (e & _ & Habs)]; [|discriminate].
    destruct u. apply load_vt_table in E. destruct E as [entry0 [S0 G0]].
    destruct (IH _ _ H) as [W [Old New]]. split; [|split].
    + intros f oid [Heq|Hin]; [|eapply W; eauto].
      inversion Heq; subst. eapply stored_entry_well_formed; eauto.
    + intros oid entry G. destruct (Old oid entry G) as [G1|[[f Hf] R]].
      * rewrite G0 in G1. destruct (get (vts (fst w)) oid) as [old|];
          [left; exact G1|].
        destruct (String.eqb oid0 oid) eqn:Eo; [|discriminate].
        apply String.eqb_eq in Eo. subst oid0. cbn [andb] in G1.
        destruct (String.eqb oid "") eqn:Ee; [discriminate|].
        destruct (valid_oid oid) eqn:Ev; [|discriminate].
        inversion G1; subst. right. split; [exists f0; now left|].
        split; [intros ->; discriminate|]. split; [reflexivity|exact S0].
      * right. split; [exists f; now right|exact R].
    + intros oid C. apply New.
      assert (Keep : mem (vts (fst w)) oid = true ->
                     mem (vts (fst w1)) oid = true).
      { unfold mem. rewrite G0. now destruct (get (vts (fst w)) oid). }
      destruct C as [M|[[f [Heq|Hin]] [Ne V]]].
      * left. now apply Keep.
      * inversion Heq; subst. left. unfold mem. rewrite G0.
        destruct (get (vts (fst w)) oid); [reflexivity|].
        rewrite String.eqb_refl, V.
        destruct (String.eqb oid "") eqn:Ee; [|reflexivity].
        apply String.eqb_eq in Ee. contradiction.
      * right. split; [exists f; exact Hin|auto].
Qed.

(** [load_vts] in terms of its loop. *)
Lemma load_vts_eq valid_oid nvti (w : world) :
  let oids := dict_of_pairs (get_oids nvti) in
  load_vts valid_oid nvti w =
  match load_loop valid_oid nvti oids oids
          (fst w, (snd w ++ [LogDebug "Loading vts in memory."])%list) with
  | (Ok _, w1) =>
      (Ok tt,
       (mk_daemon (vts (fst w1)) (get_feed_version nvti) (Some false)
          (main_kbindex (fst w1)) (scan_processes (fst w1)),
        (snd w1 ++ [SetPendingFeed false;
                    LogDebug "Finish loading up vts."])%list))
  | (Raise e, w1) => (Raise e, w1)
  end.
Proof.
  intros oids. unfold load_vts. fold oids.
  unfold bind at 1. unfold emit at 1. unfold bind at 1.
  destruct (load_loop valid_oid nvti oids oids _) as [[u|e] w1];
    [|reflexivity].
  unfold set_vts_version, set_pending_feed, modify, bind, emit.
  cbn [fst snd vts main_kbindex scan_processes pending_feed vts_version].
  now rewrite <- app_assoc.
Qed.

(** X13 (load_vts): what [load_vts] stores for a VT, as a function of
    the metadata of the VT in the cache: a run that returns has set the
    feed version and cleared the pending flag; every entry of the table
    was there before or belongs to an enumerated OID that [add_vt]
    accepts and holds the fields taken out of the metadata, the
    severities (always of type [cvss_base_v2]), the resolved dependencies
    and, under [custom], all the metadata that was not taken out; and
    every accepted OID is in the table. *)
Theorem load_vts_table (valid_oid : string -> bool) (nvti : nvticache)
  (w w' : world) :
  let oids := dict_of_pairs (get_oids nvti) in
  load_vts valid_oid nvti w = (Ok tt, w') ->
  vts_version (fst w') = get_feed_version nvti /\
  pending_feed (fst w') = Some false /\
  (forall oid entry,
     get (vts (fst w')) oid = Some entry ->
     get (vts (fst w)) oid = Some entry \/
     (exists f, In (f, oid) oids) /\ oid <> "" /\ valid_oid oid = true /\
     stored_entry nvti oids oid entry) /\
  (forall oid,
     mem (vts (fst w)) oid = true \/
     (exists f, In (f, oid) oids) /\ oid <> "" /\ valid_oid oid = true ->
     mem (vts (fst w')) oid = true).
Proof.
  intros oids H. rewrite load_vts_eq in H. fold oids in H.
  destruct (load_loop valid_oid nvti oids oids _) as [[u|e] w1] eqn:L;
    [|discriminate].
  destruct u. apply load_loop_table in L. destruct L as [_ [Old New]].
  cbn [fst] in Old, New. inversion H; subst. cbn [fst vts vts_version
    pending_feed]. auto.
Qed.

(** X14 (load_vts): it returns exactly when the metadata of every
    enumerated VT has the fields that are taken out without a test
    (['name'], ['creation_date'], ['last_modification'] and one of the
    two vectors) and has no ['severity_type']. *)
Theorem load_vts_returns_iff (valid_oid : string -> bool) (nvti : nvticache)
  (w : world) :
  (exists w', load_vts valid_oid nvti w = (Ok tt, w')) <->
  (forall f oid,
     In (f, oid) (dict_of_pairs (get_oids nvti)) ->
     well_formed (get_nvt_metadata nvti oid) /\
     mem (get_nvt_metadata nvti oid) "severity_type" = false).
Proof.
  rewrite load_vts_eq. split.
  - intros [w' H].
    destruct (load_loop _ _ _ _ _) as [[u|e] w1] eqn:L; [|discriminate].
    destruct u. apply load_loop_table in L. tauto.
  - intros H.
    destruct (load_loop_returns valid_oid nvti (dict_of_pairs (get_oids nvti))
                (dict_of_pairs (get_oids nvti))
                (fst w, (snd w ++ [LogDebug "Loading vts in memory."])%list) H)
      as [w1 ->].
    eexists. reflexivity.
Qed.

Lemma load_vts_table_witness :
  let w' := snd (load_vts openvas_oid sound_nvti (idle_daemon [] None, [])) in
  vts_version (fst w') = Some "201811011500" /\
  pending_feed (fst w') = Some false /\
  mem (vts (fst w')) example_oid = true.
Proof.
  intros w'.
  assert (H : load_vts openvas_oid sound_nvti (idle_daemon [] None, [])
              = (Ok tt, w')) by (vm_compute; reflexivity).
  destruct (load_vts_table openvas_oid sound_nvti _ _ H) as [V [P [_ New]]].
  split; [exact V|]. split; [exact P|]. apply New. right.
  split; [exists "filename:ping_host.nasl"; now left|].
  split; [discriminate|reflexivity].
Defined.

Lemma load_vts_returns_iff_witness :
  exists w', load_vts openvas_oid sound_nvti (idle_daemon [] None, [])
             = (Ok tt, w').
Proof.
  apply (proj2 (load_vts_returns_iff openvas_oid sound_nvti
                  (idle_daemon [] None, []))).
  intros f oid [E|[]]. inversion E; subst.
  repeat split; try reflexivity. right. reflexivity.
Defined.

(** The entries of a table loaded into an empty table. *)
Lemma load_vts_stored valid_oid nvti (d : daemon) (trace : list event)
  (w' : world) (oid : string) (entry : vt) :
  vts d = [] ->
  load_vts valid_oid nvti (d, trace) = (Ok tt, w') ->
  get (vts (fst w')) oid = Some entry ->
  stored_entry nvti (dict_of_pairs (get_oids nvti)) oid entry.
Proof.
  intros Empty H G. rewrite load_vts_eq in H.
  destruct (load_loop _ _ _ _ _) as [[u|e] w1] eqn:L; [|discriminate].
  destruct u. apply load_loop_table in L. destruct L as [_ [Old _]].
  inversion H; subst. clear H. cbn [fst vts] in *.
  destruct (Old oid entry G) as [C|[_ [_ [_ S]]]]; [|exact S].
  rewrite Empty in C. discriminate.
Qed.

(* ================================================================= *)
(** ** VT Metadata Cache: [check_feed] *)

Lemma any_alive_none (processes : dict bool) :
  (forall scan_id alive, In (scan_id, alive) processes -> alive = false) ->
  any_alive processes false = false.
Proof.
  induction processes as [|[scan_id alive] rest IH]; intros H;
    cbn [any_alive]; [reflexivity|].
  rewrite (H scan_id alive (or_introl eq_refl)). apply IH.
  intros s a Hin. apply (H s a). now right.
Qed.

(** [check_feed] in closed form. *)
Lemma check_feed_eq valid_oid nvti (d : daemon) (trace : list event) :
  check_feed valid_oid nvti (d, trace) =
  if update_due nvti d then
    if any_alive (scan_processes d) false then
      if flag_set (pending_feed d) then (Ok tt, (d, trace))
      else
        (Ok tt,
         (mk_daemon (vts d) (vts_version d) (Some true) (main_kbindex d)
            (scan_processes d),
          (trace ++ [SetPendingFeed true;
                     LogDebug ("There is a running scan. Therefore the feed "
                                 ++ "update will be performed later.")])%list))
    else load_vts valid_oid nvti (without_vts d, trace)
  else (Ok tt, (d, trace)).
Proof.
  unfold check_feed, update_due, without_vts, set_pending_feed, set_vts,
    modify, emit, bind, gets, ret.
  cbn [fst snd].
  destruct (any_alive (scan_processes d) false);
    destruct (flag_set (pending_feed d)) eqn:F;
    cbn [andb orb negb fst snd]; rewrite ?F; cbn [negb fst snd];
    try reflexivity;
    destruct (option_string_eqb (vts_version d) (get_feed_version nvti));
    cbn [andb orb negb fst snd]; rewrite ?F; cbn [negb fst snd];
    rewrite <- ?app_assoc; reflexivity.
Qed.

(** A failing iteration of the loop of [load_vts] leaves the world as it
    was. *)
Lemma load_vt_raise valid_oid nvti oids vt_id (w w' : world) (e : exn) :
  load_vt valid_oid nvti oids vt_id w = (Raise e, w') -> w' = w.
Proof.
  unfold load_vt. intros H. apply bind_inv in H.
  destruct H as [(entry & w1 & E & H) | (e' & H & _)].
  - exfalso. unfold bind, gets, set_vts, modify, emit, ret in H.
    destruct (add_vt _ _ _ _) as [code table]. cbn [fst snd] in H.
    destruct (Z.eqb code (-1)), (Z.eqb code (-2)); discriminate.
  - now apply read_vt_pure in H.
Qed.

(** Whatever the outcome of the loop, the entries of the table were there
    before or were read from the cache. *)
Lemma load_loop_entries valid_oid nvti oids :
  forall items (w w' : world) r,
    load_loop valid_oid nvti oids items w = (r, w') ->
    forall oid entry,
      get (vts (fst w')) oid = Some entry ->
      get (vts (fst w)) oid = Some entry \/
      (exists f, In (f, oid) items) /\ oid <> "" /\ valid_oid oid = true /\
      stored_entry nvti oids oid entry.
Proof.
  induction items as [|[f0 oid0] items IH]; intros w w' r H oid entry G.
  - cbn [load_loop] in H. inversion H; subst. now left.
  - cbn [load_loop] in H. apply bind_inv in H.
    destruct H as [(u & w1 & E & H) | (e & E & _)].
    + destruct u. apply load_vt_table in E. destruct E as [entry0 [S0 G0]].
      destruct (IH _ _ _ H oid entry G) as [G1|[[f Hf] R]].
      * rewrite G0 in G1. destruct (get (vts (fst w)) oid) as [old|];
          [left; exact G1|].
        destruct (String.eqb oid0 oid) eqn:Eo; [|discriminate].
        apply String.eqb_eq in Eo. subst oid0. cbn [andb] in G1.
        destruct (String.eqb oid "") eqn:Ee; [discriminate|].
        destruct (valid_oid oid) eqn:Ev; [|discriminate].
        inversion G1; subst. right. split; [exists f0; now left|].
        split; [intros ->; discriminate|]. split; [reflexivity|exact S0].
      * right. split; [exists f; now right|exact R].
    + apply load_vt_raise in E. subst w'. now left.
Qed.

(** X15 (check_feed): with the pending flag unset and the cached version
    equal to the version of the feed, [check_feed] does nothing, whether
    a scan is running or not. *)
Theorem check_feed_up_to_date (valid_oid : string -> bool) (nvti : nvticache)
  (d : daemon) (trace : list event) :
  flag_set (pending_feed d) = false ->
  vts_version d = get_feed_version nvti ->
  check_feed valid_oid nvti (d, trace) = (Ok tt, (d, trace)).
Proof.
  intros F V. rewrite check_feed_eq. unfold update_due. rewrite F, V.
  assert (E : option_string_eqb (get_feed_version nvti) (get_feed_version nvti)
              = true) by (destruct (get_feed_version nvti); simpl;
                          [apply String.eqb_refl|reflexivity]).
  now rewrite E.
Qed.

Lemma check_feed_up_to_date_witness :
  check_feed openvas_oid (empty_nvti None)
    (idle_daemon example_table None, [])
  = (Ok tt, (idle_daemon example_table None, [])).
Proof.
  apply (check_feed_up_to_date openvas_oid (empty_nvti None)
           (idle_daemon example_table None) []); reflexivity.
Defined.

(** X16 (check_feed): when no scan process is alive and an update is due
    (the flag is set, or the versions differ), [check_feed] drops the
    table and runs [load_vts]; whether the reload returns or raises, no
    entry of the old table survives unless the cache provides it again,
    and when it returns the table holds exactly the enumerated OIDs that
    [add_vt] accepts, the version is that of the feed and the flag is
    cleared. *)
Theorem check_feed_idle_reload (valid_oid : string -> bool)
  (nvti : nvticache) (d : daemon) (trace : list event)
  (r : result unit) (w' : world) :
  let oids := dict_of_pairs (get_oids nvti) in
  let accepted oid :=
    (exists f, In (f, oid) oids) /\ oid <> "" /\ valid_oid oid = true in
  (forall scan_id alive, In (scan_id, alive) (scan_processes d) ->
                         alive = false) ->
  update_due nvti d = true ->
  check_feed valid_oid nvti (d, trace) = (r, w') ->
  check_feed valid_oid nvti (d, trace)
  = load_vts valid_oid nvti (without_vts d, trace) /\
  (forall oid entry,
     get (vts (fst w')) oid = Some entry ->
     accepted oid /\ stored_entry nvti oids oid entry) /\
  (r = Ok tt ->
   vts_version (fst w') = get_feed_version nvti /\
   pending_feed (fst w') = Some false /\
   forall oid, accepted oid -> mem (vts (fst w')) oid = true).
Proof.
  intros oids accepted Idle Due H. rewrite check_feed_eq in H |- *.
  rewrite Due, (any_alive_none _ Idle) in H |- *.
  split; [reflexivity|]. split.
  - intros oid entry G. rewrite load_vts_eq in H. fold oids in H.
    destruct (load_loop valid_oid nvti oids oids _) as [[u|e] w1] eqn:L;
      inversion H; subst; clear H; cbn [fst vts] in G;
      destruct (load_loop_entries _ _ _ _ _ _ _ L oid entry G)
        as [Old|[A [B [C D]]]];
      try discriminate; (split; [repeat split; assumption|assumption]).
  - intros ->. rewrite load_vts_eq in H. fold oids in H.
    destruct (load_loop valid_oid nvti oids oids _) as [[u|e] w1] eqn:L;
      [|discriminate].
    destruct u. apply load_loop_table in L. destruct L as [_ [_ New]].
    inversion H; subst. cbn [fst vts vts_version pending_feed].
    split; [reflexivity|]. split; [reflexivity|].
    intros oid A. apply New. now right.
Qed.

Lemma check_feed_idle_reload_witness :
  let w' := snd (check_feed openvas_oid sound_nvti
                   (idle_daemon example_table (Some true), [])) in
  vts_version (fst w') = Some "201811011500" /\
  pending_feed (fst w') = Some false /\
  mem (vts (fst w')) example_oid = true.
Proof.
  intros w'.
  assert (H : check_feed openvas_oid sound_nvti
                (idle_daemon example_table (Some true), [])
              = (Ok tt, w')) by (vm_compute; reflexivity).
  destruct (check_feed_idle_reload openvas_oid sound_nvti
              (idle_daemon example_table (Some true)) [] _ _
              (fun s a (F : In (s, a) []) => match F with end) eq_refl H)
    as [_ [_ R]].
  destruct (R eq_refl) as [V [P New]].
  split; [exact V|]. split; [exact P|]. apply New.
  split; [exists "filename:ping_host.nasl"; now left|].
  split; [discriminate|reflexivity].
Defined.

(* ================================================================= *)
(** ** Scan Execution Controller: [stop_scan] *)

Lemma view_at_cons_lt k view rest j :
  (j < k)%Z -> view_at k (view :: rest) j = None /\ view_at (k + 1) rest j = None.
Proof.
  intros H. unfold view_at.
  destruct (Z.ltb_spec j k); [|lia].
  destruct (Z.ltb_spec j (k + 1)); [|lia]. auto.
Qed.

Lemma view_at_cons_eq k view rest :
  view_at k (view :: rest) k = Some view /\ view_at (k + 1) rest k = None.
Proof.
  unfold view_at. destruct (Z.ltb_spec k k); [lia|].
  destruct (Z.ltb_spec k (k + 1)); [|lia].
  now rewrite Z.sub_diag.
Qed.

Lemma view_at_cons_gt k view rest j :
  (k < j)%Z -> view_at k (view :: rest) j = view_at (k + 1) rest j.
Proof.
  intros H. unfold view_at.
  destruct (Z.ltb_spec j k); [lia|].
  destruct (Z.ltb_spec j (k + 1)); [lia|].
  replace (Z.to_nat (j - k)) with (S (Z.to_nat (j - (k + 1)))) by lia.
  reflexivity.
Qed.

Lemma filter_length_app {A} (P : A -> bool) (l1 l2 : list A) :
  length (filter P (l1 ++ l2))
  = (length (filter P l1) + length (filter P l2))%nat.
Proof. now rewrite filter_app, length_app. Qed.

(** A run of the loop of [stop_scan] that returns. *)
Lemma stop_loop_returns :
  forall views k (w w' : world),
    stop_loop k views w = (Ok tt, w') ->
    fst w' = fst w /\
    exists new,
      snd w' = (snd w ++ new)%list /\
      (forall j, releases j new =
                 match view_at k views j with
                 | Some view => if holds_scan view then 1 else 0
                 | None => 0
                 end%nat) /\
      length (filter is_signal new) = length (filter holds_scan views) /\
      length (filter is_select new) = length views /\
      (forall view,
         In view views -> holds_scan view = true ->
         exists id pid,
           globalscanid view = Some id /\
           py_int (ovas_pid view) = Ok pid /\
           process view <> None /\
           In (SetSingleItem ("internal/" ++ id) [VStr "stop_all"]) new /\
           In (SendSignal pid "SIGUSR2") new).
Proof.
  induction views as [|view rest IH]; intros k w w' H.
  - cbn [stop_loop] in H. inversion H; subst. split; [reflexivity|].
    exists []. rewrite app_nil_r. split; [reflexivity|].
    split; [intros j; unfold view_at; destruct (j <? k)%Z;
            [reflexivity|now destruct (Z.to_nat (j - k))]|].
    split; [reflexivity|]. split; [reflexivity|]. intros ? [].
  - cbn [stop_loop] in H. unfold bind at 1, emit at 1 in H.
    cbn [filter length]. unfold holds_scan at 2 3.
    destruct (globalscanid view) as [[|c id]|] eqn:G.
    + (* empty scan id *)
      apply IH in H. destruct H as [Fw [new [T [R [Sg [Sl Hv]]]]]].
      cbn [fst snd] in *. split; [exact Fw|].
      exists (SelectKb k true :: new). rewrite T, <- app_assoc.
      split; [reflexivity|]. split; [|split; [|split]].
      * intros j. rewrite releases_cons. cbn [is_release Nat.add]. rewrite R.
        destruct (Z.lt_trichotomy j k) as [L|[->|L]].
        -- destruct (view_at_cons_lt k view rest j L) as [-> ->]. reflexivity.
        -- destruct (view_at_cons_eq k view rest) as [-> ->].
           unfold holds_scan. now rewrite G.
        -- now rewrite (view_at_cons_gt k view rest j L).
      * exact Sg.
      * cbn [filter is_select length]. now rewrite Sl.
      * intros v [<-|Hin] Hh; [unfold holds_scan in Hh; rewrite G in Hh;
                                discriminate|].
        destruct (Hv v Hin Hh) as [i [p [A [B [Pr [C D]]]]]].
        exists i, p. repeat split; auto; now right.
    + (* the KB holds the scan *)
      unfold bind at 1, emit at 1 in H. unfold bind at 1, lift at 1 in H.
      destruct (py_int (ovas_pid view)) as [pid|e] eqn:P; [|discriminate].
      unfold bind at 1 in H.
      destruct (process view) as [parent|] eqn:Pr; [|discriminate].
      unfold ret at 1, bind, emit in H. cbn [fst snd] in H.
      apply IH in H. destruct H as [Fw [new [T [R [Sg [Sl Hv]]]]]].
      cbn [fst snd] in *. split; [exact Fw|].
      exists (SelectKb k true
                :: SetSingleItem ("internal/" ++ String c id) [VStr "stop_all"]
                :: ReleaseDb k :: SendSignal pid "SIGUSR2"
                :: LogDebug ("Stopping process: " ++ parent) :: new).
      rewrite T. repeat (rewrite <- app_assoc; cbn [app]).
      split; [reflexivity|]. split; [|split; [|split]].
      * intros j. rewrite !releases_cons. cbn [is_release Nat.add]. rewrite R.
        destruct (Z.lt_trichotomy j k) as [L|[->|L]].
        -- destruct (view_at_cons_lt k view rest j L) as [-> ->].
           destruct (Z.eqb_spec k j); [lia|reflexivity].
        -- destruct (view_at_cons_eq k view rest) as [-> ->].
           rewrite Z.eqb_refl. unfold holds_scan. now rewrite G.
        -- rewrite (view_at_cons_gt k view rest j L).
           destruct (Z.eqb_spec k j); [lia|reflexivity].
      * cbn [filter is_signal length]. now rewrite Sg.
      * cbn [filter is_select length]. now rewrite Sl.
      * intros v [<-|Hin] Hh.
        -- exists (String c id), pid. rewrite Pr.
           repeat split; auto; try discriminate; cbn [In]; auto 10.
        -- destruct (Hv v Hin Hh) as [i [p [A [B [Pr' [C D]]]]]].
           exists i, p. repeat split; auto; cbn [In]; auto 10.
    + (* no scan id *)
      apply IH in H. destruct H as [Fw [new [T [R [Sg [Sl Hv]]]]]].
      cbn [fst snd] in *. split; [exact Fw|].
      exists (SelectKb k true :: new). rewrite T, <- app_assoc.
      split; [reflexivity|]. split; [|split; [|split]].
      * intros j. rewrite releases_cons. cbn [is_release Nat.add]. rewrite R.
        destruct (Z.lt_trichotomy j k) as [L|[->|L]].
        -- destruct (view_at_cons_lt k view rest j L) as [-> ->]. reflexivity.
        -- destruct (view_at_cons_eq k view rest) as [-> ->].
           unfold holds_scan. now rewrite G.
        -- now rewrite (view_at_cons_gt k view rest j L).
      * exact Sg.
      * cbn [filter is_select length]. now rewrite Sl.
      * intros v [<-|Hin] Hh; [unfold holds_scan in Hh; rewrite G in Hh;
                                discriminate|].
        destruct (Hv v Hin Hh) as [i [p [A [B [Pr [C D]]]]]].
        exists i, p. repeat split; auto; now right.
Qed.

(** The events of a run of the loop that returns, in order. *)
Lemma stop_loop_trace :
  forall views k (w w' : world),
    stop_loop k views w = (Ok tt, w') ->
    snd w' = (snd w ++ stop_trace k views)%list.
Proof.
  induction views as [|view rest IH]; intros k w w' H.
  - cbn [stop_loop] in H. inversion H; subst. cbn [stop_trace].
    now rewrite app_nil_r.
  - cbn [stop_loop] in H. unfold bind at 1, emit at 1 in H.
    cbn [stop_trace]. unfold stop_events, stop_marker, holds_scan.
    destruct (globalscanid view) as [[|c id]|] eqn:G.
    + apply IH in H. cbn [fst snd] in H. rewrite H, <- app_assoc. reflexivity.
    + unfold bind at 1, emit at 1 in H. unfold bind at 1, lift at 1 in H.
      destruct (py_int (ovas_pid view)) as [pid|e] eqn:P; [|discriminate].
      unfold bind at 1 in H.
      destruct (process view) as [parent|] eqn:Pr; [|discriminate].
      unfold ret at 1, bind, emit in H. cbn [fst snd] in H.
      apply IH in H. cbn [fst snd] in H. rewrite H.
      repeat (rewrite <- app_assoc; cbn [app]). reflexivity.
    + apply IH in H. cbn [fst snd] in H. rewrite H, <- app_assoc. reflexivity.
Qed.

(** The items set by the passes are the markers of the KBs that hold the
    scan, in the order of the KBs. *)
Lemma stop_trace_markers (views : list stop_view) :
  forall k,
    filter is_set_item (stop_trace k views)
    = map stop_marker (filter holds_scan views).
Proof.
  induction views as [|view rest IH]; intros k; [reflexivity|].
  cbn [stop_trace filter]. rewrite filter_app, IH. unfold stop_events.
  destruct (holds_scan view); reflexivity.
Qed.

(** A run of the loop that reaches a KB holding the scan whose engine
    process cannot be found. *)
Lemma stop_loop_raises (view : stop_view) (after : list stop_view)
  (id : string) (e : exn) :
  holds_scan view = true ->
  globalscanid view = Some id ->
  py_int (ovas_pid view) = Raise e \/
  (exists pid, py_int (ovas_pid view) = Ok pid) /\ process view = None /\
  e = NoSuchProcess ->
  forall before k (w : world),
    forallb (fun v => negb (holds_scan v)) before = true ->
    exists selects,
      stop_loop k (before ++ view :: after) w
      = (Raise e,
         (fst w,
          (snd w ++ selects
             ++ [SetSingleItem ("internal/" ++ id) [VStr "stop_all"]])%list)) /\
      forallb is_select selects = true /\
      length selects = S (length before).
Proof.
  intros Hh Hg Hp. induction before as [|b before IH]; intros k w Hb.
  - cbn [app stop_loop]. unfold holds_scan in Hh. rewrite Hg in *.
    destruct id as [|c id]; [discriminate|].
    exists [SelectKb k true]. split; [|split; reflexivity].
    unfold bind, emit, lift, raise, ret. cbn [fst snd].
    destruct Hp as [->|[[pid ->] [-> ->]]];
      rewrite <- app_assoc; reflexivity.
  - cbn [forallb] in Hb. apply andb_true_iff in Hb. destruct Hb as [Hv Hb].
    apply negb_true_iff in Hv. cbn [app stop_loop].
    unfold bind at 1, emit at 1.
    destruct (IH (k + 1)%Z (fst w, (snd w ++ [SelectKb k true])%list) Hb)
      as [selects [E [S L]]].
    cbn [fst snd] in E. exists (SelectKb k true :: selects).
    split; [|split; [exact S|cbn [length]; now rewrite L]].
    unfold holds_scan in Hv.
    destruct (globalscanid b) as [[|c0 id0]|]; try discriminate;
      rewrite E, <- app_assoc; reflexivity.
Qed.

Lemma forallb_select_releases (index : Z) (l : list event) :
  forallb is_select l = true ->
  releases index l = 0%nat /\ existsb is_signal l = false.
Proof.
  induction l as [|e l IH]; [now split|]. cbn [forallb]. intros H.
  apply andb_true_iff in H. destruct H as [He Hl].
  destruct (IH Hl) as [R S]. rewrite releases_cons, R.
  destruct e; try discriminate. now split.
Qed.

(** X17 (stop_scan): a run that returns has visited every KB, has left
    the daemon as it was, and for every KB that holds the scan, and for
    no other, has written the stop marker, released the KB once and sent
    [SIGUSR2] to the engine process: its events are, KB by KB in the
    order of the indexes, the selection of the KB followed, only when
    the KB holds the scan, by the marker, the release, the signal and
    the log line; so the items it sets are the markers of the KBs that
    hold the scan and nothing else. *)
Theorem stop_scan_stops_holders (views : list stop_view) (w w' : world) :
  stop_scan views w = (Ok tt, w') ->
  fst w' = fst w /\
  exists new,
    snd w' = (snd w ++ new)%list /\
    length (filter is_select new) = length views /\
    length (filter is_signal new) = length (filter holds_scan views) /\
    (forall i view,
       nth_error views i = Some view ->
       releases (Z.of_nat i) new = (if holds_scan view then 1 else 0)%nat) /\
    (forall j, (j < 0 \/ Z.of_nat (length views) <= j)%Z ->
               releases j new = 0%nat) /\
    (forall view,
       In view views -> holds_scan view = true ->
       exists id pid,
         globalscanid view = Some id /\
         py_int (ovas_pid view) = Ok pid /\
         process view <> None /\
         In (SetSingleItem ("internal/" ++ id) [VStr "stop_all"]) new /\
         In (SendSignal pid "SIGUSR2") new) /\
    new = stop_trace 0 views /\
    filter is_set_item new = map stop_marker (filter holds_scan views).
Proof.
  intros H. pose proof (stop_loop_trace _ _ _ _ H) as Tr.
  apply stop_loop_returns in H.
  destruct H as [Fw [new [T [R [Sg [Sl Hv]]]]]]. split; [exact Fw|].
  assert (Ev : new = stop_trace 0 views)
    by (rewrite T in Tr; exact (app_inv_head _ _ _ Tr)).
  exists new. split; [exact T|]. split; [exact Sl|]. split; [exact Sg|].
  split; [|split; [|split; [exact Hv|split;
    [exact Ev|rewrite Ev; apply stop_trace_markers]]]].
  - intros i view N. rewrite R. unfold view_at.
    destruct (Z.ltb_spec (Z.of_nat i) 0); [lia|].
    rewrite Z.sub_0_r, Nat2Z.id, N. reflexivity.
  - intros j Hj. rewrite R. unfold view_at.
    destruct (Z.ltb_spec j 0); [reflexivity|].
    assert (N : nth_error views (Z.to_nat (j - 0)) = None)
      by (apply nth_error_None; lia).
    now rewrite N.
Qed.

Lemma stop_scan_stops_holders_witness :
  let w' := snd (stop_scan [other_view; holder_view]
                   (idle_daemon example_table None, [])) in
  exists new,
    snd w' = new /\
    releases 1 new = 1%nat /\ releases 0 new = 0%nat /\
    In (SendSignal 4711 "SIGUSR2") new /\
    filter is_set_item new
    = [SetSingleItem ("internal/" ++ example_uuid) [VStr "stop_all"]].
Proof.
  intros w'.
  assert (H : stop_scan [other_view; holder_view]
                (idle_daemon example_table None, []) = (Ok tt, w'))
    by (vm_compute; reflexivity).
  destruct (stop_scan_stops_holders _ _ _ H)
    as [_ [new [T [_ [_ [R [_ [Hv [_ Mk]]]]]]]]].
  exists new. split; [exact T|].
  split; [exact (R 1%nat holder_view eq_refl)|].
  split; [exact (R 0%nat other_view eq_refl)|].
  split; [|exact Mk].
  destruct (Hv holder_view (or_intror (or_introl eq_refl)) eq_refl)
    as [id [pid [G [P [_ [_ S]]]]]].
  vm_compute in P. inversion P; subst. exact S.
Defined.

(** X18 (stop_scan): when the first KB that holds the scan has no engine
    process to signal (the stored pid is no integer, or no process of
    that pid exists), [stop_scan] raises at that KB after writing the
    stop marker: no KB is released, no signal is sent, and the KBs after
    it are not visited. *)
Theorem stop_scan_orphan_keeps_kb (before after : list stop_view)
  (view : stop_view) (id : string) (e : exn) (w : world) :
  forallb (fun v => negb (holds_scan v)) before = true ->
  holds_scan view = true ->
  globalscanid view = Some id ->
  py_int (ovas_pid view) = Raise e \/
  (exists pid, py_int (ovas_pid view) = Ok pid) /\ process view = None /\
  e = NoSuchProcess ->
  exists new,
    stop_scan (before ++ view :: after) w
    = (Raise e, (fst w, (snd w ++ new)%list)) /\
    In (SetSingleItem ("internal/" ++ id) [VStr "stop_all"]) new /\
    (forall j, releases j new = 0%nat) /\
    existsb is_signal new = false /\
    length (filter is_select new) = S (length before).
Proof.
  intros Hb Hh Hg Hp.
  destruct (stop_loop_raises view after id e Hh Hg Hp before 0%Z w Hb)
    as [selects [E [S L]]].
  exists (selects ++ [SetSingleItem ("internal/" ++ id) [VStr "stop_all"]])%list.
  split; [exact E|]. split; [apply in_or_app; right; now left|].
  split; [|split].
  - intros j. rewrite releases_app.
    now rewrite (proj1 (forallb_select_releases j selects S)).
  - rewrite existsb_app.
    now rewrite (proj2 (forallb_select_releases 0%Z selects S)).
  - rewrite filter_length_app. cbn [filter is_select length].
    rewrite Nat.add_0_r, <- L. clear -S.
    induction selects as [|x l IH]; [reflexivity|]. cbn [forallb] in S.
    apply andb_true_iff in S. destruct S as [Sx Sl]. cbn [filter].
    rewrite Sx. cbn [length]. now rewrite IH.
Qed.

Lemma stop_scan_orphan_keeps_kb_witness :
  exists new,
    stop_scan ([other_view] ++ orphan_view :: [holder_view])
      (idle_daemon example_table None, [])
    = (Raise NoSuchProcess, (idle_daemon example_table None, new)) /\
    In (SetSingleItem ("internal/" ++ example_uuid) [VStr "stop_all"]) new /\
    (forall j, releases j new = 0%nat) /\
    existsb is_signal new = false /\
    length (filter is_select new) = 2%nat.
Proof.
  apply (stop_scan_orphan_keeps_kb [other_view] [holder_view] orphan_view
           example_uuid NoSuchProcess (idle_daemon example_table None, [])).
  - reflexivity.
  - reflexivity.
  - reflexivity.
  - right. split; [exists 4711%Z; reflexivity|]. split; reflexivity.
Defined.

(* ================================================================= *)
(** ** Scanner parameters: [parse_param] *)

Lemma get_setitem {V} (d : dict V) (k k' : string) (v : V) :
  get (setitem d k v) k' = if String.eqb k k' then Some v else get d k'.
Proof.
  induction d as [|[k0 v0] r IH]; cbn [setitem get].
  - reflexivity.
  - destruct (String.eqb k0 k) eqn:E; cbn [get].
    + apply String.eqb_eq in E. subst k0.
      destruct (String.eqb k k'); reflexivity.
    + destruct (String.eqb k0 k') eqn:E'; [|exact IH].
      destruct (String.eqb k k') eqn:E''; [|reflexivity].
      apply String.eqb_eq in E', E''. subst. rewrite String.eqb_refl in E.
      discriminate.
Qed.

Lemma find_snoc {A} (P : A -> bool) (l : list A) (a : A) :
  find P (l ++ [a]) = match find P l with
                      | Some x => Some x
                      | None => if P a then Some a else None
                      end.
Proof.
  induction l as [|x l IH]; cbn [app find]; [reflexivity|].
  destruct (P x); [reflexivity|exact IH].
Qed.

Lemma conf_loop_get (name : string) :
  forall confs param_list,
    get (conf_loop confs param_list) name =
    match last_assigned confs name with
    | Some value => Some value
    | None => get param_list name
    end.
Proof.
  unfold last_assigned.
  induction confs as [|conf rest IH]; intros param_list;
    cbn [conf_loop rev find]; [reflexivity|].
  rewrite find_snoc. unfold assigns at 2.
  destruct (conf_assignment conf) as [[k v]|] eqn:A.
  - rewrite IH, get_setitem.
    destruct (find (assigns name) (rev rest)) as [c|] eqn:F.
    + apply find_some in F. destruct F as [_ F]. unfold assigns in F.
      destruct (conf_assignment c) as [[k' v']|]; [reflexivity|discriminate].
    + destruct (String.eqb k name); [now rewrite A|reflexivity].
  - rewrite IH.
    destruct (find (assigns name) (rev rest)); reflexivity.
Qed.

Lemma update_defaults_get (param_list : dict pyval) (name : string) :
  forall params,
    get (update_defaults param_list params) name =
    match get params name with
    | Some p =>
        Some (match get param_list name with
              | Some value => mk_ospd_param (ospd_type p) value
              | None => p
              end)
    | None => None
    end.
Proof.
  induction params as [|[k p] r IH]; cbn [update_defaults map get fst snd];
    [reflexivity|].
  destruct (String.eqb k name) eqn:E; [|exact IH].
  apply String.eqb_eq in E. now subst k.
Qed.

(** X19 (parse_param): the parameters keep their names, their order and
    their types; a parameter's default becomes the value of the last
    line of the output that splits at [=] into exactly a name and a value
    and whose stripped name is the parameter's ([yes] and [no] stored as
    [1] and [0] whatever the type), and stays as it was when there is no
    such line; settings of unknown names add nothing. *)
Theorem parse_param_defaults (result : string) (params : dict ospd_param) :
  is_ascii result = true ->
  exists params',
    parse_param result params = Some params' /\
    keys params' = keys params /\
    forall name,
      get params' name =
      match get params name with
      | Some p =>
          Some (mk_ospd_param (ospd_type p)
                  match last_assigned (split newline result) name with
                  | Some value => value
                  | None => ospd_default p
                  end)
      | None => None
      end.
Proof.
  intros A. unfold parse_param. rewrite A. eexists. split; [reflexivity|].
  split.
  - unfold keys, update_defaults. rewrite map_map. reflexivity.
  - intros name. rewrite update_defaults_get, conf_loop_get.
    destruct (get params name) as [[ty df]|]; [|reflexivity].
    cbn [get ospd_type ospd_default].
    destruct (last_assigned _ name); reflexivity.
Qed.

Lemma parse_param_defaults_witness :
  exists params',
    parse_param example_settings OSPD_PARAMS_initial = Some params' /\
    keys params' = keys OSPD_PARAMS_initial /\
    get params' "safe_checks" = Some (mk_ospd_param "boolean" (VInt 0)) /\
    get params' "cgi_path" = Some (mk_ospd_param "string" (VStr "/scripts")) /\
    get params' "vhosts" = Some (mk_ospd_param "string" (VStr "")) /\
    get params' "max_hosts" = None.
Proof.
  destruct (parse_param_defaults example_settings OSPD_PARAMS_initial
              eq_refl) as [params' [E [K G]]].
  exists params'. split; [exact E|]. split; [exact K|].
  repeat split; rewrite G; reflexivity.
Defined.

(** X20 (parse_param, exec_scan): a boolean setting read by [parse_param]
    and sent back as a scan option reaches the scanner as [yes] only if
    the scanner reported [yes]; every other reported value, [1] and
    [true] included, is sent as [no]. *)
Theorem boolean_setting_round_trip (name text : string) :
  get OSPD_PARAMS name = Some "boolean" ->
  option_pref (name, conf_value text) =
  name ++ "|||" ++ (if String.eqb (strip_str text) "yes" then "yes" else "no").
Proof.
  intros T. unfold option_pref, get_default, conf_value. rewrite T.
  cbn [String.eqb Ascii.eqb Bool.eqb]. unfold _from_bool_to_str.
  cbn [bool_dict get].
  destruct (String.eqb "no" (strip_str text)) eqn:N.
  - apply String.eqb_eq in N. rewrite <- N. reflexivity.
  - rewrite (String.eqb_sym "yes").
    destruct (String.eqb (strip_str text) "yes"); reflexivity.
Qed.

Lemma boolean_setting_round_trip_witness :
  option_pref ("safe_checks", conf_value " 1") = "safe_checks|||no" /\
  option_pref ("safe_checks", conf_value " yes") = "safe_checks|||yes".
Proof.
  split.
  - exact (boolean_setting_round_trip "safe_checks" " 1" eq_refl).
  - exact (boolean_setting_round_trip "safe_checks" " yes" eq_refl).
Defined.

(* ================================================================= *)
(** ** Result forwarding: [get_openvas_result] *)

Lemma get_severity_score_stored {severity : Type} (cvss : string -> severity)
  (nvti : nvticache) (oids : dict string) (table : dict vt) (oid : string)
  (entry : vt) :
  get table oid = Some entry ->
  stored_entry nvti oids oid entry ->
  exists vector,
    severity_vector_of (get_nvt_metadata nvti oid) = Some vector /\
    get_severity_score cvss table oid =
    Ok (if String.eqb vector "" then None else Some (cvss vector)).
Proof.
  intros G [_ [_ [_ [_ [[vector [V S]] _]]]]]. exists vector.
  split; [exact V|]. unfold get_severity_score. rewrite G, S.
  cbn [app get String.eqb Ascii.eqb Bool.eqb option_string_eqb andb nonempty].
  destruct vector as [|a s]; reflexivity.
Qed.

Lemma forward_result_length {severity : Type} (cvss : string -> severity)
  (qod_types : dict string) (table : dict vt) (scan_id host_aux res : string)
  (new : list (report severity)) :
  forward_result cvss qod_types table scan_id host_aux res = Ok new ->
  length new = if is_forwarded res then 1%nat else 0%nat.
Proof.
  unfold forward_result, is_forwarded, and_then.
  destruct (field (split "|||" res) 3) as [roid|]; [|discriminate].
  destruct (lookup_vt table roid) as [v|]; [|discriminate].
  destruct (result_qod qod_types v) as [rqod|]; [|discriminate].
  destruct (split "|||" res) as [|tag msg]; [discriminate|].
  cbn [field nth_error].
  destruct (field (tag :: msg) 4) as [value|];
    destruct (field (tag :: msg) 2) as [port|];
    destruct (get_severity_score cvss table roid) as [rseverity|];
    destruct (String.eqb tag "ERRMSG") eqn:E1;
    try discriminate;
    try (apply String.eqb_eq in E1; subst tag);
    cbn [String.eqb Ascii.eqb Bool.eqb orb];
    try (intros H; inversion H; reflexivity);
    destruct (String.eqb tag "LOG") eqn:E2;
    try discriminate;
    try (apply String.eqb_eq in E2; subst tag);
    cbn [String.eqb Ascii.eqb Bool.eqb orb];
    try (intros H; inversion H; reflexivity);
    destruct (String.eqb tag "HOST_DETAIL") eqn:E3;
    try discriminate;
    try (apply String.eqb_eq in E3; subst tag);
    cbn [String.eqb Ascii.eqb Bool.eqb orb];
    try (intros H; inversion H; reflexivity);
    destruct (String.eqb tag "ALARM") eqn:E4;
    try discriminate;
    try (apply String.eqb_eq in E4; subst tag);
    cbn [String.eqb Ascii.eqb Bool.eqb orb];
    try (intros H; inversion H; reflexivity).
Qed.

Lemma result_qod_known (qod_types : dict string) (v : vt) :
  qod_known qod_types v = true <-> exists rqod, result_qod qod_types v = Ok rqod.
Proof.
  unfold qod_known, result_qod, mem.
  destruct (qod_t v) as [[|a t]|]; cbn [nonempty].
  - split; [intros _|reflexivity].
    destruct (nonempty (qod_v v)); [destruct (qod_v v)|]; eauto.
  - destruct (get qod_types (String a t)).
    + split; [eauto|reflexivity].
    + split; [discriminate|intros [? H]; discriminate].
  - split; [intros _|reflexivity].
    destruct (nonempty (qod_v v)); [destruct (qod_v v)|]; eauto.
Qed.

Lemma get_severity_score_known {severity : Type} (cvss : string -> severity)
  (table : dict vt) (oid : string) (v : vt) :
  get table oid = Some v ->
  exists score, get_severity_score cvss table oid = Ok score.
Proof.
  intros G. unfold get_severity_score. rewrite G.
  destruct (option_string_eqb _ _ && nonempty _);
    [destruct (get (severities v) "severity_base_vector")|]; eauto.
Qed.

Lemma forward_result_forwardable {severity : Type} (cvss : string -> severity)
  (qod_types : dict string) (table : dict vt) (scan_id host_aux res : string) :
  res <> "" ->
  forwardable qod_types table res = true <->
  exists new,
    forward_result cvss qod_types table scan_id host_aux res = Ok new.
Proof.
  intros Ne. unfold forwardable, forward_result, is_forwarded, and_then, field,
    lookup_vt.
  assert (E : String.eqb res "" = false)
    by (destruct res; [contradiction|reflexivity]).
  rewrite E. cbn [negb andb]. clear E Ne.
  destruct (split "|||" res) as [|tag [|f1 [|port [|roid rest]]]];
    cbn [nth_error];
    try (split; [discriminate|intros [? H]; discriminate]).
  destruct (get table roid) as [v|] eqn:G;
    [|split; [discriminate|intros [? H]; discriminate]].
  pose proof (result_qod_known qod_types v) as Q.
  destruct (get_severity_score_known cvss table roid v G) as [score Sc].
  rewrite Sc.
  destruct (result_qod qod_types v) as [rqod|e].
  2:{ split; [|intros [? H]; discriminate]. intros H.
      apply andb_true_iff in H. destruct H as [H _]. apply Q in H.
      destruct H as [? H]. discriminate. }
  rewrite (proj2 Q (ex_intro _ rqod eq_refl)). cbn [andb].
  destruct rest as [|value rest]; cbn [nth_error];
    destruct (String.eqb tag "ERRMSG"), (String.eqb tag "LOG"),
      (String.eqb tag "HOST_DETAIL"), (String.eqb tag "ALARM");
    cbn [orb negb];
    (split; [intros H; try discriminate; eauto
            |intros [? H]; try discriminate; reflexivity]).
Qed.

(** The loop over a prefix of results that can all be forwarded. *)
Lemma get_openvas_result_prefix {severity : Type} (cvss : string -> severity)
  (qod_types : dict string) (table : dict vt) (scan_id host_aux : string)
  (rest : list string) :
  forall before reports,
    Forall (fun res =>
              res <> "" /\
              exists new,
                forward_result cvss qod_types table scan_id host_aux res
                = Ok new) before ->
    exists news,
      Forall2 (fun res new =>
                 forward_result cvss qod_types table scan_id host_aux res
                 = Ok new) before news /\
      length (concat news) = length (filter is_forwarded before) /\
      get_openvas_result cvss qod_types table scan_id host_aux
        (before ++ rest) reports
      = get_openvas_result cvss qod_types table scan_id host_aux rest
          (reports ++ concat news).
Proof.
  induction before as [|res before IH]; intros reports H.
  - exists []. split; [constructor|]. split; [reflexivity|].
    cbn [app concat]. now rewrite app_nil_r.
  - inversion H as [|? ? [Ne [new E]] Hb]; subst.
    destruct (IH (reports ++ new)%list Hb) as [news [F [L R]]].
    exists (new :: news). split; [now constructor|]. split.
    + cbn [concat filter]. rewrite length_app, L.
      rewrite (forward_result_length _ _ _ _ _ _ _ E).
      destruct (is_forwarded res); reflexivity.
    + cbn [app get_openvas_result concat].
      destruct res as [|a res]; [contradiction|].
      rewrite E, R. now rewrite app_assoc.
Qed.

Lemma forwardable_all {severity : Type} (cvss : string -> severity)
  (qod_types : dict string) (table : dict vt) (scan_id host_aux : string)
  (queue : list string) :
  forallb (forwardable qod_types table) queue = true ->
  Forall (fun res =>
            res <> "" /\
            exists new,
              forward_result cvss qod_types table scan_id host_aux res
              = Ok new) queue.
Proof.
  intros H. apply Forall_forall. intros res Hin.
  rewrite forallb_forall in H. specialize (H res Hin).
  assert (Ne : res <> "").
  { intros ->. unfold forwardable in H. discriminate. }
  split; [exact Ne|].
  now apply (forward_result_forwardable cvss qod_types table scan_id host_aux
               res Ne).
Qed.

(** X21 (get_openvas_result): when every queued result is forwardable
    (not empty, at least four fields, the fourth the OID of a VT of the
    table whose QoD type is known, and a fifth field when the tag is
    forwarded), the loop empties the queue and adds the reports of
    the results in the order of the queue: one report for each result
    tagged [ERRMSG], [LOG], [HOST_DETAIL] or [ALARM], none for a result
    with another tag, which is dropped. *)
Theorem get_openvas_result_forwards {severity : Type}
  (cvss : string -> severity) (qod_types : dict string) (table : dict vt)
  (scan_id host_aux : string) (queue : list string)
  (reports : list (report severity)) :
  forallb (forwardable qod_types table) queue = true ->
  exists news,
    get_openvas_result cvss qod_types table scan_id host_aux queue reports
    = (Ok tt, (reports ++ concat news)%list, []) /\
    Forall2 (fun res new =>
               forward_result cvss qod_types table scan_id host_aux res
               = Ok new /\
               length new = if is_forwarded res then 1%nat else 0%nat)
      queue news.
Proof.
  intros H.
  apply (forwardable_all cvss qod_types table scan_id host_aux) in H.
  destruct (get_openvas_result_prefix cvss qod_types table scan_id host_aux
              [] queue reports H) as [news [F [_ R]]].
  exists news. rewrite app_nil_r in R. split; [exact R|].
  clear -F. induction F as [|res new queue news E F IH]; constructor;
    [|exact IH].
  split; [exact E|]. eapply forward_result_length; eassumption.
Qed.

(** X22 (get_openvas_result): a result whose OID (its fourth field) is
    not in the VT table raises [KeyError], whatever its tag; the reports
    of the results before it stay added, that result has been taken from
    the queue, and the results after it stay queued. *)
Theorem get_openvas_result_unknown_oid {severity : Type}
  (cvss : string -> severity) (qod_types : dict string) (table : dict vt)
  (scan_id host_aux : string) (before after : list string)
  (res oid : string) (reports : list (report severity)) :
  forallb (forwardable qod_types table) before = true ->
  res <> "" ->
  field (split "|||" res) 3 = Ok oid ->
  mem table oid = false ->
  exists added,
    get_openvas_result cvss qod_types table scan_id host_aux
      (before ++ res :: after) reports
    = (Raise (KeyError oid), (reports ++ added)%list, after) /\
    length added = length (filter is_forwarded before).
Proof.
  intros Hb Ne Fd Mm.
  apply (forwardable_all cvss qod_types table scan_id host_aux) in Hb.
  destruct (get_openvas_result_prefix cvss qod_types table scan_id host_aux
              (res :: after) before reports Hb) as [news [_ [L R]]].
  exists (concat news). split; [|exact L]. rewrite R.
  cbn [get_openvas_result]. destruct res as [|a res]; [contradiction|].
  unfold forward_result, and_then. rewrite Fd. unfold lookup_vt.
  unfold mem in Mm. destruct (get table oid); [discriminate|reflexivity].
Qed.

(** X23 (get_severity_score, load_vts): for a VT of a table loaded by
    [load_vts] into an empty table the severity type is always
    [cvss_base_v2], so the score of an alarm is the CVSS value of the
    vector taken from the metadata ([severity_base_vector] if present,
    else [cvss_base_vector]), and is [None] exactly when that vector is
    the empty string. *)
Theorem get_severity_score_of_loaded {severity : Type}
  (cvss : string -> severity) (valid_oid : string -> bool)
  (nvti : nvticache) (d : daemon) (trace : list event) (w' : world)
  (oid : string) :
  vts d = [] ->
  load_vts valid_oid nvti (d, trace) = (Ok tt, w') ->
  mem (vts (fst w')) oid = true ->
  exists vector,
    severity_vector_of (get_nvt_metadata nvti oid) = Some vector /\
    get_severity_score cvss (vts (fst w')) oid =
    Ok (if String.eqb vector "" then None else Some (cvss vector)).
Proof.
  intros Empty H Mm. rewrite load_vts_eq in H.
  destruct (load_loop _ _ _ _ _) as [[u|e] w1] eqn:L; [|discriminate].
  destruct u. apply load_loop_table in L. destruct L as [_ [Old _]].
  inversion H; subst. clear H. cbn [fst vts] in *. unfold mem in Mm.
  destruct (get (vts (fst w1)) oid) as [entry|] eqn:G; [|discriminate].
  destruct (Old oid entry G) as [C|[_ [_ [_ S]]]].
  - rewrite Empty in C. discriminate.
  - exact (get_severity_score_stored cvss nvti _ _ oid entry G S).
Qed.

Lemma get_severity_score_of_loaded_witness :
  let w' := snd (load_vts openvas_oid sound_nvti (idle_daemon [] None, [])) in
  get_severity_score (fun vector => vector) (vts (fst w')) example_oid
  = Ok (Some "AV:N/AC:L/Au:N/C:N/I:N/A:N").
Proof.
  intros w'.
  assert (H : load_vts openvas_oid sound_nvti (idle_daemon [] None, [])
              = (Ok tt, w')) by (vm_compute; reflexivity).
  destruct (get_severity_score_of_loaded (fun vector => vector) openvas_oid
              sound_nvti (idle_daemon [] None) [] w' example_oid eq_refl H
              eq_refl) as [vector [V S]].
  vm_compute in V. inversion V; subst. exact S.
Defined.

Lemma get_openvas_result_forwards_witness :
  exists news,
    get_openvas_result (fun vector => vector) example_qod_types example_table
      "scan-1" "10.0.0.1" example_results []
    = (Ok tt, concat news, []) /\
    Forall2 (fun res new =>
               forward_result (fun vector => vector) example_qod_types
                 example_table "scan-1" "10.0.0.1" res = Ok new /\
               length new = if is_forwarded res then 1%nat else 0%nat)
      example_results news.
Proof.
  apply (get_openvas_result_forwards (fun vector : string => vector)
           example_qod_types example_table "scan-1" "10.0.0.1"
           example_results []).
  reflexivity.
Defined.

Lemma get_openvas_result_unknown_oid_witness :
  exists added,
    get_openvas_result (fun vector => vector) example_qod_types example_table
      "scan-1" "10.0.0.1" (example_results ++ stray_result :: example_results)
      []
    = (Raise (KeyError broken_oid), added, example_results) /\
    length added = 2%nat.
Proof.
  apply (get_openvas_result_unknown_oid (fun vector : string => vector)
           example_qod_types example_table "scan-1" "10.0.0.1"
           example_results example_results stray_result broken_oid []).
  - reflexivity.
  - discriminate.
  - reflexivity.
  - reflexivity.
Defined.

(* ================================================================= *)
(** ** The XML of a VT *)

Lemma xref_loop_attrib (lower : string -> string) (vt_id : string) :
  forall xrefs tag attrib text children errors,
    attrib = [] \/ (exists t i, attrib = [("type", t); ("id", i)]) ->
    fst (xref_loop lower vt_id xrefs (Element tag attrib text children) errors)
    = Element tag
        match find (fun xref => match split_once xref with
                                | Some _ => true
                                | None => false
                                end) (rev xrefs) with
        | Some xref =>
            match split_once xref with
            | Some (_type, _id) => [("type", lower _type); ("id", _id)]
            | None => attrib
            end
        | None => attrib
        end text children.
Proof.
  induction xrefs as [|xref rest IH]; intros tag attrib text children errors S;
    cbn [xref_loop rev find]; [reflexivity|].
  rewrite find_snoc.
  destruct (split_once xref) as [[t i]|] eqn:X.
  - cbn [set_attr]. rewrite IH.
    + destruct (find _ (rev rest)) as [x|] eqn:F.
      * apply find_some in F. destruct F as [_ F].
        destruct (split_once x) as [[t' i']|]; [reflexivity|discriminate].
      * rewrite X.
        destruct S as [->|[t0 [i0 ->]]]; reflexivity.
    + right. destruct S as [->|[t0 [i0 ->]]]; eexists; eexists; reflexivity.
  - rewrite IH by exact S.
    destruct (find _ (rev rest)) as [x|]; reflexivity.
Qed.

Lemma values_loop_children (lower : string -> string) (vt_id ref_type : string) :
  forall ref_values tag attrib text children errors,
    fst (values_loop lower vt_id ref_type ref_values
           (Element tag attrib text children) errors)
    = Element tag attrib text
        (children ++ ref_elements lower (ref_type, ref_values)).
Proof.
  unfold ref_elements. cbn [fst snd].
  induction ref_values as [|value rest IH];
    intros tag attrib text children errors; cbn [values_loop flat_map].
  - now rewrite app_nil_r.
  - unfold ref_attrib at 1, shown_xref.
    destruct (String.eqb value "") eqn:V; cbn [negb andb].
    + rewrite andb_false_r. apply IH.
    + rewrite andb_true_r. destruct (String.eqb ref_type "xref") eqn:R.
      * pose proof (xref_loop_attrib lower vt_id (split ", " value) "ref" []
                      None [] errors (or_introl eq_refl)) as X.
        destruct (xref_loop lower vt_id (split ", " value)
                    (Element "ref" [] None []) errors) as [vt_ref errs].
        cbn [fst] in X. subst vt_ref. cbn [append_child]. rewrite IH.
        rewrite <- app_assoc. cbn [app].
        destruct (find _ (rev (split ", " value))) as [x|]; [|reflexivity].
        destruct (split_once x) as [[t i]|]; reflexivity.
      * cbn [set_attr setitem append_child String.eqb Ascii.eqb Bool.eqb].
        rewrite IH, <- app_assoc. reflexivity.
Qed.

Lemma refs_loop_children (lower : string -> string) (vt_id : string) :
  forall items tag attrib text children errors,
    fst (refs_loop lower vt_id items (Element tag attrib text children) errors)
    = Element tag attrib text
        (children ++ flat_map (ref_elements lower) items).
Proof.
  induction items as [|[ref_type ref_values] rest IH];
    intros tag attrib text children errors; cbn [refs_loop flat_map].
  - now rewrite app_nil_r.
  - pose proof (values_loop_children lower vt_id ref_type ref_values tag
                  attrib text children errors) as V.
    destruct (values_loop lower vt_id ref_type ref_values _ errors)
      as [xml errs].
    cbn [fst] in V. subst xml. rewrite IH, <- app_assoc. reflexivity.
Qed.

(** X24 (get_refs_vt_as_xml_str): the element holds one [ref] for each
    non-empty value, in order, and none for an empty value; the [ref] of
    a value of another type than [xref] shows the lowered type and the
    value; the [ref] of an [xref] value, which may list several
    references separated by a comma and a space, shows only the last one
    that has a colon, as lowered type and id, and shows nothing when none
    has. *)
Theorem get_refs_one_ref_per_value (lower : string -> string)
  (vt_id : string) (vt_refs : dict (list string)) :
  fst (get_refs_vt_as_xml lower vt_id vt_refs)
  = Element "vt_refs" [] None (flat_map (ref_elements lower) vt_refs).
Proof.
  unfold get_refs_vt_as_xml. now rewrite refs_loop_children.
Qed.

Lemma deps_loop_children (vt_id : string) :
  forall dep_list tag attrib text children errors,
    fst (deps_loop vt_id dep_list (Element tag attrib text children) errors)
    = Element tag attrib text
        (children
           ++ flat_map (fun dep =>
                          match dep with
                          | Some d =>
                              [Element "dependency" [("vt_id", d)] None []]
                          | None => []
                          end) dep_list).
Proof.
  induction dep_list as [|[d|] rest IH];
    intros tag attrib text children errors; cbn [deps_loop flat_map].
  - now rewrite app_nil_r.
  - cbn [set_attr setitem append_child]. rewrite IH, <- app_assoc.
    reflexivity.
  - apply IH.
Qed.

Lemma flat_map_map {A B C} (f : A -> B) (g : B -> list C) (l : list A) :
  flat_map g (map f l) = flat_map (fun a => g (f a)) l.
Proof. induction l as [|a l IH]; cbn [map flat_map]; [|rewrite IH]; reflexivity. Qed.

Lemma map_flat_map {A B C} (f : B -> C) (g : A -> list B) (l : list A) :
  map f (flat_map g l) = flat_map (fun a => map f (g a)) l.
Proof.
  induction l as [|a l IH]; cbn [map flat_map]; [reflexivity|].
  now rewrite map_app, IH.
Qed.

(** X25 (get_dependencies_vt_as_xml_str, load_vts): for a VT of a table
    loaded by [load_vts] into an empty table, the dependencies element
    lists, in the order of the ['dependencies'] field of the metadata,
    the OIDs of the dependency files that the cache enumerates; a
    dependency on a file that the cache does not enumerate is left out. *)
Theorem get_dependencies_of_loaded (valid_oid : string -> bool)
  (nvti : nvticache) (d : daemon) (trace : list event) (w' : world)
  (oid : string) (entry : vt) :
  vts d = [] ->
  load_vts valid_oid nvti (d, trace) = (Ok tt, w') ->
  get (vts (fst w')) oid = Some entry ->
  fst (get_dependencies_vt_as_xml oid (vt_dependencies entry))
  = Element "dependencies" [] None
      (map (fun dep => Element "dependency" [("vt_id", dep)] None [])
         (resolved_dependencies (dict_of_pairs (get_oids nvti))
            (get_nvt_metadata nvti oid))).
Proof.
  intros Empty H G.
  destruct (load_vts_stored _ _ _ _ _ _ _ Empty H G)
    as [_ [_ [_ [_ [_ [D _]]]]]].
  unfold get_dependencies_vt_as_xml, resolved_dependencies.
  rewrite deps_loop_children, D. cbn [app].
  destruct (get (get_nvt_metadata nvti oid) "dependencies") as [deps|];
    [|reflexivity].
  rewrite flat_map_map, map_flat_map. f_equal.
  apply flat_map_ext. intros dep.
  destruct (get (dict_of_pairs (get_oids nvti)) ("filename:" ++ dep));
    reflexivity.
Qed.

(** X26 (get_severities_vt_as_xml_str, load_vts): for a VT of a table
    loaded by [load_vts] into an empty table, the severities element has
    one [severity] whose text is the vector taken from the metadata,
    whose type is [cvss_base_v2] and whose origin, set before the type,
    is the ['severity_origin'] of the metadata when there is one. *)
Theorem get_severities_of_loaded (valid_oid : string -> bool)
  (nvti : nvticache) (d : daemon) (trace : list event) (w' : world)
  (oid : string) (entry : vt) :
  vts d = [] ->
  load_vts valid_oid nvti (d, trace) = (Ok tt, w') ->
  get (vts (fst w')) oid = Some entry ->
  get_severities_vt_as_xml oid (severities entry)
  = Element "severities" [] None
      [Element "severity"
         (match get (get_nvt_metadata nvti oid) "severity_origin" with
          | Some origin => [("origin", origin)]
          | None => []
          end ++ [("type", "cvss_base_v2")])%list
         (severity_vector_of (get_nvt_metadata nvti oid)) []].
Proof.
  intros Empty H G.
  destruct (load_vts_stored _ _ _ _ _ _ _ Empty H G)
    as [_ [_ [_ [_ [[vector [V S]] _]]]]].
  unfold get_severities_vt_as_xml. rewrite S, V.
  destruct (get (get_nvt_metadata nvti oid) "severity_origin");
    reflexivity.
Qed.

Lemma get_dependencies_of_loaded_witness :
  let w' := snd (load_vts openvas_oid dependent_nvti
                   (idle_daemon [] None, [])) in
  exists entry,
    get (vts (fst w')) dependent_oid = Some entry /\
    fst (get_dependencies_vt_as_xml dependent_oid (vt_dependencies entry))
    = Element "dependencies" [] None
        [Element "dependency" [("vt_id", example_oid)] None []].
Proof.
  intros w'.
  assert (H : load_vts openvas_oid dependent_nvti (idle_daemon [] None, [])
              = (Ok tt, w')) by (vm_compute; reflexivity).
  destruct (get (vts (fst w')) dependent_oid) as [entry|] eqn:G;
    [|vm_compute in G; discriminate].
  exists entry. split; [reflexivity|].
  exact (get_dependencies_of_loaded openvas_oid dependent_nvti
           (idle_daemon [] None) [] w' dependent_oid entry eq_refl H G).
Defined.

Lemma get_severities_of_loaded_witness :
  let w' := snd (load_vts openvas_oid dependent_nvti
                   (idle_daemon [] None, [])) in
  exists entry,
    get (vts (fst w')) dependent_oid = Some entry /\
    get_severities_vt_as_xml dependent_oid (severities entry)
    = Element "severities" [] None
        [Element "severity" [("origin", "NIST"); ("type", "cvss_base_v2")]
           (Some "AV:N/AC:L/Au:N/C:N/I:N/A:N") []].
Proof.
  intros w'.
  assert (H : load_vts openvas_oid dependent_nvti (idle_daemon [] None, [])
              = (Ok tt, w')) by (vm_compute; reflexivity).
  destruct (get (vts (fst w')) dependent_oid) as [entry|] eqn:G;
    [|vm_compute in G; discriminate].
  exists entry. split; [reflexivity|].
  exact (get_severities_of_loaded openvas_oid dependent_nvti
           (idle_daemon [] None) [] w' dependent_oid entry eq_refl H G).
Defined.

Lemma custom_loop_children :
  forall items tag attrib text children,
    custom_loop items (Element tag attrib text children)
    = Element tag attrib text
        (children ++ map (fun kv => Element (fst kv) [] (Some (snd kv)) [])
                       items).
Proof.
  induction items as [|[key val] rest IH]; intros tag attrib text children;
    cbn [custom_loop map].
  - now rewrite app_nil_r.
  - cbn [append_child set_text fst snd]. rewrite IH, <- app_assoc.
    reflexivity.
Qed.

(** X27 (get_custom_vt_as_xml_str, load_vts): for a VT of a table loaded
    by [load_vts] into an empty table, the custom element has one child
    for each metadata field of the cache that [load_vts] did not take
    out, in the order of the cache, named by the field and holding its
    value: ['family'] for one, but also a ['solution_type'] without
    ['solution'], a ['qod'] next to a ['qod_type'] and a
    ['cvss_base_vector'] next to a ['severity_base_vector']. *)
Theorem get_custom_of_loaded (valid_oid : string -> bool)
  (nvti : nvticache) (d : daemon) (trace : list event) (w' : world)
  (oid : string) (entry : vt) :
  vts d = [] ->
  load_vts valid_oid nvti (d, trace) = (Ok tt, w') ->
  get (vts (fst w')) oid = Some entry ->
  get_custom_vt_as_xml oid (custom entry)
  = Element "custom" [] None
      (map (fun kv => Element (fst kv) [] (Some (snd kv)) [])
         (kept (get_nvt_metadata nvti oid)
            (extracted_keys (get_nvt_metadata nvti oid)))).
Proof.
  intros Empty H G.
  destruct (load_vts_stored _ _ _ _ _ _ _ Empty H G)
    as [_ [_ [_ [_ [_ [_ [_ C]]]]]]].
  unfold get_custom_vt_as_xml. rewrite custom_loop_children, C.
  reflexivity.
Qed.

Lemma get_custom_of_loaded_witness :
  let w' := snd (load_vts openvas_oid dependent_nvti
                   (idle_daemon [] None, [])) in
  exists entry,
    get (vts (fst w')) dependent_oid = Some entry /\
    get_custom_vt_as_xml dependent_oid (custom entry)
    = Element "custom" [] None
        [Element "family" [] (Some "Service detection") [];
         Element "solution_type" [] (Some "VendorFix") []].
Proof.
  intros w'.
  assert (H : load_vts openvas_oid dependent_nvti (idle_daemon [] None, [])
              = (Ok tt, w')) by (vm_compute; reflexivity).
  destruct (get (vts (fst w')) dependent_oid) as [entry|] eqn:G;
    [|vm_compute in G; discriminate].
  exists entry. split; [reflexivity|].
  exact (get_custom_of_loaded openvas_oid dependent_nvti
           (idle_daemon [] None) [] w' dependent_oid entry eq_refl H G).
Defined.
